(** * A shallow embedding of [Parser-collector.py]

    The collector logs into a pickup point, lists today's shipments, fetches
    per-shipment counts, clusters the shipments into unloading batches and
    renders and stores one report unit per batch.  The definitions below follow
    [process_pvs], [save_group_to_db], [parse_datetime] and the main block
    line by line; what the program obtains from the Python library or from the
    network (string methods, [strptime], HTTP answers, the wall clock, the
    order in which pool tasks finish) enters as a Section variable or as a
    field of the [world] record. *)

From Stdlib Require Import Ascii.
From stdpp Require Import gmap strings list fin_maps pretty sorting.
Open Scope Z_scope.

(** ** Exceptions and fallible computations *)

Inductive exn :=
  | TypeError (msg : string)
  | ValueError (msg : string)
  | IndexError (msg : string)
  | KeyError (msg : string)
  | AttributeError (msg : string)
  | RequestException (msg : string).

(** [str(e)] *)
Definition str_exn (e : exn) : string :=
  match e with
  | TypeError m | ValueError m | IndexError m | KeyError m
  | AttributeError m | RequestException m => m
  end.

Inductive result (A : Type) :=
  | Ok (a : A)
  | Raise (e : exn).
Arguments Ok {A} a.
Arguments Raise {A} e.

#[global] Instance result_ret : MRet result := fun _ a => Ok a.
#[global] Instance result_bind : MBind result := fun _ _ f m =>
  match m with
  | Ok a => f a
  | Raise e => Raise e
  end.

#[global] Instance result_fmap : FMap result := fun _ _ f m =>
  match m with
  | Ok a => Ok (f a)
  | Raise e => Raise e
  end.

(** [try: m except: None] *)
Definition try_or_None {A} (m : result A) : option A :=
  match m with
  | Ok a => Some a
  | Raise _ => None
  end.

(** ** Text formatting *)

Definition zeros (n : nat) : string := String.concat "" (replicate n "0").

(** ["%0wd" % n] *)
Definition fmt_0d (w : nat) (n : Z) : string :=
  let sign := if n <? 0 then "-" else "" in
  let digits := pretty (Z.abs n) in
  sign +:+ zeros (w - String.length sign - String.length digits) +:+ digits.

(** ["%d" % n], also [str(n)] and an integer inside an f-string *)
Definition fmt_d (n : Z) : string := pretty n.

(** The line feed a ["\n"] denotes. *)
Definition nl : string := String "010"%char EmptyString.

(** [sum(xs)] *)
Definition sum (xs : list Z) : Z := foldl Z.add 0 xs.

(** [s.split('.')[0]] *)
Fixpoint before_dot (s : string) : string :=
  match s with
  | EmptyString => EmptyString
  | String c rest =>
      if Ascii.eqb c "."%char then EmptyString else String c (before_dot rest)
  end.

(** ** [datetime.datetime] and [datetime.timedelta] *)

Module datetime.

Record t := mk {
  year : Z; month : Z; day : Z;
  hour : Z; minute : Z; second : Z; microsecond : Z
  }.

#[global] Instance t_eq_dec : EqDecision t.
Proof. solve_decision. Defined.

Definition is_leap (y : Z) : bool :=
  (y mod 4 =? 0) && (negb (y mod 100 =? 0) || (y mod 400 =? 0)).

Definition days_before_year (y : Z) : Z :=
  let y := y - 1 in y * 365 + y / 4 - y / 100 + y / 400.

Definition DAYS_BEFORE_MONTH (m : Z) : Z :=
  match m with
  | 1 => 0 | 2 => 31 | 3 => 59 | 4 => 90 | 5 => 120 | 6 => 151
  | 7 => 181 | 8 => 212 | 9 => 243 | 10 => 273 | 11 => 304 | 12 => 334
  | _ => 0
  end.

Definition days_before_month (y m : Z) : Z :=
  DAYS_BEFORE_MONTH m + (if (2 <? m) && is_leap y then 1 else 0).

Definition ymd2ord (y m d : Z) : Z :=
  days_before_year y + days_before_month y m + d.

Definition toordinal (a : t) : Z := ymd2ord (year a) (month a) (day a).

(** Comparison of two datetimes: the fields, most significant first. *)
Definition fields (a : t) : list Z :=
  [year a; month a; day a; hour a; minute a; second a; microsecond a].

Fixpoint lex (xs ys : list Z) : comparison :=
  match xs, ys with
  | x :: xs, y :: ys =>
      match x ?= y with
      | Eq => lex xs ys
      | c => c
      end
  | [], [] => Eq
  | [], _ :: _ => Lt
  | _ :: _, [] => Gt
  end.

Definition cmp (a b : t) : comparison := lex (fields a) (fields b).

Definition ltb (a b : t) : bool := match cmp a b with Lt => true | _ => false end.
Definition gtb (a b : t) : bool := match cmp a b with Gt => true | _ => false end.
Definition leb (a b : t) : bool := match cmp a b with Gt => false | _ => true end.

(** [a.strftime("%H:%M")] *)
Definition strftime_HM (a : t) : string :=
  fmt_0d 2 (hour a) +:+ ":" +:+ fmt_0d 2 (minute a).

(** [a.strftime("%Y-%m-%d")]; the year is written with four digits, as
    every platform does for the years 1000 to 9999. *)
Definition strftime_Ymd (a : t) : string :=
  fmt_0d 4 (year a) +:+ "-" +:+ fmt_0d 2 (month a) +:+ "-" +:+ fmt_0d 2 (day a).

(** [a.strftime("%Y%m%d_%H%M%S")] *)
Definition strftime_run_id (a : t) : string :=
  fmt_0d 4 (year a) +:+ fmt_0d 2 (month a) +:+ fmt_0d 2 (day a) +:+ "_"
    +:+ fmt_0d 2 (hour a) +:+ fmt_0d 2 (minute a) +:+ fmt_0d 2 (second a).

(** [a.strftime("%Y-%m-%d %H:%M:%S")] *)
Definition strftime_full (a : t) : string :=
  strftime_Ymd a +:+ " " +:+ fmt_0d 2 (hour a) +:+ ":" +:+ fmt_0d 2 (minute a)
    +:+ ":" +:+ fmt_0d 2 (second a).

End datetime.

(** A [timedelta] is the signed number of microseconds it spans; Python keeps
    it normalised as days, seconds (0..86399) and microseconds (0..999999),
    which are the quotients and remainders below, and compares two
    timedeltas by those triples, that is, by the number itself. *)
Module timedelta.

Definition t := Z.

Definition us_per_second : Z := 1000000.
Definition us_per_day : Z := 86400 * us_per_second.

Definition days (d : t) : Z := d / us_per_day.
Definition seconds (d : t) : Z := (d mod us_per_day) / us_per_second.
Definition microseconds (d : t) : Z := d mod us_per_second.

(** [timedelta(hours=h)] and [timedelta(0)] *)
Definition of_hours (h : Z) : t := h * 3600 * us_per_second.
Definition zero : t := 0.

(** [datetime.__sub__]: the difference of the ordinals, of the seconds of
    the day and of the microseconds. *)
Definition sub (a b : datetime.t) : t :=
  let secs (x : datetime.t) :=
    datetime.second x + datetime.minute x * 60 + datetime.hour x * 3600 in
  ((datetime.toordinal a - datetime.toordinal b) * 86400 + (secs a - secs b))
    * us_per_second
  + (datetime.microsecond a - datetime.microsecond b).

(** [int(d.total_seconds())]: [total_seconds] is the quotient by 10^6 as a
    float and [int] drops its fraction, rounding towards zero. *)
Definition int_total_seconds (d : t) : Z := Z.quot d us_per_second.

(** [str(d)] *)
Definition str (d : t) : string :=
  let mm := seconds d / 60 in
  let ss := seconds d mod 60 in
  let hh := mm / 60 in
  let mm := mm mod 60 in
  let s := fmt_d hh +:+ ":" +:+ fmt_0d 2 mm +:+ ":" +:+ fmt_0d 2 ss in
  let s :=
    if days d =? 0 then s
    else fmt_d (days d) +:+ " day" +:+ (if Z.abs (days d) =? 1 then "" else "s")
           +:+ ", " +:+ s in
  if microseconds d =? 0 then s else s +:+ "." +:+ fmt_0d 6 (microseconds d).

End timedelta.

(** ** The builtins [min] and [max] on values that may be [None]

    [min(xs)] starts from the first item and replaces the running minimum by
    every later item that compares strictly below it; [max] does the same with
    [>].  Ordering [None] against anything raises [TypeError]; a list of one
    item is returned without any comparison. *)

Definition type_name (x : option datetime.t) : string :=
  match x with
  | Some _ => "datetime.datetime"
  | None => "NoneType"
  end.

Definition not_supported (op : string) (x y : option datetime.t) : exn :=
  TypeError ("'" +:+ op +:+ "' not supported between instances of '"
             +:+ type_name x +:+ "' and '" +:+ type_name y +:+ "'").

Definition obj_lt (x y : option datetime.t) : result bool :=
  match x, y with
  | Some a, Some b => Ok (datetime.ltb a b)
  | _, _ => Raise (not_supported "<" x y)
  end.

Definition obj_gt (x y : option datetime.t) : result bool :=
  match x, y with
  | Some a, Some b => Ok (datetime.gtb a b)
  | _, _ => Raise (not_supported ">" x y)
  end.

Section Extremum.
Context {A : Type} (better : A → A → result bool).

Fixpoint extremum_from (best : A) (xs : list A) : result A :=
  match xs with
  | [] => Ok best
  | x :: xs =>
      b ← better x best;
      extremum_from (if b : bool then x else best) xs
  end.

Definition extremum (name : string) (xs : list A) : result A :=
  match xs with
  | [] => Raise (ValueError (name +:+ "() arg is an empty sequence"))
  | x :: xs => extremum_from x xs
  end.
End Extremum.

Definition py_min (xs : list (option datetime.t)) : result (option datetime.t) :=
  extremum obj_lt "min" xs.
Definition py_max (xs : list (option datetime.t)) : result (option datetime.t) :=
  extremum obj_gt "max" xs.

(** The same builtins on datetimes that are all present. *)
Definition min_dt (xs : list datetime.t) : result datetime.t :=
  extremum (λ a b, Ok (datetime.ltb a b)) "min" xs.
Definition max_dt (xs : list datetime.t) : result datetime.t :=
  extremum (λ a b, Ok (datetime.gtb a b)) "max" xs.

(** ** Stable sorting by a datetime key

    [list.sort(key=...)] and [sorted] are stable; with [reverse=True] the
    order of the keys is reversed and items with equal keys still keep their
    original order. *)

Section SortBy.
Context {A : Type} (key : A → datetime.t).

Fixpoint insert_asc (x : A) (l : list A) : list A :=
  match l with
  | [] => [x]
  | y :: l' =>
      if datetime.leb (key x) (key y) then x :: l else y :: insert_asc x l'
  end.

Definition sort_asc (l : list A) : list A := foldr insert_asc [] l.

Fixpoint insert_desc (x : A) (l : list A) : list A :=
  match l with
  | [] => [x]
  | y :: l' =>
      if datetime.leb (key y) (key x) then x :: l else y :: insert_desc x l'
  end.

Definition sort_desc (l : list A) : list A := foldr insert_desc [] l.
End SortBy.

(** ** Data model *)

(** The dictionary the crawler appends to [all_shipments]. *)
Record shipment := {
  id : string;
  created_dt : datetime.t;
  created_at : string;
  unload_started_at : string;
  closed_at : string;
  status : string;
  detail_url : option string
}.

(** What a detail page yields: the keys [sent], [received] and [excess]. *)
Record details := { d_sent : Z; d_received : Z; d_excess : Z }.

Definition no_details : details := {| d_sent := 0; d_received := 0; d_excess := 0 |}.

(** A shipment after [shipment.update(details)]. *)
Record enriched := {
  base :> shipment;
  sent : Z;
  received : Z;
  excess : Z
}.

Definition update (s : shipment) (d : details) : enriched :=
  {| base := s; sent := d_sent d; received := d_received d; excess := d_excess d |}.

Definition group := list enriched.

#[global] Instance shipment_eq_dec : EqDecision shipment.
Proof. solve_decision. Defined.
#[global] Instance details_eq_dec : EqDecision details.
Proof. solve_decision. Defined.
#[global] Instance enriched_eq_dec : EqDecision enriched.
Proof. solve_decision. Defined.

(** The status the report and the store derive for a group: one of the
    literals ["in_progress"], ["pending"] and ["closed"]. *)
Inductive group_status := in_progress | pending | closed.

#[global] Instance group_status_eq_dec : EqDecision group_status.
Proof. solve_decision. Defined.

(** [group_status.capitalize()] on the three literals. *)
Definition capitalize (st : group_status) : string :=
  match st with
  | in_progress => "In_progress"
  | pending => "Pending"
  | closed => "Closed"
  end.

(** A row of the listing table, as the selectors of the crawler see it:
    each field is the stripped text of the cell, or [None] when the element
    is not there. *)
Record row := {
  cell_createdAt : option string;
  (** the text of the link in the id cell and its [href] attribute *)
  cell_externalId_a : option (string * option string);
  cell_status : option string;
  cell_closedAt : option string;
  cell_unloadStartedAt : option string
}.

(** The parameters [save_group_to_db] hands to the [INSERT]. *)
Record db_row := {
  report_id : string;
  pvs_name : string;
  delivery_date : string;
  db_created_at : datetime.t;
  db_unload_started_at : option datetime.t;
  db_closed_at : option datetime.t;
  db_status : group_status;
  db_sent : Z;
  db_received : Z;
  db_excess : Z;
  group_index : Z;
  boxes_count : Z;
  unload_duration_seconds : Z
}.

(** The dictionary [process_pvs] returns. *)
Inductive outcome :=
  | Error (error : string)
  | Report (message : string).

(** ** The program *)

Section Collector.

(** Library functions the program calls: [str.strip], [str.lower] and
    [datetime.strptime(_, "%Y-%m-%d %H:%M:%S")], which raises [ValueError]
    on a text that does not match. *)
Variable strip : string → string.
Variable lower : string → string.
Variable strptime : string → result datetime.t.

(** [parse_datetime], and [safe_parse] inside [save_group_to_db], which has
    the same body. *)
Definition parse_datetime (date_str : string) : option datetime.t :=
  try_or_None (strptime (strip date_str)).

Definition safe_parse (dt_str : string) : option datetime.t :=
  try_or_None (strptime (strip dt_str)).

(** *** The paginated listing (lines 201-255) *)

(** The body of [for row in rows]: [Ok None] stands for [continue]. *)
Definition read_row (base_url today_date : string) (r : row)
    : result (option shipment) :=
  match cell_createdAt r with
  | None => Ok None
  | Some created_text =>
      if negb (String.prefix today_date created_text) then Ok None
      else
        '(shipment_id, detail_url) ←
          match cell_externalId_a r with
          | Some (text, Some href) => Ok (text, Some (base_url +:+ href))
          | Some (text, None) => Raise (KeyError "'href'")
          | None => Ok ("—", None)
          end;
        status ←
          match cell_status r with
          | Some text => Ok (lower text)
          | None =>
              Raise (AttributeError "'NoneType' object has no attribute 'get_text'")
          end;
        let closed_at :=
          if bool_decide (status = "closed")
          then default "-" (cell_closedAt r)
          else "-" in
        unload_started_at ←
          match cell_unloadStartedAt r with
          | Some text => Ok text
          | None =>
              Raise (AttributeError "'NoneType' object has no attribute 'get_text'")
          end;
        match parse_datetime created_text with
        | None => Ok None
        | Some created_dt =>
            Ok (Some {| id := shipment_id;
                        created_dt := created_dt;
                        created_at := created_text;
                        unload_started_at := unload_started_at;
                        closed_at := closed_at;
                        status := status;
                        detail_url := detail_url |})
        end
  end.

(** The loop over the rows of one page.  It returns the list with the
    shipments of the page appended, [new_rows_found], and whether a row
    raised, in which case the rows after it are not read. *)
Fixpoint read_rows (base_url today_date : string) (rows : list row)
    (all_shipments : list shipment) (new_rows_found : bool)
    : list shipment * bool * bool :=
  match rows with
  | [] => (all_shipments, new_rows_found, false)
  | r :: rows =>
      match read_row base_url today_date r with
      | Raise _ => (all_shipments, new_rows_found, true)
      | Ok None => read_rows base_url today_date rows all_shipments new_rows_found
      | Ok (Some s) => read_rows base_url today_date rows (all_shipments ++ [s]) true
      end
  end.

(** [while True]: [responses] are the answers of the site to the requests
    for the pages [page], [page + 1], ...: the status code and the rows of
    the table, or the exception of [session.get].  The listing of a site is
    finite; a request past its last answer ends the loop like a failed
    request does. *)
Fixpoint crawl (base_url today_date : string) (page : Z)
    (responses : list (result (Z * list row))) (all_shipments : list shipment)
    : list shipment :=
  match responses with
  | [] => all_shipments
  | Raise _ :: _ => all_shipments
  | Ok (status_code, rows) :: responses =>
      if negb (status_code =? 200) then all_shipments
      else if match rows with [] => true | _ => false end then all_shipments
      else
        let '(all_shipments, new_rows_found, raised) :=
          read_rows base_url today_date rows all_shipments false in
        if raised : bool then all_shipments
        else if negb new_rows_found && (1 <? page) then all_shipments
        else if (Z.of_nat (length rows) <? 20) then all_shipments
        else crawl base_url today_date (page + 1) responses all_shipments
  end.

(** *** Detail fetch (lines 266-282) *)

(** What the request for a detail page gives: the status code and, when the
    page has the section [packsInfoContainer], the three numbers
    [extract_value] reads in it (0 for a label that is not there); or the
    exception of the request, of a timeout or of the reading. *)
Definition detail_response := result (Z * option details).

(** [get_details_from_detail_page] (lines 137-165) *)
Definition get_details_from_detail_page (response : detail_response) : option details :=
  match response with
  | Raise _ => None
  | Ok (status_code, packs_section) =>
      if negb (status_code =? 200) then None else packs_section
  end.

(** [fetch_details]: [response] is what the site answers for this shipment
    if it is asked. *)
Definition fetch_details (response : detail_response) (s : shipment) : string * details :=
  match detail_url s with
  | None => (id s, no_details)
  | Some _ => (id s, default no_details (get_details_from_detail_page response))
  end.

(** [as_completed]: the futures in the order in which they finish.
    [finished] lists the positions of the submitted tasks in that order. *)
Definition as_completed {A} (finished : list nat) (futures : list A) : list A :=
  omap (λ i, futures !! i) finished.

(** [details_map[shipment_id] = details] for every finished task. *)
Definition collect_details (results : list (string * details)) : gmap string details :=
  foldl (λ details_map r, <[r.1 := r.2]> details_map) ∅ results.

(** [details = details_map[shipment["id"]]; shipment.update(details)] *)
Definition update_all (details_map : gmap string details)
    (valid_shipments : list shipment) : result (list enriched) :=
  mapM (M := result) (λ s,
    match details_map !! id s with
    | Some d => Ok (update s d)
    | None => Raise (KeyError (id s))
    end) valid_shipments.

Definition enrich (pages : nat → detail_response) (finished : list nat)
    (valid_shipments : list shipment) : result (list enriched) :=
  let results := imap (λ i s, fetch_details (pages i) s) valid_shipments in
  update_all (collect_details (as_completed finished results)) valid_shipments.

(** *** Grouping (lines 285-303) *)

Definition within_hour (s p : enriched) : bool :=
  timedelta.sub (created_dt s) (created_dt p) <=? timedelta.of_hours 1.

(** [for i in range(1, len(day))], then [if current: groups.append(current)];
    [current[-1]] raises [IndexError] on an empty list. *)
Fixpoint day_scan (groups : list group) (current : group) (rest : list enriched)
    : result (list group) :=
  match rest with
  | [] =>
      Ok (match current with [] => groups | _ => groups ++ [current] end)
  | s :: rest =>
      match last current with
      | None => Raise (IndexError "list index out of range")
      | Some p =>
          if within_hour s p
          then day_scan groups (current ++ [s]) rest
          else day_scan (groups ++ [current]) [s] rest
      end
  end.

Definition night_bucket (valid_shipments : list enriched) : list enriched :=
  filter (λ s : enriched, datetime.hour (created_dt s) < 8) valid_shipments.

Definition day_bucket (valid_shipments : list enriched) : list enriched :=
  filter (λ s : enriched, 8 ≤ datetime.hour (created_dt s)) valid_shipments.

(** The groups as they stand before [groups.sort]. *)
Definition form_groups (valid_shipments : list enriched) : result (list group) :=
  let night := night_bucket valid_shipments in
  let day := day_bucket valid_shipments in
  let groups :=
    match night with
    | [] => []
    | _ => [sort_asc (λ x : enriched, created_dt x) night]
    end in
  match day with
  | [] => Ok groups
  | first :: rest => day_scan groups [first] rest
  end.

(** [groups.sort(key=lambda g: g[-1]["created_dt"], reverse=True)]: the keys
    of all groups are computed, then the groups are sorted by them. *)
Definition sort_groups (groups : list group) : result (list group) :=
  keyed ← mapM (M := result) (λ g : group,
    match last g with
    | Some s => Ok (created_dt s, g)
    | None => Raise (IndexError "list index out of range")
    end) groups;
  Ok (sort_desc fst keyed).*2.

Definition grouping_engine (valid_shipments : list enriched) : result (list group) :=
  form_groups valid_shipments ≫= sort_groups.

(** *** Building the report of one group (lines 308-339) *)

Record aggregate := {
  earliest_start : option datetime.t;
  agg_status : group_status;
  latest_close : option datetime.t;
  duration_seconds : Z;
  duration_str : string;
  first_created : string;
  last_created : string;
  total_sent : Z;
  total_received : Z;
  total_excess : Z;
  count : Z
  }.

(** [min(xs) if xs else None] and [max(xs) if xs else None] *)
Definition min_or_None (xs : list (option datetime.t)) : result (option datetime.t) :=
  match xs with [] => Ok None | _ => py_min xs end.
Definition max_or_None (xs : list (option datetime.t)) : result (option datetime.t) :=
  match xs with [] => Ok None | _ => py_max xs end.

Definition report_start_times (g : group) : list (option datetime.t) :=
  map (λ s : enriched, parse_datetime (unload_started_at s))
      (filter (λ s : enriched, unload_started_at s ≠ "-") g).

Definition report_close_times (g : group) : list (option datetime.t) :=
  map (λ s : enriched, parse_datetime (closed_at s))
      (filter (λ s : enriched, closed_at s ≠ "-") g).

(** Lines 311-319: the status of the group. *)
Definition report_group_status (g : group) : group_status :=
  let statuses := map (λ s : enriched, status s) g in
  if bool_decide ("in_progress" ∈ statuses) then in_progress
  else if forallb (λ s, bool_decide (s = "pending")) statuses then pending
  else closed.

(** Lines 314, 317 and 320-321: the latest close time, which only the
    branch of a closed group computes. *)
Definition report_latest_close (g : group) (st : group_status)
    : result (option datetime.t) :=
  match st with
  | closed => max_or_None (report_close_times g)
  | _ => Ok None
  end.

(** Lines 323-331.  [now] is what [datetime.now()] returns if it is called. *)
Definition report_duration (now : datetime.t) (st : group_status)
    (earliest_start latest_close : option datetime.t) : Z * string :=
  match st, earliest_start, latest_close with
  | closed, Some es, Some lc =>
      let duration := timedelta.sub lc es in
      (timedelta.int_total_seconds duration, before_dot (timedelta.str duration))
  | _, _, _ =>
      let duration :=
        match earliest_start with
        | Some es => timedelta.sub now es
        | None => timedelta.zero
        end in
      (0, before_dot (timedelta.str duration))
  end.

Definition aggregate_group (now : datetime.t) (g : group) : result aggregate :=
  earliest_start ← min_or_None (report_start_times g);
  let st := report_group_status g in
  latest_close ← report_latest_close g st;
  let '(duration_seconds, duration_str) :=
    report_duration now st earliest_start latest_close in
  first_created ← min_dt (map (λ s : enriched, created_dt s) g);
  last_created ← max_dt (map (λ s : enriched, created_dt s) g);
  Ok {| earliest_start := earliest_start;
        agg_status := st;
        latest_close := latest_close;
        duration_seconds := duration_seconds;
        duration_str := duration_str;
        first_created := datetime.strftime_HM first_created;
        last_created := datetime.strftime_HM last_created;
        total_sent := sum (map sent g);
        total_received := sum (map received g);
        total_excess := sum (map excess g);
        count := Z.of_nat (length g) |}.

(** Lines 341-353: the text block of one group. *)
Definition render (idx : Z) (today_date : string) (a : aggregate) : string :=
  "Group: " +:+ fmt_d idx +:+ nl
  +:+ "Date: " +:+ today_date +:+ nl
  +:+ "Arrival window: " +:+ first_created a +:+ " – " +:+ last_created a +:+ nl
  +:+ "Closed at: "
      +:+ match latest_close a with
          | Some t => datetime.strftime_full t
          | None => "-"
          end +:+ nl
  +:+ "Unload started: "
      +:+ match earliest_start a with
          | Some t => datetime.strftime_full t
          | None => "-"
          end +:+ nl
  +:+ "Unload duration: " +:+ duration_str a +:+ nl
  +:+ "Status: " +:+ capitalize (agg_status a) +:+ nl
  +:+ "Boxes: " +:+ fmt_d (count a) +:+ nl
  +:+ "Sent: " +:+ fmt_d (total_sent a) +:+ nl
  +:+ "Received: " +:+ fmt_d (total_received a) +:+ nl
  +:+ "Excess: " +:+ fmt_d (total_excess a) +:+ nl.

(** *** [save_group_to_db] (lines 72-127)

    The result is the tuple handed to the [INSERT], or the exception the
    function catches and prints, in which case nothing is stored.  [now] is
    the clock reading of line 76. *)

Definition db_start_times (g : group) : list (option datetime.t) :=
  map (λ s : enriched, safe_parse (unload_started_at s))
      (filter (λ s : enriched, unload_started_at s ≠ "-") g).

Definition db_close_times (g : group) : list (option datetime.t) :=
  map (λ s : enriched, safe_parse (closed_at s))
      (filter (λ s : enriched, closed_at s ≠ "-") g).

(** [min(t for t in xs if t) if xs else None] *)
Definition min_present (xs : list (option datetime.t)) : result (option datetime.t) :=
  match xs with
  | [] => Ok None
  | _ => Some <$> min_dt (omap (λ t, t) xs)
  end.
Definition max_present (xs : list (option datetime.t)) : result (option datetime.t) :=
  match xs with
  | [] => Ok None
  | _ => Some <$> max_dt (omap (λ t, t) xs)
  end.

(** Lines 99-104. *)
Definition db_group_status (statuses : list string) : group_status :=
  if existsb (λ s, bool_decide (s = "in_progress")) statuses then in_progress
  else if forallb (λ s, bool_decide (s = "pending")) statuses then pending
  else closed.

Definition save_group_to_db (now : datetime.t) (pvs_name : string) (g : group)
    (group_index : Z) (today_date : string) (count : Z)
    (unload_duration_seconds : Z) : result db_row :=
  let run_id := datetime.strftime_run_id now in
  let report_id :=
    "GROUP_" +:+ run_id +:+ "_" +:+ pvs_name +:+ "_" +:+ fmt_d group_index in
  let total_sent := sum (map sent g) in
  let total_received := sum (map received g) in
  let total_excess := sum (map excess g) in
  created_at ← min_dt (map (λ s : enriched, created_dt s) g);
  unload_started_at ← min_present (db_start_times g);
  let statuses := map (λ s : enriched, lower (status s)) g in
  closed_at ←
    (if forallb (λ s, bool_decide (s = "closed")) statuses
     then max_present (db_close_times g)
     else Ok None);
  let status := db_group_status statuses in
  Ok {| report_id := report_id;
        pvs_name := pvs_name;
        delivery_date := today_date;
        db_created_at := created_at;
        db_unload_started_at := unload_started_at;
        db_closed_at := closed_at;
        db_status := status;
        db_sent := total_sent;
        db_received := total_received;
        db_excess := total_excess;
        group_index := group_index;
        boxes_count := count;
        unload_duration_seconds := unload_duration_seconds |}.

(** *** [process_pvs] (lines 168-360) *)

(** What one run of [process_pvs] meets outside the program. *)
Record world := {
  (** the status code of the login page, or the exception of the request *)
  login_page : result Z;
  (** the [redirect] input of the login form and its [value] attribute *)
  redirect_input : option (option string);
  (** whether the answer to the posted credentials still shows the form
      (both ["identity"] and ["credential"] occur in it) *)
  login_response : string → result bool;
  (** [datetime.now()] of line 199 *)
  today : datetime.t;
  (** the answers to the requests for the pages 1, 2, ... *)
  listing : list (result (Z * list row));
  (** the answer to the request for the detail page of the i-th shipment *)
  detail_pages : nat → detail_response;
  (** the order in which the detail tasks finish *)
  finished : list nat;
  (** [datetime.now()] while the report of group [idx] is built, and inside
      [save_group_to_db] for that group *)
  clock : Z → datetime.t;
  db_clock : Z → datetime.t
}.

(** Lines 179-194; [Some out] is an early [return out]. *)
Definition login (w : world) : result (option outcome) :=
  status_code ← login_page w;
  if negb (status_code =? 200)
  then Ok (Some (Error ("Login page unreachable (" +:+ fmt_d status_code +:+ ")")))
  else
    redirect_value ←
      match redirect_input w with
      | Some (Some value) => Ok value
      | Some None => Raise (KeyError "'value'")
      | None => Ok "/shipments/incoming/"
      end;
    rejected ← login_response w redirect_value;
    if rejected : bool then Ok (Some (Error "Login failed")) else Ok None.

(** [for idx, group in enumerate(groups, 1)]: the lines of the report and
    the calls of [save_group_to_db] made so far; an exception leaves the
    loop and keeps the calls already made. *)
Fixpoint report_loop (pvs_id today_date : string) (w : world) (idx : Z)
    (groups : list group) (lines : list string) (saved : list (result db_row))
    : result (list string) * list (result db_row) :=
  match groups with
  | [] => (Ok lines, saved)
  | g :: groups =>
      match aggregate_group (clock w idx) g with
      | Raise e => (Raise e, saved)
      | Ok a =>
          report_loop pvs_id today_date w (idx + 1) groups
            (lines ++ [render idx today_date a])
            (saved ++ [save_group_to_db (db_clock w idx) pvs_id g idx today_date
                         (count a) (duration_seconds a)])
      end
  end.

(** The body of the [try].  Every shipment of [all_shipments] carries a
    parsed [created_dt] (rows without one are skipped by [read_row]), so
    the filter of line 260 keeps them all. *)
Definition process_pvs_try (pvs_id : string) (w : world)
    : result outcome * list (result db_row) :=
  let base_url := "https://example-pvs-" +:+ pvs_id +:+ ".local" in
  match login w with
  | Raise e => (Raise e, [])
  | Ok (Some out) => (Ok out, [])
  | Ok None =>
      let today_date := datetime.strftime_Ymd (today w) in
      match crawl base_url today_date 1 (listing w) [] with
      | [] => (Ok (Error "No shipments found for today"), [])
      | all_shipments =>
          match all_shipments with
          | [] => (Ok (Error "No valid shipment timestamps"), [])
          | valid_shipments =>
              let valid_shipments := sort_asc created_dt valid_shipments in
              match enrich (detail_pages w) (finished w) valid_shipments
                      ≫= grouping_engine with
              | Raise e => (Raise e, [])
              | Ok groups =>
                  let lines := ["📍 ПВЗ: " +:+ pvs_id +:+ nl] in
                  match report_loop pvs_id today_date w 1 groups lines [] with
                  | (Raise e, saved) => (Raise e, saved)
                  | (Ok lines, saved) => (Ok (Report (String.concat "" lines)), saved)
                  end
              end
          end
      end
  end.

(** [process_pvs]: the returned dictionary and the calls of
    [save_group_to_db] it made. *)
Definition process_pvs (pvs_id : string) (w : world)
    : outcome * list (result db_row) :=
  match process_pvs_try pvs_id w with
  | (Ok out, saved) => (out, saved)
  | (Raise e, saved) => (Error ("Critical error: " +:+ str_exn e), saved)
  end.

(** *** The main block (lines 363-381) *)

(** The body of [for future in as_completed(futures)]. *)
Definition collect (pvs : string) (future_result : result outcome) : string :=
  match future_result with
  | Ok (Error error) => "Ошибка " +:+ pvs +:+ ": " +:+ error
  | Ok (Report message) => message
  | Raise e => pvs +:+ ": Unhandled error — " +:+ str_exn e
  end.

(** [all_messages]: [sources] pairs every entry of [PVS_IDENTIFIERS] with
    what its run meets, [order] is the order in which the runs finish. *)
Definition main (sources : list (string * world)) (order : list nat) : list string :=
  let futures :=
    map (λ src : string * world, (src.1, Ok (process_pvs src.1 src.2).1)) sources in
  map (λ f : string * result outcome, collect f.1 f.2) (as_completed order futures).

End Collector.

(** ** The library functions on plain ASCII text

    An executable instance of the three library functions, used to run the
    program on concrete inputs: [strip] removes ASCII white space, [lower]
    maps A-Z to a-z, and [strptime] reads a zero-padded text of the exact
    shape [YYYY-MM-DD HH:MM:SS] that names a calendar day and a time of day,
    and raises [ValueError] on any other text. *)
Module ascii_lib.

Definition is_space (c : ascii) : bool :=
  let n := nat_of_ascii c in
  ((9 <=? n) && (n <=? 13))%nat || (n =? 32)%nat.

Fixpoint lstrip (s : string) : string :=
  match s with
  | String c rest => if is_space c then lstrip rest else s
  | EmptyString => EmptyString
  end.

Definition strip (s : string) : string :=
  String.rev (lstrip (String.rev (lstrip s))).

Definition lower_char (c : ascii) : ascii :=
  let n := nat_of_ascii c in
  if ((65 <=? n) && (n <=? 90))%nat then ascii_of_nat (n + 32) else c.

Fixpoint lower (s : string) : string :=
  match s with
  | String c rest => String (lower_char c) (lower rest)
  | EmptyString => EmptyString
  end.

Definition digit (c : ascii) : option Z :=
  let n := nat_of_ascii c in
  if ((48 <=? n) && (n <=? 57))%nat then Some (Z.of_nat (n - 48)) else None.

(** The number written by the next [n] characters, all digits, and the
    rest of the text. *)
Fixpoint number (n : nat) (acc : Z) (s : string) : option (Z * string) :=
  match n, s with
  | O, _ => Some (acc, s)
  | S n, String c rest => d ← digit c; number n (acc * 10 + d) rest
  | S _, EmptyString => None
  end.

Definition literal (c : ascii) (s : string) : option string :=
  match s with
  | String c' rest => if Ascii.eqb c c' then Some rest else None
  | EmptyString => None
  end.

Definition days_in_month (y m : Z) : Z :=
  if m =? 2 then (if datetime.is_leap y then 29 else 28)
  else if (m =? 4) || (m =? 6) || (m =? 9) || (m =? 11) then 30 else 31.

Definition read (s : string) : option datetime.t :=
  '(y, s) ← number 4 0 s; s ← literal "-" s;
  '(m, s) ← number 2 0 s; s ← literal "-" s;
  '(d, s) ← number 2 0 s; s ← literal " " s;
  '(hh, s) ← number 2 0 s; s ← literal ":" s;
  '(mi, s) ← number 2 0 s; s ← literal ":" s;
  '(ss, s) ← number 2 0 s;
  if bool_decide (s = EmptyString)
     && (1 <=? y) && (1 <=? m) && (m <=? 12) && (1 <=? d) && (d <=? days_in_month y m)
     && (hh <? 24) && (mi <? 60) && (ss <? 60)
  then Some (datetime.mk y m d hh mi ss 0)
  else None.

Definition strptime (s : string) : result datetime.t :=
  match read s with
  | Some t => Ok t
  | None =>
      Raise (ValueError ("time data '" +:+ s
               +:+ "' does not match format '%Y-%m-%d %H:%M:%S'"))
  end.

End ascii_lib.

(** ** Notions used to state the properties *)

(** The time from the creation of [p] to the creation of [s]. *)
Definition gap (s p : enriched) : timedelta.t :=
  timedelta.sub (created_dt s) (created_dt p).

(** Neighbours inside a run are at most one hour apart. *)
Definition tight (r : group) : Prop :=
  ∀ (i : nat) (p s : enriched),
    r !! i = Some p → r !! S i = Some s → gap s p ≤ timedelta.of_hours 1.

(** Between the last shipment of a run and the first of the next run more
    than one hour passes. *)
Definition separated (runs : list group) : Prop :=
  ∀ (j : nat) (r1 r2 : group) (p s : enriched),
    runs !! j = Some r1 → runs !! S j = Some r2 →
    last r1 = Some p → head r2 = Some s → timedelta.of_hours 1 < gap s p.

(** A group in ascending order of creation time. *)
Definition ascending (g : group) : Prop :=
  Sorted (λ a b : enriched, datetime.leb (created_dt a) (created_dt b) = true) g.

(** The scan of the day bucket written as a function of the previous
    shipment: what still joins the run of [p], and the runs after it. *)
Fixpoint split_runs (p : enriched) (rest : list enriched) : list enriched * list group :=
  match rest with
  | [] => ([], [])
  | s :: rest =>
      let '(r, rs) := split_runs s rest in
      if within_hour s p then (s :: r, rs) else ([], (s :: r) :: rs)
  end.

(** The shipment [s] with its creation time replaced by [t]. *)
Definition created_on (t : datetime.t) (s : enriched) : enriched :=
  {| base := {| id := id s;
                created_dt := t;
                created_at := created_at s;
                unload_started_at := unload_started_at s;
                closed_at := closed_at s;
                status := status s;
                detail_url := detail_url s |};
     sent := sent s; received := received s; excess := excess s |}.

(** The groups before the final ordering: the night group, if any, then the
    runs of the day bucket. *)
Definition night_groups (valid_shipments : list enriched) : list group :=
  match night_bucket valid_shipments with
  | [] => []
  | night => [sort_asc (λ x : enriched, created_dt x) night]
  end.

Definition day_runs (valid_shipments : list enriched) : list group :=
  match day_bucket valid_shipments with
  | [] => []
  | first :: rest => (first :: (split_runs first rest).1) :: (split_runs first rest).2
  end.

(** ** Sample shipments *)

Definition on_day (h m : Z) : datetime.t := datetime.mk 2024 3 15 h m 0 0.

(** A shipment of 15 March 2024 as the crawler would store it. *)
Definition listed (i : string) (h m : Z) (st started closed_text : string)
    (url : option string) : shipment :=
  {| id := i;
     created_dt := on_day h m;
     created_at := datetime.strftime_full (on_day h m);
     unload_started_at := started;
     closed_at := closed_text;
     status := st;
     detail_url := url |}.

(** The two night shipments of the scenario of the specification: closed,
    unloading started at 02:15 and closed at 03:00. *)
Definition night_1 : enriched :=
  update (listed "N1" 2 10 "closed" "2024-03-15 02:15:00" "2024-03-15 03:00:00" None)
         no_details.
Definition night_2 : enriched :=
  update (listed "N2" 2 50 "closed" "2024-03-15 02:15:00" "2024-03-15 03:00:00" None)
         no_details.

(** A pending and a closed shipment half an hour apart. *)
Definition mixed_pending : enriched :=
  update (listed "P1" 9 0 "pending" "-" "-" None) no_details.
Definition mixed_closed : enriched :=
  update (listed "C1" 9 30 "closed" "2024-03-15 09:35:00" "2024-03-15 10:00:00" None)
         no_details.

(** Two listed shipments that carry the same identifier; the detail page of
    the first one is read, the request for the second one fails. *)
Definition twin_read : shipment :=
  listed "X1" 9 0 "pending" "-" "-" (Some "https://example-pvs-site1.local/d/1").
Definition twin_failed : shipment :=
  listed "X1" 9 20 "pending" "-" "-" (Some "https://example-pvs-site1.local/d/2").

Definition twin_pages (i : nat) : detail_response :=
  match i with
  | O => Ok (200, Some {| d_sent := 5; d_received := 5; d_excess := 0 |})
  | _ => Ok (500, None)
  end.

(** A shipment that is being unloaded since 09:05. *)
Definition unloading : enriched :=
  update (listed "U1" 9 0 "in_progress" "2024-03-15 09:05:00" "-" None) no_details.

(** The derived attributes that do not involve the wall clock. *)
Definition clock_free (a : aggregate)
    : option datetime.t * group_status * option datetime.t * Z
      * string * string * Z * Z * Z * Z :=
  (earliest_start a, agg_status a, latest_close a, duration_seconds a,
   first_created a, last_created a,
   total_sent a, total_received a, total_excess a, count a).

(** Among several timestamps one that is [None]: [min] and [max] have to
    compare it. *)
Definition clash (times : list (option datetime.t)) : Prop :=
  (2 ≤ length times)%nat ∧ None ∈ times.

(** A listing of one page with one row: a shipment created at 09:00 whose
    unload-start cell is empty. *)
Definition lone_row : row :=
  {| cell_createdAt := Some "2024-03-15 09:00:00";
     cell_externalId_a := Some ("L1", Some "/shipments/view/1");
     cell_status := Some "Pending";
     cell_closedAt := None;
     cell_unloadStartedAt := Some "" |}.

(** A source where every request is answered: the login succeeds, the
    listing is one page with [rows], every detail page shows 3 sent and 3
    received, and the detail tasks finish in the order of their submission. *)
Definition quiet_world (rows : list row) : world :=
  {| login_page := Ok 200;
     redirect_input := None;
     login_response := λ _, Ok false;
     today := on_day 12 0;
     listing := [Ok (200, rows)];
     detail_pages :=
       λ _, Ok (200, Some {| d_sent := 3; d_received := 3; d_excess := 0 |});
     finished := seq 0 (length rows);
     clock := λ _, on_day 12 0;
     db_clock := λ _, on_day 12 0 |}.

(** The same row with the unload-start text of a second shipment that has
    started unloading. *)
Definition started_row : row :=
  {| cell_createdAt := Some "2024-03-15 09:10:00";
     cell_externalId_a := Some ("L2", Some "/shipments/view/2");
     cell_status := Some "Pending";
     cell_closedAt := None;
     cell_unloadStartedAt := Some "2024-03-15 09:30:00" |}.

(** The report of the night group of the scenario. *)
Definition night_report : aggregate :=
  {| earliest_start := Some (on_day 2 15);
     agg_status := closed;
     latest_close := Some (on_day 3 0);
     duration_seconds := 2700;
     duration_str := "0:45:00";
     first_created := "02:10";
     last_created := "02:50";
     total_sent := 0;
     total_received := 0;
     total_excess := 0;
     count := 2 |}.

(** A source whose login page cannot be reached. *)
Definition unreachable_world : world :=
  {| login_page := Raise (RequestException "Read timed out.");
     redirect_input := None;
     login_response := λ _, Ok false;
     today := on_day 12 0;
     listing := [];
     detail_pages := λ _, Raise (RequestException "Read timed out.");
     finished := [];
     clock := λ _, on_day 12 0;
     db_clock := λ _, on_day 12 0 |}.

(** A source that lists two shipments of one run; the unload-start cell of
    the first is empty, the second started unloading at 09:30. *)
Definition clash_world : world := quiet_world [lone_row; started_row].

Definition clash_shipments : list shipment :=
  crawl ascii_lib.strip ascii_lib.lower ascii_lib.strptime
    "https://example-pvs-site1.local" "2024-03-15" 1 (listing clash_world) [].

Definition clash_group : group :=
  [update (listed "L1" 9 0 "pending" "" "-"
             (Some "https://example-pvs-site1.local/shipments/view/1"))
          {| d_sent := 3; d_received := 3; d_excess := 0 |};
   update (listed "L2" 9 10 "pending" "2024-03-15 09:30:00" "-"
             (Some "https://example-pvs-site1.local/shipments/view/2"))
          {| d_sent := 3; d_received := 3; d_excess := 0 |}].

(** The groups come latest first: the last shipment of a group is created
    no earlier than the last shipment of the group after it. *)
Definition latest_first (groups : list group) : Prop :=
  Sorted (λ g1 g2 : group,
            ∃ a b : enriched,
              last g1 = Some a ∧ last g2 = Some b
              ∧ datetime.leb (created_dt b) (created_dt a) = true) groups.

(** The lines of a text, each ended by a line feed. *)
Definition unlines (lines : list string) : string :=
  String.concat "" (map (λ l, l +:+ nl) lines).

(** The rows of the scenario as the site lists them, newest first. *)
Definition scenario_row (i created st started closed_text : string) : row :=
  {| cell_createdAt := Some created;
     cell_externalId_a := Some (i, Some ("/shipments/view/" +:+ i));
     cell_status := Some st;
     cell_closedAt := Some closed_text;
     cell_unloadStartedAt := Some started |}.

Definition scenario_world : world :=
  quiet_world
    [scenario_row "5" "2024-03-15 11:00:00" "Pending" "-" "";
     scenario_row "4" "2024-03-15 09:40:00" "Pending" "-" "";
     scenario_row "3" "2024-03-15 09:00:00" "Pending" "-" "";
     scenario_row "2" "2024-03-15 02:50:00" "Closed"
       "2024-03-15 02:15:00" "2024-03-15 03:00:00";
     scenario_row "1" "2024-03-15 02:10:00" "Closed"
       "2024-03-15 02:15:00" "2024-03-15 03:00:00"].

(** ** Notions used for the further properties *)

(** The shipment the body of the row loop appends for a row, if any. *)
Definition appended (strip lower : string → string)
    (strptime : string → result datetime.t) (base_url today_date : string)
    (r : row) : option shipment :=
  match read_row strip lower strptime base_url today_date r with
  | Ok (Some s) => Some s
  | _ => None
  end.

(** The rows of all answered pages, in the order of the listing. *)
Definition listed_rows (responses : list (result (Z * list row))) : list row :=
  concat (omap (λ response : result (Z * list row),
                  match response with
                  | Ok (_, rows) => Some rows
                  | Raise _ => None
                  end) responses).

(** What holds of a shipment the crawler has stored. *)
Definition well_listed (strip lower : string → string)
    (strptime : string → result datetime.t) (base_url today_date : string)
    (s : shipment) : Prop :=
  String.prefix today_date (created_at s) = true
  ∧ parse_datetime strip strptime (created_at s) = Some (created_dt s)
  ∧ (∃ text, status s = lower text)
  ∧ (status s ≠ "closed" → closed_at s = "-")
  ∧ match detail_url s with
    | None => id s = "—"
    | Some url => ∃ href, url = base_url +:+ href
    end.

(** An answer after which the crawler asks for no further page: a failed
    request, a status other than 200, a page without rows, or a page of fewer
    than 20 rows. *)
Definition ends_listing (response : result (Z * list row)) : Prop :=
  match response with
  | Raise _ => True
  | Ok (status_code, rows) => status_code ≠ 200 ∨ (length rows < 20)%nat
  end.

(** A page whose rows can all be read: none of them makes the row loop
    raise. *)
Definition readable (strip lower : string → string)
    (strptime : string → result datetime.t) (base_url today_date : string)
    (rows : list row) : Prop :=
  Forall (λ r, ∃ o, read_row strip lower strptime base_url today_date r = Ok o) rows.


(** The counts an updated shipment carries. *)
Definition counts (e : enriched) : details :=
  {| d_sent := sent e; d_received := received e; d_excess := excess e |}.

(** Timestamps of which there are some and none has parsed. *)
Definition none_parsed (times : list (option datetime.t)) : Prop :=
  times ≠ [] ∧ Forall (λ t, t = None) times.

(** ** The configuration (lines 29-45) and [send_telegram_message]
    (lines 48-69) *)

(** [s.split(sep)] for a separator of one character. *)
Fixpoint split_on (sep : ascii) (s : string) : list string :=
  match s with
  | EmptyString => [EmptyString]
  | String c rest =>
      if Ascii.eqb c sep then EmptyString :: split_on sep rest
      else
        match split_on sep rest with
        | piece :: pieces => String c piece :: pieces
        | [] => [String c EmptyString]
        end
  end.

(** [os.getenv("TELEGRAM_CHAT_IDS", "").split(",")] and
    [os.getenv("PVS_LIST", "site1,site2,site3").split(",")]; [None] is an
    unset variable. *)
Definition getenv_list (default : string) (value : option string) : list string :=
  split_on ","%char (match value with Some v => v | None => default end).

(** The number of times a character occurs in a text. *)
Fixpoint occurrences (c : ascii) (s : string) : nat :=
  match s with
  | EmptyString => 0%nat
  | String c' rest => ((if Ascii.eqb c' c then 1 else 0) + occurrences c rest)%nat
  end.

(** The form data of one [requests.post]. *)
Record payload := {
  chat_id : string;
  text : string;
  disable_web_page_preview : bool
}.

(** The [for] loop of lines 58-69: the requests made and the lines printed.
    [post k] is what the k-th request meets: the status code of the answer,
    or the exception [requests.post] raises. *)
Fixpoint send_loop (strip : string → string) (post : nat → result Z)
    (message : string) (k : nat) (chat_ids : list string)
    : list payload * list string :=
  match chat_ids with
  | [] => ([], [])
  | id :: chat_ids =>
      let request :=
        {| chat_id := strip id; text := message; disable_web_page_preview := true |} in
      let printed :=
        match post k with
        | Ok status_code =>
            if negb (status_code =? 200)
            then ["Telegram error for " +:+ id +:+ ": " +:+ fmt_d status_code]
            else []
        | Raise e => ["Ошибка отправки в Телеграмм: " +:+ str_exn e]
        end in
      let '(requests, lines) := send_loop strip post message (S k) chat_ids in
      (request :: requests, printed ++ lines)
  end.

(** [not TELEGRAM_TOKEN or not TELEGRAM_CHAT_IDS[0]]: the second operand is
    evaluated only if the first is false. *)
Definition nothing_to_send (TELEGRAM_TOKEN : option string)
    (TELEGRAM_CHAT_IDS : list string) : result bool :=
  match TELEGRAM_TOKEN with
  | None | Some EmptyString => Ok true
  | Some _ =>
      match TELEGRAM_CHAT_IDS with
      | first :: _ => Ok (bool_decide (first = EmptyString))
      | [] => Raise (IndexError "list index out of range")
      end
  end.

Definition send_telegram_message (strip : string → string)
    (TELEGRAM_TOKEN : option string) (TELEGRAM_CHAT_IDS : list string)
    (post : nat → result Z) (message : string)
    : result (list payload * list string) :=
  skip ← nothing_to_send TELEGRAM_TOKEN TELEGRAM_CHAT_IDS;
  if skip : bool
  then Ok ([], ["Чат айди не найден, пропуск отсылки отчета"])
  else Ok (send_loop strip post message 0 TELEGRAM_CHAT_IDS).

(** Lines 380-381: [for msg in all_messages: send_telegram_message(msg)];
    [post i k] is what the k-th request for the i-th message meets. *)
Definition send_reports (strip : string → string)
    (TELEGRAM_TOKEN : option string) (TELEGRAM_CHAT_IDS : list string)
    (post : nat → nat → result Z) (all_messages : list string)
    : result (list (list payload * list string)) :=
  mapM (M := result) (λ im : nat * string,
    send_telegram_message strip TELEGRAM_TOKEN TELEGRAM_CHAT_IDS (post im.1) im.2)
    (imap (λ i msg, (i, msg)) all_messages).

(** A token that is unset or empty. *)
Definition no_token (TELEGRAM_TOKEN : option string) : Prop :=
  TELEGRAM_TOKEN = None ∨ TELEGRAM_TOKEN = Some EmptyString.

(** A list of chat ids that is unset, empty or opens with a comma. *)
Definition no_first_chat_id (value : option string) : Prop :=
  value = None ∨ value = Some EmptyString
  ∨ ∃ rest, value = Some (String ","%char rest).

(** ** Further sample values *)

(** The row stored for the night group of the scenario, by a run for the
    source [site1] whose store reads the clock at 12:00. *)
Definition night_row : db_row :=
  {| report_id := "GROUP_20240315_120000_site1_1";
     pvs_name := "site1";
     delivery_date := "2024-03-15";
     db_created_at := on_day 2 10;
     db_unload_started_at := Some (on_day 2 15);
     db_closed_at := Some (on_day 3 0);
     db_status := closed;
     db_sent := 0;
     db_received := 0;
     db_excess := 0;
     group_index := 1;
     boxes_count := 2;
     unload_duration_seconds := 2700 |}.

(** Detail pages that all answer with the status 500. *)
Definition broken_pages (i : nat) : detail_response := Ok (500, None).

(** A row of the day before. *)
Definition old_row : row :=
  {| cell_createdAt := Some "2024-03-14 18:00:00";
     cell_externalId_a := Some ("K9", Some "/shipments/view/9");
     cell_status := Some "Closed";
     cell_closedAt := Some "2024-03-14 19:00:00";
     cell_unloadStartedAt := Some "2024-03-14 18:30:00" |}.

(** ** A run against a site that answers every request

    The [while True] of lines 201-255 has no bound on the page number: it
    ends only at one of its [break]s.  Here the site is a function that
    answers the request for every page, and the loop is run for at most
    [fuel] requests; [None] says that it has not ended by then.  The rest of
    the program is as before. *)

Fixpoint crawl_loop (strip lower : string → string)
    (strptime : string → result datetime.t) (base_url today_date : string)
    (fuel : nat) (site : Z → result (Z * list row)) (page : Z)
    (all_shipments : list shipment) : option (list shipment) :=
  match fuel with
  | O => None
  | S fuel =>
      match site page with
      | Raise _ => Some all_shipments
      | Ok (status_code, rows) =>
          if negb (status_code =? 200) then Some all_shipments
          else if match rows with [] => true | _ => false end then Some all_shipments
          else
            let '(all_shipments, new_rows_found, raised) :=
              read_rows strip lower strptime base_url today_date rows
                all_shipments false in
            if raised : bool then Some all_shipments
            else if negb new_rows_found && (1 <? page) then Some all_shipments
            else if (Z.of_nat (length rows) <? 20) then Some all_shipments
            else crawl_loop strip lower strptime base_url today_date fuel site
                   (page + 1) all_shipments
      end
  end.

(** The page numbers [page], [page + 1], ... of [n] requests. *)
Fixpoint pages_from (page : Z) (n : nat) : list Z :=
  match n with
  | O => []
  | S n => page :: pages_from (page + 1) n
  end.

(** Lines 257-357: the body of the [try] after the crawl. *)
Definition after_crawl (strip lower : string → string)
    (strptime : string → result datetime.t) (pvs_id today_date : string)
    (w : world) (all_shipments : list shipment)
    : result outcome * list (result db_row) :=
  match all_shipments with
  | [] => (Ok (Error "No shipments found for today"), [])
  | all_shipments =>
      match all_shipments with
      | [] => (Ok (Error "No valid shipment timestamps"), [])
      | valid_shipments =>
          let valid_shipments := sort_asc created_dt valid_shipments in
          match enrich (detail_pages w) (finished w) valid_shipments
                  ≫= grouping_engine with
          | Raise e => (Raise e, [])
          | Ok groups =>
              let lines := ["📍 ПВЗ: " +:+ pvs_id +:+ nl] in
              match report_loop strip lower strptime pvs_id today_date w 1
                      groups lines [] with
              | (Raise e, saved) => (Raise e, saved)
              | (Ok lines, saved) => (Ok (Report (String.concat "" lines)), saved)
              end
          end
      end
  end.

(** [process_pvs] against such a site: the dictionary it returns and the
    calls of [save_group_to_db] it made, if the crawl ends within [fuel]
    requests.  The field [listing] of [w] is not used. *)
Definition process_pvs_loop (strip lower : string → string)
    (strptime : string → result datetime.t) (fuel : nat) (pvs_id : string)
    (w : world) (site : Z → result (Z * list row))
    : option (outcome * list (result db_row)) :=
  let base_url := "https://example-pvs-" +:+ pvs_id +:+ ".local" in
  match login w with
  | Raise e => Some (Error ("Critical error: " +:+ str_exn e), [])
  | Ok (Some out) => Some (out, [])
  | Ok None =>
      let today_date := datetime.strftime_Ymd (today w) in
      match crawl_loop strip lower strptime base_url today_date fuel site 1 [] with
      | None => None
      | Some all_shipments =>
          match after_crawl strip lower strptime pvs_id today_date w all_shipments
          with
          | (Ok out, saved) => Some (out, saved)
          | (Raise e, saved) =>
              Some (Error ("Critical error: " +:+ str_exn e), saved)
          end
      end
  end.

(** One entry of [PVS_IDENTIFIERS] with what its run meets. *)
Record source := {
  pvs : string;
  met : world;
  site : Z → result (Z * list row)
}.

(** The main block up to the end of the [with] statement, which waits for
    every submitted run: [all_messages], if every run ends within [fuel]
    requests.  While a run has not ended the block is not left, and line 380
    is not reached. *)
Definition main_loop (strip lower : string → string)
    (strptime : string → result datetime.t) (fuel : nat)
    (sources : list source) (order : list nat) : option (list string) :=
  futures ← mapM (λ src : source,
               run ← process_pvs_loop strip lower strptime fuel
                       (pvs src) (met src) (site src);
               Some (pvs src, Ok run.1)) sources;
  Some (map (λ f : string * result outcome, collect f.1 f.2)
            (as_completed order futures)).

(** An answer at which the crawl loop ends: the request fails, the status
    is not 200, the page has fewer than 20 rows (or none), a row makes the
    row loop raise, or the page is not the first and none of its rows is a
    shipment of today. *)
Definition stops_crawl (strip lower : string → string)
    (strptime : string → result datetime.t) (base_url today_date : string)
    (page : Z) (response : result (Z * list row)) : Prop :=
  match response with
  | Raise _ => True
  | Ok (status_code, rows) =>
      status_code ≠ 200
      ∨ (length rows < 20)%nat
      ∨ ¬ readable strip lower strptime base_url today_date rows
      ∨ (1 < page
         ∧ omap (appended strip lower strptime base_url today_date) rows = [])
  end.

(** The listing of a site ends within its first [n] pages. *)
Definition listing_ends (strip lower : string → string)
    (strptime : string → result datetime.t) (base_url today_date : string)
    (n : nat) (site : Z → result (Z * list row)) : Prop :=
  ∃ p : nat,
    (p < n)%nat
    ∧ stops_crawl strip lower strptime base_url today_date
        (1 + Z.of_nat p) (site (1 + Z.of_nat p)).

(** The run of a source ends within [n] page requests: the login does not
    go through, or the listing ends within its first [n] pages. *)
Definition run_ends (strip lower : string → string)
    (strptime : string → result datetime.t) (n : nat) (src : source) : Prop :=
  login (met src) = Ok None →
  listing_ends strip lower strptime
    ("https://example-pvs-" +:+ pvs src +:+ ".local")
    (datetime.strftime_Ymd (today (met src))) n (site src).

(** The text [main] collects for an outcome. *)
Definition message_of (pvs_id : string) (out : outcome) : string :=
  match out with
  | Report message => message
  | Error error => "Ошибка " +:+ pvs_id +:+ ": " +:+ error
  end.

(** A world with another listing. *)
Definition with_listing (w : world) (responses : list (result (Z * list row)))
    : world :=
  {| login_page := login_page w;
     redirect_input := redirect_input w;
     login_response := login_response w;
     today := today w;
     listing := responses;
     detail_pages := detail_pages w;
     finished := finished w;
     clock := clock w;
     db_clock := db_clock w |}.

(** A site that answers the request for every page with the same twenty
    rows of today, as one that ignores the page number does. *)
Definition endless_site (page : Z) : result (Z * list row) :=
  Ok (200, replicate 20 lone_row).

Definition endless_source : source :=
  {| pvs := "site1"; met := quiet_world []; site := endless_site |}.

Definition unreachable_source : source :=
  {| pvs := "site2"; met := unreachable_world; site := λ _, Ok (200, []) |}.

(** A site with one page of one row. *)
Definition short_source : source :=
  {| pvs := "site1";
     met := quiet_world [lone_row];
     site := λ _, Ok (200, [lone_row]) |}.

(** ** [save_group_to_db] with the database (lines 106-127)

    [database row] is what [connect], [cursor], [execute] and [commit] meet
    for the row: they go through, and the row is in the table, or one of
    them raises.  The [except] of line 123 catches every exception of the
    body and prints it, so the function returns in every case; the result
    here is the row it has put into the table, if any. *)
Definition save_group_to_db_commit (strip lower : string → string)
    (strptime : string → result datetime.t) (database : db_row → result unit)
    (now : datetime.t) (pvs_name : string) (g : group) (group_index : Z)
    (today_date : string) (count : Z) (unload_duration_seconds : Z)
    : option db_row :=
  match save_group_to_db strip lower strptime now pvs_name g group_index today_date
          count unload_duration_seconds with
  | Raise _ => None
  | Ok row =>
      match database row with
      | Ok _ => Some row
      | Raise _ => None
      end
  end.

(** A group for which [save_group_to_db] raises before it reaches the
    database: it has no members, or unload-start texts other than the
    placeholder of which none parses, or all its members are closed and it
    has close texts other than the placeholder of which none parses. *)
Definition not_storable (strip lower : string → string)
    (strptime : string → result datetime.t) (g : group) : Prop :=
  g = []
  ∨ none_parsed (db_start_times strip strptime g)
  ∨ (Forall (λ s : enriched, lower (status s) = "closed") g
     ∧ none_parsed (db_close_times strip strptime g)).
(** * Properties *)

(** ** Sorting *)

Lemma lex_antisym xs ys : datetime.lex ys xs = CompOpp (datetime.lex xs ys).
Proof.
  revert ys. induction xs as [|x xs IH]; intros [|y ys]; simpl; try done.
  rewrite (Z.compare_antisym x y).
  destruct (x ?= y); simpl; auto.
Qed.

Lemma leb_total a b : datetime.leb a b = false → datetime.leb b a = true.
Proof.
  unfold datetime.leb, datetime.cmp.
  rewrite (lex_antisym (datetime.fields a) (datetime.fields b)).
  by destruct (datetime.lex _ _).
Qed.

Lemma lex_refl xs : datetime.lex xs xs = Eq.
Proof. induction xs as [|x xs IH]; simpl; [done|]. by rewrite Z.compare_refl. Qed.

Lemma lex_le_trans xs : ∀ ys zs,
  datetime.lex xs ys ≠ Gt → datetime.lex ys zs ≠ Gt → datetime.lex xs zs ≠ Gt.
Proof.
  induction xs as [|x xs IH]; intros [|y ys] [|z zs]; simpl; try done.
  destruct (x ?= y) eqn:Hxy; [|clear IH|done];
    (destruct (y ?= z) eqn:Hyz; [| |done]).
  - apply Z.compare_eq_iff in Hxy as ->. rewrite Hyz. apply IH.
  - apply Z.compare_eq_iff in Hxy as ->. by rewrite Hyz.
  - apply Z.compare_eq_iff in Hyz as <-. by rewrite Hxy.
  - by rewrite (Zcompare_Lt_trans _ _ _ Hxy Hyz).
Qed.

Lemma leb_refl a : datetime.leb a a = true.
Proof. unfold datetime.leb, datetime.cmp. by rewrite lex_refl. Qed.

Lemma leb_trans a b c :
  datetime.leb a b = true → datetime.leb b c = true → datetime.leb a c = true.
Proof.
  unfold datetime.leb, datetime.cmp. intros Hab Hbc.
  pose proof (lex_le_trans (datetime.fields a) (datetime.fields b) (datetime.fields c))
    as Htrans.
  destruct (datetime.lex (datetime.fields a) (datetime.fields b)),
           (datetime.lex (datetime.fields b) (datetime.fields c)),
           (datetime.lex (datetime.fields a) (datetime.fields c));
    try done; by destruct Htrans.
Qed.

Lemma ltb_leb a b : datetime.ltb a b = true → datetime.leb a b = true.
Proof. unfold datetime.ltb, datetime.leb. by destruct (datetime.cmp a b). Qed.

Lemma ltb_false_leb a b : datetime.ltb a b = false → datetime.leb b a = true.
Proof.
  unfold datetime.ltb, datetime.leb, datetime.cmp.
  rewrite (lex_antisym (datetime.fields a) (datetime.fields b)).
  by destruct (datetime.lex _ _).
Qed.

Lemma gtb_leb a b : datetime.gtb a b = true → datetime.leb b a = true.
Proof.
  unfold datetime.gtb, datetime.leb, datetime.cmp.
  rewrite (lex_antisym (datetime.fields a) (datetime.fields b)).
  by destruct (datetime.lex _ _).
Qed.

Lemma gtb_false_leb a b : datetime.gtb a b = false → datetime.leb a b = true.
Proof. unfold datetime.gtb, datetime.leb. by destruct (datetime.cmp a b). Qed.

Section SortByFacts.
Context {A : Type} (key : A → datetime.t).

Lemma insert_asc_perm x l : insert_asc key x l ≡ₚ x :: l.
Proof.
  induction l as [|y l IH]; simpl; [done|].
  destruct (datetime.leb _ _); [done|].
  rewrite IH. apply Permutation_swap.
Qed.

Lemma sort_asc_perm l : sort_asc key l ≡ₚ l.
Proof.
  induction l as [|x l IH]; simpl; [done|].
  by rewrite insert_asc_perm, IH.
Qed.

Lemma insert_desc_perm x l : insert_desc key x l ≡ₚ x :: l.
Proof.
  induction l as [|y l IH]; simpl; [done|].
  destruct (datetime.leb _ _); [done|].
  rewrite IH. apply Permutation_swap.
Qed.

Lemma sort_desc_perm l : sort_desc key l ≡ₚ l.
Proof.
  induction l as [|x l IH]; simpl; [done|].
  by rewrite insert_desc_perm, IH.
Qed.

Let le_key (a b : A) : Prop := datetime.leb (key a) (key b) = true.

Lemma insert_asc_hd x y l :
  le_key y x → HdRel le_key y l → HdRel le_key y (insert_asc key x l).
Proof.
  intros Hyx Hhd. destruct l as [|z l]; simpl; [by constructor|].
  destruct (datetime.leb (key x) (key z)); constructor; [done|].
  by inversion Hhd.
Qed.

Lemma insert_asc_sorted x l :
  Sorted le_key l → Sorted le_key (insert_asc key x l).
Proof.
  induction 1 as [|y l Hl IH Hhd]; simpl; [by repeat constructor|].
  destruct (datetime.leb (key x) (key y)) eqn:Hxy.
  - constructor; [by constructor|by constructor].
  - constructor; [done|]. apply insert_asc_hd; [|done].
    by apply leb_total.
Qed.

Lemma sort_asc_sorted l : Sorted le_key (sort_asc key l).
Proof.
  induction l as [|x l IH]; simpl; [constructor|].
  by apply insert_asc_sorted.
Qed.

Let ge_key (a b : A) : Prop := datetime.leb (key b) (key a) = true.

Lemma insert_desc_hd x y l :
  ge_key y x → HdRel ge_key y l → HdRel ge_key y (insert_desc key x l).
Proof.
  intros Hyx Hhd. destruct l as [|z l]; simpl; [by constructor|].
  destruct (datetime.leb (key z) (key x)); constructor; [done|].
  by inversion Hhd.
Qed.

Lemma insert_desc_sorted x l :
  Sorted ge_key l → Sorted ge_key (insert_desc key x l).
Proof.
  induction 1 as [|y l Hl IH Hhd]; simpl; [by repeat constructor|].
  destruct (datetime.leb (key y) (key x)) eqn:Hxy.
  - constructor; [by constructor|by constructor].
  - constructor; [done|]. apply insert_desc_hd; [|done].
    by apply leb_total.
Qed.

Lemma sort_desc_sorted l : Sorted ge_key (sort_desc key l).
Proof.
  induction l as [|x l IH]; simpl; [constructor|].
  by apply insert_desc_sorted.
Qed.
End SortByFacts.

(** ** The grouping engine *)

Lemma within_hour_gap s p : within_hour s p = true ↔ gap s p ≤ timedelta.of_hours 1.
Proof. unfold within_hour, gap. apply Z.leb_le. Qed.

Lemma within_hour_gap_false s p :
  within_hour s p = false ↔ timedelta.of_hours 1 < gap s p.
Proof. unfold within_hour, gap. apply Z.leb_gt. Qed.

(** The scan is the function [split_runs] of the last shipment of the
    current run. *)
Lemma day_scan_split rest : ∀ groups current p,
  last current = Some p →
  day_scan groups current rest
  = Ok (groups ++ (current ++ (split_runs p rest).1) :: (split_runs p rest).2).
Proof.
  induction rest as [|s rest IH]; intros groups current p Hlast; simpl.
  - rewrite app_nil_r. by destruct current.
  - rewrite Hlast. destruct (split_runs s rest) as [r rs] eqn:Hsplit.
    destruct (within_hour s p); simpl.
    + rewrite (IH _ _ s) by apply last_snoc.
      rewrite Hsplit; simpl. by rewrite <- app_assoc.
    + rewrite (IH _ _ s) by done.
      rewrite Hsplit; simpl. by rewrite <- app_assoc, app_nil_r.
Qed.

Lemma split_runs_concat p rest :
  (split_runs p rest).1 ++ concat (split_runs p rest).2 = rest.
Proof.
  revert p. induction rest as [|s rest IH]; intros p; simpl; [done|].
  specialize (IH s). destruct (split_runs s rest) as [r rs].
  destruct (within_hour s p); simpl in *; by rewrite IH.
Qed.

Lemma split_runs_nonempty p rest :
  Forall (λ g : group, g ≠ []) (split_runs p rest).2.
Proof.
  revert p. induction rest as [|s rest IH]; intros p; simpl; [constructor|].
  specialize (IH s). destruct (split_runs s rest) as [r rs].
  destruct (within_hour s p); simpl in *; [done|]. by constructor.
Qed.

Lemma tight_singleton p : tight [p].
Proof. intros i a b _ Hb. by destruct i. Qed.

Lemma tight_cons p s r :
  gap s p ≤ timedelta.of_hours 1 → tight (s :: r) → tight (p :: s :: r).
Proof.
  intros Hgap Ht [|i] a b Ha Hb; simpl in *.
  - by simplify_eq.
  - by apply (Ht i).
Qed.

Lemma split_runs_tight p rest :
  tight (p :: (split_runs p rest).1) ∧ Forall tight (split_runs p rest).2.
Proof.
  revert p. induction rest as [|s rest IH]; intros p; simpl.
  - split; [apply tight_singleton|constructor].
  - destruct (IH s) as [Hs Hrs]. destruct (split_runs s rest) as [r rs].
    destruct (within_hour s p) eqn:Hw; simpl in *.
    + split; [|done]. apply tight_cons; [|done]. by apply within_hour_gap.
    + split; [apply tight_singleton|]. by constructor.
Qed.

Lemma split_runs_separated p rest :
  separated ((p :: (split_runs p rest).1) :: (split_runs p rest).2).
Proof.
  revert p. induction rest as [|s rest IH]; intros p; simpl.
  - intros j r1 r2 a b _ Hr2. by destruct j.
  - specialize (IH s). destruct (split_runs s rest) as [r rs].
    destruct (within_hour s p) eqn:Hw; simpl in *.
    + intros [|j] r1 r2 a b Hr1 Hr2 Ha Hb; simpl in *.
      * simplify_eq. apply (IH 0%nat (s :: r) r2); done.
      * by apply (IH (S j) r1 r2).
    + intros [|j] r1 r2 a b Hr1 Hr2 Ha Hb; simpl in *.
      * simplify_eq. simpl in *. simplify_eq. by apply within_hour_gap_false.
      * by apply (IH j r1 r2).
Qed.

Lemma night_day_partition (valid_shipments : list enriched) :
  night_bucket valid_shipments ++ day_bucket valid_shipments ≡ₚ valid_shipments.
Proof.
  unfold night_bucket, day_bucket.
  rewrite <- (filter_app_complement
    (λ s : enriched, datetime.hour (created_dt s) < 8) valid_shipments) at 3.
  f_equiv. apply reflexive_eq, list_filter_iff. intros s. lia.
Qed.

Lemma form_groups_eq valid_shipments :
  form_groups valid_shipments
  = Ok (night_groups valid_shipments ++ day_runs valid_shipments).
Proof.
  unfold form_groups, night_groups, day_runs.
  destruct (day_bucket valid_shipments) as [|first rest].
  - rewrite app_nil_r. by destruct (night_bucket valid_shipments).
  - rewrite (day_scan_split rest _ [first] first) by done.
    by destruct (night_bucket valid_shipments).
Qed.

Lemma day_runs_concat valid_shipments :
  concat (day_runs valid_shipments) = day_bucket valid_shipments.
Proof.
  unfold day_runs. destruct (day_bucket valid_shipments) as [|first rest]; [done|].
  simpl. by rewrite split_runs_concat.
Qed.

Lemma day_runs_nonempty valid_shipments :
  Forall (λ g : group, g ≠ []) (day_runs valid_shipments).
Proof.
  unfold day_runs. destruct (day_bucket valid_shipments) as [|first rest];
    [constructor|].
  constructor; [done|apply split_runs_nonempty].
Qed.

Lemma night_groups_concat valid_shipments :
  concat (night_groups valid_shipments) ≡ₚ night_bucket valid_shipments.
Proof.
  unfold night_groups. destruct (night_bucket valid_shipments) as [|s night]; [done|].
  cbn [concat]. rewrite app_nil_r. apply sort_asc_perm.
Qed.

Lemma night_groups_nonempty valid_shipments :
  Forall (λ g : group, g ≠ []) (night_groups valid_shipments).
Proof.
  unfold night_groups. destruct (night_bucket valid_shipments) as [|s night] eqn:E;
    [constructor|].
  constructor; [|constructor]. intros Hnil.
  pose proof (sort_asc_perm (λ x : enriched, created_dt x) (s :: night)) as Hp.
  rewrite Hnil in Hp. by apply Permutation_nil_cons in Hp.
Qed.

(** Groups that all have a last shipment get their keys, and sorting the
    keyed groups only reorders them. *)
Lemma sort_groups_perm (groups : list group) :
  Forall (λ g : group, g ≠ []) groups →
  ∃ sorted, sort_groups groups = Ok sorted ∧ sorted ≡ₚ groups.
Proof.
  intros Hne. unfold sort_groups.
  assert (∃ keyed,
    mapM (M := result) (λ g : group,
      match last g with
      | Some s => Ok (created_dt s, g)
      | None => Raise (IndexError "list index out of range")
      end) groups = Ok keyed ∧ keyed.*2 = groups) as (keyed & -> & Hkeyed).
  { induction Hne as [|g groups Hg _ (keyed & IH & Hkeyed)];
      [exists []; split; reflexivity|].
    destruct (last g) as [s|] eqn:Hlast.
    - exists ((created_dt s, g) :: keyed). cbn. rewrite Hlast. cbn.
      rewrite IH. cbn. by rewrite Hkeyed.
    - by apply last_None in Hlast. }
  eexists; split; [done|].
  rewrite <- Hkeyed. apply fmap_Permutation, sort_desc_perm.
Qed.

(** C1.  The groups formed before the final ordering are the night group (if
    the night bucket is not empty) followed by the runs of the day bucket.
    The runs, put end to end, are the day bucket in its order; inside a run a
    shipment is at most one hour after its predecessor, and the first
    shipment of a run is more than one hour after the last shipment of the
    run before it: a new run starts exactly at the gaps strictly above one
    hour.  A non-empty night bucket yields exactly one group, which holds
    the night shipments in ascending order of creation time. *)
Theorem day_scan_splits_exactly_over_one_hour (valid_shipments : list enriched) :
  ∃ (night runs : list group),
    form_groups valid_shipments = Ok (night ++ runs)
    ∧ concat runs = day_bucket valid_shipments
    ∧ Forall (λ r : group, r ≠ []) runs
    ∧ Forall tight runs
    ∧ separated runs
    ∧ match night_bucket valid_shipments with
      | [] => night = []
      | _ :: _ =>
          ∃ g, night = [g] ∧ g ≡ₚ night_bucket valid_shipments ∧ ascending g
      end.
Proof.
  exists (night_groups valid_shipments), (day_runs valid_shipments).
  split; [apply form_groups_eq|].
  split; [apply day_runs_concat|].
  split; [apply day_runs_nonempty|].
  repeat split.
  - unfold day_runs. destruct (day_bucket valid_shipments) as [|first rest];
      [constructor|].
    destruct (split_runs_tight first rest). by constructor.
  - unfold day_runs. destruct (day_bucket valid_shipments) as [|first rest].
    + intros j r1 r2 p s Hr1. by destruct j.
    + apply split_runs_separated.
  - unfold night_groups. destruct (night_bucket valid_shipments) as [|s night]; [done|].
    eexists; split; [done|]. split; [apply sort_asc_perm|].
    apply (sort_asc_sorted (λ x : enriched, created_dt x)).
Qed.

(** A gap of exactly one hour stays in the run; one microsecond more starts
    a new run. *)
Example one_hour_gap_joins (a b : enriched) :
  let a := created_on (datetime.mk 2024 3 15 9 0 0 0) a in
  let b := created_on (datetime.mk 2024 3 15 10 0 0 0) b in
  form_groups [a; b] = Ok [[a; b]].
Proof. vm_compute. reflexivity. Qed.

Example over_one_hour_gap_splits (a b : enriched) :
  let a := created_on (datetime.mk 2024 3 15 9 0 0 0) a in
  let b := created_on (datetime.mk 2024 3 15 10 0 0 1) b in
  form_groups [a; b] = Ok [[a]; [b]].
Proof. vm_compute. reflexivity. Qed.

Lemma Sorted_with_Forall {A} (R : relation A) (P : A → Prop) l :
  Sorted R l → Forall P l → Sorted (λ x y, R x y ∧ P x ∧ P y) l.
Proof.
  induction 1 as [|x l Hl IH Hhd]; intros Hall; [constructor|].
  apply Forall_cons in Hall as [Hx Hall].
  constructor; [by apply IH|].
  destruct Hhd as [|y l Hxy]; constructor.
  apply Forall_cons in Hall as [Hy _]. done.
Qed.

(** The final ordering puts the groups latest first. *)
Lemma sort_groups_latest_first (groups sorted : list group) :
  sort_groups groups = Ok sorted → latest_first sorted.
Proof.
  unfold sort_groups. intros Hsort.
  destruct (mapM _ groups) as [keyed|] eqn:Hkeyed; [|done].
  cbn in Hsort. injection Hsort as <-.
  assert (Forall (λ kg : datetime.t * group,
            ∃ s : enriched, last kg.2 = Some s ∧ kg.1 = created_dt s) keyed) as Hkeys.
  { clear -Hkeyed. revert keyed Hkeyed.
    induction groups as [|g groups IH]; intros keyed Hkeyed.
    - injection Hkeyed as <-. constructor.
    - cbn in Hkeyed. destruct (last g) as [s|] eqn:Hlast; [|done]. cbn in Hkeyed.
      destruct (mapM _ groups) as [rest|]; [|done]. cbn in Hkeyed.
      injection Hkeyed as <-. constructor; [by exists s|by apply IH]. }
  rewrite <- (sort_desc_perm fst keyed) in Hkeys.
  pose proof (Sorted_with_Forall _ _ _ (sort_desc_sorted fst keyed) Hkeys) as Hsorted.
  eapply Sorted_fmap; [|exact Hsorted].
  intros [k1 g1] [k2 g2] (Hle & (a & Ha & Hk1) & (b & Hb & Hk2)).
  cbn in *. subst k1 k2. by exists a, b.
Qed.

Lemma grouping_engine_latest_first (valid_shipments : list enriched) groups :
  grouping_engine valid_shipments = Ok groups → latest_first groups.
Proof.
  unfold grouping_engine. rewrite form_groups_eq. cbn.
  apply sort_groups_latest_first.
Qed.

Lemma grouping_engine_perm (valid_shipments : list enriched) :
  ∃ groups,
    grouping_engine valid_shipments = Ok groups
    ∧ Forall (λ g : group, g ≠ []) groups
    ∧ concat groups ≡ₚ valid_shipments.
Proof.
  unfold grouping_engine. rewrite form_groups_eq. cbn.
  assert (Forall (λ g : group, g ≠ [])
            (night_groups valid_shipments ++ day_runs valid_shipments)) as Hne.
  { apply Forall_app. split; [apply night_groups_nonempty|apply day_runs_nonempty]. }
  destruct (sort_groups_perm _ Hne) as (sorted & -> & Hperm).
  exists sorted. split; [done|]. split; [by rewrite Hperm|].
  rewrite Hperm, concat_app, night_groups_concat, day_runs_concat.
  apply night_day_partition.
Qed.

(** C2.  The grouping engine returns on every list of shipments; none of its
    groups is empty, and the groups put end to end are a rearrangement of the
    input: every shipment of the input is a member of exactly one group,
    exactly once.  In particular, when the shipments of the input are
    pairwise different, no shipment occurs in two groups or twice in one. *)
Theorem grouping_engine_partitions_input (valid_shipments : list enriched) :
  ∃ groups,
    grouping_engine valid_shipments = Ok groups
    ∧ Forall (λ g : group, g ≠ []) groups
    ∧ concat groups ≡ₚ valid_shipments
    ∧ (NoDup valid_shipments → NoDup (concat groups)).
Proof.
  destruct (grouping_engine_perm valid_shipments) as (groups & Hok & Hne & Hall).
  exists groups. repeat split; try done. intros Hnd. by rewrite Hall.
Qed.

(** ** The status of a group *)

Lemma all_equal_Forall (literal : string) (statuses : list string) :
  forallb (λ s, bool_decide (s = literal)) statuses = true
  ↔ Forall (λ s, s = literal) statuses.
Proof.
  rewrite <- Is_true_true, forallb_True.
  apply Forall_proper; [|done]. intros s. apply bool_decide_spec.
Qed.

Lemma any_in_progress_elem_of (statuses : list string) :
  existsb (λ s, bool_decide (s = "in_progress")) statuses
  = bool_decide ("in_progress" ∈ statuses).
Proof.
  induction statuses as [|s statuses IH]; simpl; [done|].
  rewrite IH. apply eq_true_iff_eq.
  rewrite orb_true_iff, !bool_decide_eq_true, elem_of_cons.
  split; (intros [->|?]; [by left|by right]).
Qed.

(** The store derives its status by the same three-way choice as the
    report. *)
Lemma db_group_status_eq (g : group) :
  db_group_status (map (λ s : enriched, status s) g) = report_group_status g.
Proof.
  unfold db_group_status, report_group_status.
  by rewrite any_in_progress_elem_of.
Qed.

Lemma report_group_status_in_progress (g : group) :
  Exists (λ s : enriched, status s = "in_progress") g →
  report_group_status g = in_progress.
Proof.
  intros Hex. unfold report_group_status.
  rewrite bool_decide_true; [done|].
  apply Exists_exists in Hex as (s & Hs & Hst).
  apply list_elem_of_fmap. by exists s.
Qed.

Lemma report_group_status_not_in_progress (g : group) :
  ¬ Exists (λ s : enriched, status s = "in_progress") g →
  report_group_status g
  = if forallb (λ s, bool_decide (s = "pending")) (map (λ s : enriched, status s) g)
    then pending else closed.
Proof.
  intros Hno. unfold report_group_status.
  rewrite bool_decide_false; [done|].
  intros (s & Hst & Hs)%list_elem_of_fmap.
  apply Hno, Exists_exists. by exists s.
Qed.

Lemma report_group_status_perm (g g' : group) :
  map (λ s : enriched, status s) g' ≡ₚ map (λ s : enriched, status s) g →
  report_group_status g' = report_group_status g.
Proof.
  intros Hperm. unfold report_group_status.
  rewrite (bool_decide_ext _ ("in_progress" ∈ map (λ s : enriched, status s) g))
    by (by rewrite Hperm).
  destruct (bool_decide _); [done|].
  assert (forallb (λ s, bool_decide (s = "pending")) (map (λ s : enriched, status s) g')
          = forallb (λ s, bool_decide (s = "pending")) (map (λ s : enriched, status s) g))
    as ->; [|done].
  apply eq_true_iff_eq. rewrite !all_equal_Forall. by rewrite Hperm.
Qed.

Section StatusOfCrawledShipments.
Variables (strip lower : string → string) (strptime : string → result datetime.t).
Hypothesis lower_idempotent : ∀ s, lower (lower s) = lower s.

(** The crawler stores the status in lower case, so lowering it again in
    [save_group_to_db] changes nothing. *)
Lemma read_row_status_lowered base_url today_date r s :
  read_row strip lower strptime base_url today_date r = Ok (Some s) →
  lower (status s) = status s.
Proof.
  unfold read_row. intros Hrow.
  destruct (cell_createdAt r) as [created_text|]; [|done].
  destruct (negb _); [done|].
  destruct (cell_externalId_a r) as [[text [href|]]|]; try done;
    (destruct (cell_status r) as [st|]; [|done]);
    (destruct (cell_unloadStartedAt r) as [us|]; [|done]);
    cbn in Hrow;
    (destruct (parse_datetime _ _ _) as [dt|]; [|done]);
    injection Hrow as <-; simpl; apply lower_idempotent.
Qed.
End StatusOfCrawledShipments.

(** ** The report of one group and the stored row *)

Section GroupReport.
Variables (strip lower : string → string) (strptime : string → result datetime.t).

(** What a successful [aggregate_group] has computed. *)
Lemma aggregate_group_Ok now (g : group) a :
  aggregate_group strip strptime now g = Ok a →
  ∃ es lc first last,
    min_or_None (report_start_times strip strptime g) = Ok es
    ∧ report_latest_close strip strptime g (report_group_status g) = Ok lc
    ∧ min_dt (map (λ s : enriched, created_dt s) g) = Ok first
    ∧ max_dt (map (λ s : enriched, created_dt s) g) = Ok last
    ∧ a = {| earliest_start := es;
             agg_status := report_group_status g;
             latest_close := lc;
             duration_seconds :=
               (report_duration now (report_group_status g) es lc).1;
             duration_str :=
               (report_duration now (report_group_status g) es lc).2;
             first_created := datetime.strftime_HM first;
             last_created := datetime.strftime_HM last;
             total_sent := sum (map sent g);
             total_received := sum (map received g);
             total_excess := sum (map excess g);
             count := Z.of_nat (length g) |}.
Proof.
  unfold aggregate_group. intros Hagg.
  destruct (min_or_None (report_start_times _ _ g)) as [es|]; [|done].
  cbn in Hagg.
  destruct (report_latest_close _ _ g _) as [lc|]; [|done].
  cbn in Hagg.
  destruct (report_duration now _ es lc) as [secs text] eqn:Hdur.
  destruct (min_dt _) as [first|]; [|done]. cbn in Hagg.
  destruct (max_dt _) as [last|]; [|done]. cbn in Hagg.
  injection Hagg as <-. exists es, lc, first, last. by rewrite Hdur.
Qed.

(** What a successful [save_group_to_db] hands to the store. *)
Lemma save_group_to_db_Ok now pvs (g : group) idx today cnt secs row :
  save_group_to_db strip lower strptime now pvs g idx today cnt secs = Ok row →
  db_status row = db_group_status (map (λ s : enriched, lower (status s)) g)
  ∧ min_present (db_start_times strip strptime g) = Ok (db_unload_started_at row)
  ∧ (if forallb (λ s, bool_decide (s = "closed"))
          (map (λ s : enriched, lower (status s)) g)
     then max_present (db_close_times strip strptime g)
     else Ok None) = Ok (db_closed_at row)
  ∧ db_sent row = sum (map sent g)
  ∧ db_received row = sum (map received g)
  ∧ db_excess row = sum (map excess g)
  ∧ boxes_count row = cnt
  ∧ unload_duration_seconds row = secs.
Proof.
  unfold save_group_to_db. intros Hsave.
  destruct (min_dt _) as [created|]; [|done]. cbn in Hsave.
  destruct (min_present _) as [started|]; [|done]. cbn in Hsave.
  destruct (if forallb _ _ then _ else _) as [closed_at|]; [|done].
  cbn in Hsave. by injection Hsave as <-.
Qed.

Lemma report_duration_cases now st es lc :
  match st, es, lc with
  | closed, Some e, Some l =>
      report_duration now st es lc
      = (Z.quot (timedelta.sub l e) 1000000,
         before_dot (timedelta.str (timedelta.sub l e)))
  | _, Some e, _ =>
      report_duration now st es lc
      = (0, before_dot (timedelta.str (timedelta.sub now e)))
  | _, None, _ => report_duration now st es lc = (0, "0:00:00")
  end.
Proof. by destruct st, es, lc. Qed.

End GroupReport.

(** Whole seconds are obtained by dropping the fraction, towards zero. *)
Example int_total_seconds_truncates :
  timedelta.int_total_seconds 2700999999 = 2700
  ∧ timedelta.int_total_seconds (-2700999999) = -2700.
Proof. by vm_compute. Qed.

(** ** The scenario of the specification *)

(** C5.  Shipments created at 02:10 and 02:50 (closed, unloading from 02:15
    to 03:00) and at 09:00, 09:40 and 11:00 form three groups: the night group
    [02:10, 02:50], the run [09:00, 09:40] and the run [11:00]; the night
    group is closed with a duration of 2700 seconds; the groups are reported
    latest first: [11:00], then [09:00, 09:40], then the night group.  The
    shipments of the day may carry any other data, and the listing may hand
    the five shipments over newest first.  Run on a source that lists these
    five shipments, [process_pvs] returns the report of the three groups in
    that order. *)
Theorem specification_scenario (c d f : enriched) (now : datetime.t) :
  let c := created_on (on_day 9 0) c in
  let d := created_on (on_day 9 40) d in
  let f := created_on (on_day 11 0) f in
  let valid_shipments := [night_1; night_2; c; d; f] in
  form_groups valid_shipments = Ok [[night_1; night_2]; [c; d]; [f]]
  ∧ grouping_engine valid_shipments = Ok [[f]; [c; d]; [night_1; night_2]]
  ∧ sort_asc (λ s : enriched, created_dt s) [f; d; c; night_2; night_1]
    = valid_shipments
  ∧ (∃ a,
      aggregate_group ascii_lib.strip ascii_lib.strptime now [night_1; night_2] = Ok a
      ∧ agg_status a = closed
      ∧ earliest_start a = Some (on_day 2 15)
      ∧ latest_close a = Some (on_day 3 0)
      ∧ duration_seconds a = 2700
      ∧ duration_str a = "0:45:00"
      ∧ count a = 2)
  ∧ (process_pvs ascii_lib.strip ascii_lib.lower ascii_lib.strptime
       "site1" scenario_world).1
    = Report (unlines
        ["📍 ПВЗ: site1";
         "Group: 1"; "Date: 2024-03-15"; "Arrival window: 11:00 – 11:00";
         "Closed at: -"; "Unload started: -"; "Unload duration: 0:00:00";
         "Status: Pending"; "Boxes: 1"; "Sent: 3"; "Received: 3"; "Excess: 0";
         "Group: 2"; "Date: 2024-03-15"; "Arrival window: 09:00 – 09:40";
         "Closed at: -"; "Unload started: -"; "Unload duration: 0:00:00";
         "Status: Pending"; "Boxes: 2"; "Sent: 6"; "Received: 6"; "Excess: 0";
         "Group: 3"; "Date: 2024-03-15"; "Arrival window: 02:10 – 02:50";
         "Closed at: 2024-03-15 03:00:00"; "Unload started: 2024-03-15 02:15:00";
         "Unload duration: 0:45:00";
         "Status: Closed"; "Boxes: 2"; "Sent: 6"; "Received: 6"; "Excess: 0"]).
Proof.
  cbv zeta. repeat split; try (vm_compute; reflexivity).
  eexists. split; [vm_compute; reflexivity|]. by repeat split.
Qed.

(** ** The latest close time *)

Section LatestClose.
Variables (strip lower : string → string) (strptime : string → result datetime.t).

(** In the report the latest close time is computed exactly when the status
    of the group is [closed]. *)
Lemma report_latest_close_when_closed now (g : group) a :
  aggregate_group strip strptime now g = Ok a →
  (agg_status a ≠ closed → latest_close a = None)
  ∧ (agg_status a = closed →
     max_or_None (report_close_times strip strptime g) = Ok (latest_close a)).
Proof.
  intros (es & lc & first & last & _ & Hlc & _ & _ & ->)%aggregate_group_Ok.
  cbn [agg_status latest_close].
  destruct (report_group_status g); simpl in Hlc; split; try done;
    intros _; by injection Hlc.
Qed.

(** In [save_group_to_db] the close time is computed only when every
    member is closed: a group that is closed by derivation but has a member
    that is not closed is stored without a close time. *)
Lemma db_closed_at_needs_all_closed now pvs (g : group) idx today cnt secs row :
  save_group_to_db strip lower strptime now pvs g idx today cnt secs = Ok row →
  ¬ Forall (λ s : enriched, lower (status s) = "closed") g →
  db_closed_at row = None.
Proof.
  intros (_ & _ & Hclosed & _)%save_group_to_db_Ok Hmixed.
  destruct (forallb _ _) eqn:Hall; [|by injection Hclosed].
  destruct Hmixed. apply all_equal_Forall in Hall.
  by apply Forall_fmap in Hall.
Qed.
End LatestClose.

(** C6, at a group of a pending and a closed shipment.  The report derives
    the status [closed] and the latest close time 10:00; [save_group_to_db]
    stores the same group with the status [closed] and no close time. *)
Theorem store_omits_close_time_of_mixed_group (now : datetime.t) :
  let g := [mixed_pending; mixed_closed] in
  (∃ a,
     aggregate_group ascii_lib.strip ascii_lib.strptime now g = Ok a
     ∧ agg_status a = closed
     ∧ latest_close a = Some (on_day 10 0))
  ∧ (∃ row,
       save_group_to_db ascii_lib.strip ascii_lib.lower ascii_lib.strptime
         now "site1" g 1 "2024-03-15" 2 0 = Ok row
       ∧ db_status row = closed
       ∧ db_closed_at row = None).
Proof.
  cbv zeta. split; eexists; (split; [vm_compute; reflexivity|by split]).
Qed.

(** ** The detail fetch *)

Lemma omap_lookup_seq {A} (l pre : list A) :
  omap (λ i, (pre ++ l) !! i) (seq (length pre) (length l)) = l.
Proof.
  revert pre. induction l as [|x l IH]; intros pre; [done|].
  cbn. rewrite list_lookup_middle by done.
  f_equal. specialize (IH (pre ++ [x])).
  rewrite length_app, <- app_assoc in IH. cbn in IH.
  by rewrite Nat.add_1_r in IH.
Qed.

(** Futures that finish in some order of their positions are all yielded,
    each once. *)
Lemma as_completed_perm {A} (finished : list nat) (futures : list A) :
  finished ≡ₚ seq 0 (length futures) → as_completed finished futures ≡ₚ futures.
Proof.
  intros Hperm. unfold as_completed. rewrite Hperm.
  exact (reflexive_eq _ _ (omap_lookup_seq futures [])).
Qed.

Lemma collect_details_other (results : list (string * details)) :
  ∀ (m : gmap string details) k,
    k ∉ results.*1 →
    foldl (λ details_map r, <[r.1 := r.2]> details_map) m results !! k = m !! k.
Proof.
  induction results as [|r results IH]; intros m k Hk; [done|].
  cbn in *. apply not_elem_of_cons in Hk as [Hne Hk].
  rewrite IH by done. by rewrite lookup_insert_ne.
Qed.

(** With pairwise different keys every result is found under its key. *)
Lemma collect_details_lookup (results : list (string * details)) k d :
  NoDup results.*1 → (k, d) ∈ results → collect_details results !! k = Some d.
Proof.
  unfold collect_details. generalize (∅ : gmap string details).
  induction results as [|r results IH]; intros m Hnd Hin; [by apply elem_of_nil in Hin|].
  cbn in *. apply NoDup_cons in Hnd as [Hr Hnd].
  apply elem_of_cons in Hin as [<-|Hin].
  - rewrite collect_details_other by done. apply lookup_insert_eq.
  - by apply IH.
Qed.

Lemma fetch_details_key page s : (fetch_details page s).1 = id s.
Proof. unfold fetch_details. by destruct (detail_url s). Qed.

Lemma fetch_results_keys (pages : nat → detail_response) (valid : list shipment) :
  (imap (λ i s, fetch_details (pages i) s) valid).*1 = map id valid.
Proof.
  revert pages. induction valid as [|s valid IH]; intros pages; [done|].
  cbn. rewrite fetch_details_key. f_equal. apply (IH (pages ∘ S)).
Qed.

Lemma update_all_found (details_map : gmap string details)
    (found : nat → shipment → details) (valid : list shipment) :
  (∀ i s, valid !! i = Some s → details_map !! id s = Some (found i s)) →
  update_all details_map valid = Ok (imap (λ i s, update s (found i s)) valid).
Proof.
  revert found. induction valid as [|s valid IH]; intros found Hfound; [done|].
  unfold update_all in *. cbn.
  rewrite (Hfound 0%nat s) by done. cbn.
  rewrite (IH (found ∘ S)); [done|].
  intros i s' Hs'. by apply (Hfound (S i)).
Qed.

(** When the identifiers are pairwise different and every detail task
    finishes, every shipment is updated with the result of its own task. *)
Lemma enrich_own_details (pages : nat → detail_response) (finished : list nat)
    (valid : list shipment) :
  NoDup (map id valid) →
  finished ≡ₚ seq 0 (length valid) →
  enrich pages finished valid
  = Ok (imap (λ i s, update s (fetch_details (pages i) s).2) valid).
Proof.
  intros Hnd Hfin. unfold enrich. apply update_all_found.
  intros i s Hs.
  assert (as_completed finished (imap (λ i s, fetch_details (pages i) s) valid)
          ≡ₚ imap (λ i s, fetch_details (pages i) s) valid) as Hperm.
  { apply as_completed_perm. by rewrite length_imap. }
  apply collect_details_lookup.
  - by rewrite Hperm, fetch_results_keys.
  - rewrite Hperm. apply list_elem_of_lookup. exists i.
    rewrite list_lookup_imap, Hs. cbn.
    by rewrite <- (fetch_details_key (pages i) s), <- surjective_pairing.
Qed.

(** A request that raises (a timeout, say), an answer with a status other
    than 200 and a page without the section all count as a failed fetch. *)
Lemma failed_fetches (response : detail_response) :
  (∃ e, response = Raise e)
  ∨ (∃ status_code section,
       response = Ok (status_code, section) ∧ status_code ≠ 200)
  ∨ (∃ status_code, response = Ok (status_code, None)) →
  get_details_from_detail_page response = None.
Proof.
  intros [[e ->]|[(status_code & section & -> & Hcode)|[status_code ->]]]; cbn.
  - done.
  - by rewrite (proj2 (Z.eqb_neq _ _) Hcode).
  - by destruct (negb _).
Qed.

(** In that case a shipment without a detail reference, or whose detail
    request failed, gets the counts 0, 0, 0 and remains in the list. *)
Lemma failed_fetch_counts_zero (pages : nat → detail_response) (finished : list nat)
    (valid : list shipment) (i : nat) (s : shipment) :
  NoDup (map id valid) →
  finished ≡ₚ seq 0 (length valid) →
  valid !! i = Some s →
  detail_url s = None ∨ get_details_from_detail_page (pages i) = None →
  ∃ enriched_shipments,
    enrich pages finished valid = Ok enriched_shipments
    ∧ length enriched_shipments = length valid
    ∧ enriched_shipments !! i = Some (update s no_details).
Proof.
  intros Hnd Hfin Hs Hfail. eexists. split; [by apply enrich_own_details|].
  split; [apply length_imap|].
  rewrite list_lookup_imap, Hs. cbn. do 2 f_equal.
  unfold fetch_details. destruct Hfail as [->| ->]; [done|].
  by destruct (detail_url s).
Qed.

(** The totals of a report are the sums over the members, and the count is
    the number of members. *)
Lemma aggregate_totals (strip : string → string)
    (strptime : string → result datetime.t) now (g : group) a :
  aggregate_group strip strptime now g = Ok a →
  total_sent a = sum (map sent g)
  ∧ total_received a = sum (map received g)
  ∧ total_excess a = sum (map excess g)
  ∧ count a = Z.of_nat (length g).
Proof.
  by intros (es & lc & first & last & _ & _ & _ & _ & ->)%aggregate_group_Ok.
Qed.

(** C7, at two shipments with the same identifier.  The detail page of the
    first is read (5 sent, 5 received); the request for the second is
    answered with the status 500, and its task finishes first.  Both
    shipments are updated with the counts stored last under the shared
    identifier, so the shipment whose fetch failed contributes 5, 5, 0 and
    the group reports 10 sent. *)
Theorem failed_fetch_takes_counts_of_twin (now : datetime.t) :
  ∃ first second a,
    enrich twin_pages [1; 0]%nat [twin_read; twin_failed] = Ok [first; second]
    ∧ base second = twin_failed
    ∧ get_details_from_detail_page (twin_pages 1) = None
    ∧ fetch_details (twin_pages 1) twin_failed = ("X1", no_details)
    ∧ (sent second, received second, excess second) = (5, 5, 0)
    ∧ grouping_engine [first; second] = Ok [[first; second]]
    ∧ aggregate_group ascii_lib.strip ascii_lib.strptime now [first; second] = Ok a
    ∧ (total_sent a, total_received a, total_excess a, count a) = (10, 10, 0, 2).
Proof.
  do 3 eexists. split; [vm_compute; reflexivity|].
  repeat split; vm_compute; reflexivity.
Qed.

(** ** Statuses along the pipeline *)

Section LoweredStatuses.
Variables (strip lower : string → string) (strptime : string → result datetime.t).
Hypothesis lower_idempotent : ∀ s, lower (lower s) = lower s.

Let lowered (s : shipment) : Prop := lower (status s) = status s.

Lemma read_rows_lowered base_url today_date rows : ∀ all_shipments found,
  Forall lowered all_shipments →
  Forall lowered
    (read_rows strip lower strptime base_url today_date rows all_shipments found).1.1.
Proof.
  induction rows as [|r rows IH]; intros all_shipments found Hall; [done|].
  cbn. destruct (read_row _ _ _ _ _ r) as [[s|]|] eqn:Hrow; [|by apply IH|done].
  apply IH, Forall_app. split; [done|]. constructor; [|constructor].
  by eapply read_row_status_lowered.
Qed.

Lemma crawl_lowered base_url today_date responses : ∀ page all_shipments,
  Forall lowered all_shipments →
  Forall lowered
    (crawl strip lower strptime base_url today_date page responses all_shipments).
Proof.
  induction responses as [|response responses IH]; intros page all_shipments Hall;
    [done|].
  cbn. destruct response as [[status_code rows]|]; [|done].
  destruct (negb _); [done|].
  destruct (match rows with [] => true | _ => false end); [done|].
  pose proof (read_rows_lowered base_url today_date rows all_shipments false Hall)
    as Hrows.
  destruct (read_rows _ _ _ _ _ rows all_shipments false) as [[acc found] raised].
  cbn in Hrows.
  destruct raised; [done|]. destruct (negb found && _); [done|].
  destruct (_ <? 20); [done|]. by apply IH.
Qed.

Lemma update_all_base (details_map : gmap string details) valid :
  ∀ enriched_shipments,
    update_all details_map valid = Ok enriched_shipments →
    map base enriched_shipments = valid.
Proof.
  unfold update_all.
  induction valid as [|s valid IH]; intros enriched_shipments Hok.
  - by injection Hok as <-.
  - cbn in Hok. destruct (details_map !! id s) as [d|]; [|done]. cbn in Hok.
    destruct (mapM _ valid) as [rest|] eqn:Hrest; [|done]. cbn in Hok.
    injection Hok as <-. cbn. f_equal. by apply IH.
Qed.

(** Every group the pipeline forms consists of shipments whose status is
    stored in lower case. *)
Lemma pipeline_statuses_lowered base_url today_date responses pages finished groups :
  enrich pages finished
    (sort_asc created_dt
       (crawl strip lower strptime base_url today_date 1 responses []))
    ≫= grouping_engine = Ok groups →
  Forall (Forall (λ s : enriched, lower (status s) = status s)) groups.
Proof.
  intros Hgroups.
  destruct (enrich _ _ _) as [enriched_shipments|] eqn:Henrich; [|done].
  cbn in Hgroups.
  destruct (grouping_engine_perm enriched_shipments) as (gs & Hgs & _ & Hperm).
  rewrite Hgs in Hgroups. injection Hgroups as ->.
  apply Forall_concat. rewrite Hperm.
  apply update_all_base in Henrich.
  assert (Forall lowered (map base enriched_shipments)) as Hbase.
  { rewrite Henrich, sort_asc_perm. by apply crawl_lowered. }
  by apply Forall_fmap in Hbase.
Qed.
End LoweredStatuses.

(** ** One outcome per source *)

Section Outcomes.
Variables (strip lower : string → string) (strptime : string → result datetime.t).

(** An exception anywhere in the body of the [try] becomes the error
    entry ["Critical error: ..."]. *)
Lemma process_pvs_raise pvs w e saved :
  process_pvs_try strip lower strptime pvs w = (Raise e, saved) →
  process_pvs strip lower strptime pvs w
  = (Error ("Critical error: " +:+ str_exn e), saved).
Proof. unfold process_pvs. by intros ->. Qed.

Lemma process_pvs_login_exception pvs w e :
  login_page w = Raise e →
  process_pvs strip lower strptime pvs w
  = (Error ("Critical error: " +:+ str_exn e), []).
Proof.
  intros Hpage. apply process_pvs_raise.
  unfold process_pvs_try, login. by rewrite Hpage.
Qed.

Lemma process_pvs_login_unreachable pvs w status_code :
  login_page w = Ok status_code → status_code ≠ 200 →
  process_pvs strip lower strptime pvs w
  = (Error ("Login page unreachable (" +:+ fmt_d status_code +:+ ")"), []).
Proof.
  intros Hpage Hcode. unfold process_pvs, process_pvs_try, login.
  rewrite Hpage. cbn. by rewrite (proj2 (Z.eqb_neq _ _) Hcode).
Qed.

Lemma process_pvs_login_rejected pvs w :
  login_page w = Ok 200 → redirect_input w = None →
  login_response w "/shipments/incoming/" = Ok true →
  process_pvs strip lower strptime pvs w = (Error "Login failed", []).
Proof.
  intros Hpage Hredirect Hpost.
  unfold process_pvs, process_pvs_try, login.
  rewrite Hpage. cbn. rewrite Hredirect. cbn. by rewrite Hpost.
Qed.

Lemma process_pvs_no_shipments pvs w :
  login w = Ok None →
  crawl strip lower strptime ("https://example-pvs-" +:+ pvs +:+ ".local")
    (datetime.strftime_Ymd (today w)) 1 (listing w) [] = [] →
  process_pvs strip lower strptime pvs w = (Error "No shipments found for today", []).
Proof.
  intros Hlogin Hcrawl. unfold process_pvs, process_pvs_try.
  by rewrite Hlogin, Hcrawl.
Qed.

(** A first page that cannot be fetched leaves the listing empty. *)
Lemma crawl_first_page_fails base_url today_date e rest :
  crawl strip lower strptime base_url today_date 1 (Raise e :: rest) [] = [].
Proof. done. Qed.

Lemma omap_total_lookup {A B} (f : A → option B) (l : list A) :
  Forall (λ x, is_Some (f x)) l → ∀ k, omap f l !! k = l !! k ≫= f.
Proof.
  induction 1 as [|x l [y Hy] _ IH]; intros k; [done|].
  cbn. rewrite Hy. destruct k; cbn; [done|apply IH].
Qed.

Lemma main_lookup sources order k i pvs w :
  order ≡ₚ seq 0 (length sources) →
  order !! k = Some i → sources !! i = Some (pvs, w) →
  main strip lower strptime sources order !! k
  = Some (collect pvs (Ok (process_pvs strip lower strptime pvs w).1)).
Proof.
  intros Hperm Hk Hi. unfold main, as_completed.
  rewrite list_lookup_fmap, omap_total_lookup.
  - rewrite Hk. cbn. rewrite list_lookup_fmap, Hi. done.
  - apply Forall_forall. intros j Hj. rewrite Hperm in Hj.
    apply elem_of_seq in Hj. apply lookup_lt_is_Some.
    rewrite length_map. lia.
Qed.

Lemma main_perm sources order :
  order ≡ₚ seq 0 (length sources) →
  main strip lower strptime sources order
  ≡ₚ map (λ src : string * world,
            collect src.1 (Ok (process_pvs strip lower strptime src.1 src.2).1))
         sources.
Proof.
  intros Hperm. unfold main.
  rewrite as_completed_perm by (by rewrite length_map).
  by rewrite map_map.
Qed.

End Outcomes.

(** ** Repeating the aggregation *)

Section Repeat.
Variables (strip : string → string) (strptime : string → result datetime.t).

Lemma aggregate_group_intro now (g : group) es lc first last :
  min_or_None (report_start_times strip strptime g) = Ok es →
  report_latest_close strip strptime g (report_group_status g) = Ok lc →
  min_dt (map (λ s : enriched, created_dt s) g) = Ok first →
  max_dt (map (λ s : enriched, created_dt s) g) = Ok last →
  aggregate_group strip strptime now g
  = Ok {| earliest_start := es;
          agg_status := report_group_status g;
          latest_close := lc;
          duration_seconds :=
            (report_duration now (report_group_status g) es lc).1;
          duration_str :=
            (report_duration now (report_group_status g) es lc).2;
          first_created := datetime.strftime_HM first;
          last_created := datetime.strftime_HM last;
          total_sent := sum (map sent g);
          total_received := sum (map received g);
          total_excess := sum (map excess g);
          count := Z.of_nat (length g) |}.
Proof.
  intros Hes Hlc Hfirst Hlast. unfold aggregate_group.
  rewrite Hes. cbn. rewrite Hlc. cbn.
  destruct (report_duration now _ es lc). by rewrite Hfirst, Hlast.
Qed.

(** The duration in seconds never involves the clock; the displayed
    duration involves it only for a group that has an unload start and is
    not closed with a close time. *)
Lemma report_duration_clock now1 now2 st es lc :
  (report_duration now1 st es lc).1 = (report_duration now2 st es lc).1
  ∧ (es = None ∨ (st = closed ∧ is_Some lc) →
     report_duration now1 st es lc = report_duration now2 st es lc).
Proof.
  split; [by destruct st, es, lc|].
  intros [->|[-> [l ->]]]; [by destruct st, lc|by destruct es].
Qed.
End Repeat.

(** C9 as stated fails at a group that is being unloaded: two runs of the
    aggregation one minute apart derive different attributes and render
    different text blocks. *)
Lemma report_of_open_group_follows_clock :
  ∃ a1 a2,
    aggregate_group ascii_lib.strip ascii_lib.strptime (on_day 12 0) [unloading] = Ok a1
    ∧ aggregate_group ascii_lib.strip ascii_lib.strptime (on_day 12 1) [unloading] = Ok a2
    ∧ duration_str a1 = "2:55:00"
    ∧ duration_str a2 = "2:56:00"
    ∧ a1 ≠ a2
    ∧ render 1 "2024-03-15" a1 ≠ render 1 "2024-03-15" a2.
Proof.
  do 2 eexists. split; [vm_compute; reflexivity|].
  split; [vm_compute; reflexivity|].
  repeat split; vm_compute; congruence.
Qed.

(** C9, amended.  A second run of the aggregation on the same group succeeds
    when the first did and derives the same attributes except, possibly, the
    displayed duration.  All attributes are the same when both runs read the
    same clock, when the group has no unload start, and when the group is
    closed and has a close time.  The text block is a function of the group
    index, the date and the derived attributes. *)
Theorem aggregation_repeatable_up_to_clock (strip : string → string)
    (strptime : string → result datetime.t) now1 now2 (g : group) a1 :
  aggregate_group strip strptime now1 g = Ok a1 →
  ∃ a2,
    aggregate_group strip strptime now2 g = Ok a2
    ∧ clock_free a2 = clock_free a1
    ∧ (now1 = now2
       ∨ earliest_start a1 = None
       ∨ (agg_status a1 = closed ∧ is_Some (latest_close a1)) →
       a2 = a1)
    ∧ ∀ idx today,
        duration_str a2 = duration_str a1 →
        render idx today a2 = render idx today a1.
Proof.
  intros (es & lc & first & last & Hes & Hlc & Hfirst & Hlast & ->)%aggregate_group_Ok.
  eexists. split; [by apply aggregate_group_intro|].
  destruct (report_duration_clock now1 now2 (report_group_status g) es lc)
    as [Hsecs Hsame].
  split; [|split].
  - unfold clock_free; cbn. by rewrite Hsecs.
  - cbn. intros [->|Hfree]; [done|]. by rewrite (Hsame Hfree).
  - intros idx today Hstr. unfold render; cbn in *. by rewrite Hstr.
Qed.

(** ** Timestamps that do not parse *)

Section ExtremumFacts.
Context (better : option datetime.t → option datetime.t → result bool).
Hypothesis better_None_l : ∀ y, ∃ msg, better None y = Raise (TypeError msg).
Hypothesis better_None_r : ∀ x, ∃ msg, better x None = Raise (TypeError msg).
Hypothesis better_Some : ∀ a b, ∃ r, better (Some a) (Some b) = Ok r.

Lemma extremum_from_raises xs : ∀ best,
  (best = None ∧ xs ≠ []) ∨ None ∈ xs →
  ∃ msg, extremum_from better best xs = Raise (TypeError msg).
Proof.
  induction xs as [|x xs IH]; intros best Hbad.
  - destruct Hbad as [[_ ?]|?%elem_of_nil]; done.
  - cbn. destruct x as [a|].
    + destruct best as [b|].
      * destruct (better_Some a b) as [r ->]. cbn. apply IH. right.
        destruct Hbad as [[? _]|Hin]; [done|].
        by apply elem_of_cons in Hin as [?|?].
      * destruct (better_None_r (Some a)) as [msg ->]. by exists msg.
    + destruct (better_None_l best) as [msg ->]. by exists msg.
Qed.

Lemma extremum_from_present xs : ∀ b,
  Forall is_Some xs →
  ∃ m, extremum_from better (Some b) xs = Ok (Some m).
Proof.
  induction xs as [|x xs IH]; intros b Hxs; [by exists b|].
  apply Forall_cons in Hxs as [[a ->] Hxs]. cbn.
  destruct (better_Some a b) as [r ->]. cbn. destruct r; apply IH; done.
Qed.

(** [min] and [max] of a non-empty list raise exactly when the list has
    several items and [None] is among them, and what they raise is a
    [TypeError]. *)
Lemma extremum_raises_iff name xs :
  xs ≠ [] →
  (∃ e, extremum better name xs = Raise e) ↔ clash xs.
Proof.
  intros Hne. destruct xs as [|x xs]; [done|]. cbn. split.
  - intros [e He]. destruct xs as [|y xs]; [done|].
    split; [cbn; lia|].
    destruct (decide (None ∈ x :: y :: xs)) as [|Hnone]; [done|].
    destruct x as [b|]; [|by destruct Hnone; left].
    destruct (extremum_from_present (y :: xs) b) as [m Hm].
    { apply Forall_forall. intros [t|] Ht; [done|].
      destruct Hnone. by right. }
    by rewrite Hm in He.
  - intros [Hlen Hin].
    destruct (extremum_from_raises xs x) as [msg Hmsg].
    { apply elem_of_cons in Hin as [<-|Hin]; [|by right].
      left. split; [done|]. destruct xs; [cbn in Hlen; lia|done]. }
    by eexists.
Qed.

Lemma extremum_clash_TypeError name xs :
  clash xs → ∃ msg, extremum better name xs = Raise (TypeError msg).
Proof.
  intros [Hlen Hin]. destruct xs as [|x xs]; [by apply elem_of_nil in Hin|].
  cbn. apply extremum_from_raises.
  apply elem_of_cons in Hin as [<-|Hin]; [|by right].
  left. split; [done|]. destruct xs; [cbn in Hlen; lia|done].
Qed.
End ExtremumFacts.

Lemma py_min_clash xs : clash xs → ∃ msg, py_min xs = Raise (TypeError msg).
Proof.
  apply extremum_clash_TypeError.
  - intros y. by eexists.
  - intros [a|]; by eexists.
  - intros a b. by eexists.
Qed.

Lemma py_max_clash xs : clash xs → ∃ msg, py_max xs = Raise (TypeError msg).
Proof.
  apply extremum_clash_TypeError.
  - intros y. by eexists.
  - intros [a|]; by eexists.
  - intros a b. by eexists.
Qed.

Lemma min_or_None_raises_iff xs : (∃ e, min_or_None xs = Raise e) ↔ clash xs.
Proof.
  destruct xs as [|x xs].
  - split; [by intros [e ?]|]. intros [Hlen _]. cbn in Hlen. lia.
  - apply (extremum_raises_iff obj_lt).
    + intros y. by eexists.
    + intros [a|]; by eexists.
    + intros a b. by eexists.
    + done.
Qed.

Lemma max_or_None_raises_iff xs : (∃ e, max_or_None xs = Raise e) ↔ clash xs.
Proof.
  destruct xs as [|x xs].
  - split; [by intros [e ?]|]. intros [Hlen _]. cbn in Hlen. lia.
  - apply (extremum_raises_iff obj_gt).
    + intros y. by eexists.
    + intros [a|]; by eexists.
    + intros a b. by eexists.
    + done.
Qed.

(** A single timestamp is returned as it is, without a comparison. *)
Lemma min_or_None_single x : min_or_None [x] = Ok x.
Proof. done. Qed.

(** [min] and [max] over datetimes that are all present raise only on an
    empty list, and then a [ValueError]. *)
Lemma extremum_total_from (better : datetime.t → datetime.t → bool) xs :
  ∀ best, ∃ m, extremum_from (λ a b, Ok (better a b)) best xs = Ok m.
Proof.
  induction xs as [|x xs IH]; intros best; [by eexists|]. cbn. apply IH.
Qed.

Lemma extremum_total (better : datetime.t → datetime.t → bool) name xs :
  (∃ m, extremum (λ a b, Ok (better a b)) name xs = Ok m)
  ∨ (xs = [] ∧ extremum (λ a b, Ok (better a b)) name xs
               = Raise (ValueError (name +:+ "() arg is an empty sequence"))).
Proof.
  destruct xs as [|x xs]; [by right|]. left. apply extremum_total_from.
Qed.

(** *** What [min] and [max] return *)

Section ExtremumOrder.
Context (better le : datetime.t → datetime.t → bool).
Hypothesis le_refl : ∀ a, le a a = true.
Hypothesis le_trans : ∀ a b c, le a b = true → le b c = true → le a c = true.
Hypothesis better_le : ∀ x best, better x best = true → le x best = true.
Hypothesis not_better_le : ∀ x best, better x best = false → le best x = true.

Lemma extremum_from_bound xs : ∀ best m,
  extremum_from (λ a b, Ok (better a b)) best xs = Ok m →
  m ∈ best :: xs ∧ Forall (λ t, le m t = true) (best :: xs).
Proof.
  induction xs as [|x xs IH]; intros best m Hm.
  - injection Hm as <-. split; [left|]. by repeat constructor.
  - cbn in Hm. apply IH in Hm as [Hin Hall].
    apply Forall_cons in Hall as [Hbest Hall].
    destruct (better x best) eqn:Hb.
    + split.
      * apply elem_of_cons in Hin as [->|Hin]; [right; left|by do 2 right].
      * repeat constructor; [|done|done].
        eapply le_trans; [exact Hbest|]. by apply better_le.
    + split.
      * apply elem_of_cons in Hin as [->|Hin]; [left|by do 2 right].
      * repeat constructor; [done| |done].
        eapply le_trans; [exact Hbest|]. by apply not_better_le.
Qed.

Lemma extremum_bound name xs m :
  extremum (λ a b, Ok (better a b)) name xs = Ok m →
  m ∈ xs ∧ Forall (λ t, le m t = true) xs.
Proof. destruct xs as [|x xs]; [done|]. apply extremum_from_bound. Qed.
End ExtremumOrder.

(** [min] returns a member that no member precedes, [max] one that precedes
    no member. *)
Lemma min_dt_least xs m :
  min_dt xs = Ok m → m ∈ xs ∧ Forall (λ t, datetime.leb m t = true) xs.
Proof.
  apply (extremum_bound datetime.ltb datetime.leb).
  - apply leb_refl.
  - apply leb_trans.
  - apply ltb_leb.
  - apply ltb_false_leb.
Qed.

Lemma max_dt_greatest xs m :
  max_dt xs = Ok m → m ∈ xs ∧ Forall (λ t, datetime.leb t m = true) xs.
Proof.
  apply (extremum_bound datetime.gtb (λ a b, datetime.leb b a)).
  - apply leb_refl.
  - intros a b c Hab Hbc. by eapply leb_trans.
  - apply gtb_leb.
  - apply gtb_false_leb.
Qed.

Lemma py_min_present_from ts : ∀ b,
  extremum_from obj_lt (Some b) (Some <$> ts)
  = Some <$> extremum_from (λ a b, Ok (datetime.ltb a b)) b ts.
Proof.
  induction ts as [|t ts IH]; intros b; [done|]. cbn.
  destruct (datetime.ltb t b); apply IH.
Qed.

Lemma py_max_present_from ts : ∀ b,
  extremum_from obj_gt (Some b) (Some <$> ts)
  = Some <$> extremum_from (λ a b, Ok (datetime.gtb a b)) b ts.
Proof.
  induction ts as [|t ts IH]; intros b; [done|]. cbn.
  destruct (datetime.gtb t b); apply IH.
Qed.

Lemma all_present (xs : list (option datetime.t)) :
  None ∉ xs → xs = Some <$> omap (λ t, t) xs.
Proof.
  induction xs as [|[t|] xs IH]; intros Hnone; [done| |].
  - cbn. f_equal. apply IH. intros Hin. apply Hnone. by right.
  - destruct Hnone. left.
Qed.

(** When the report has an earliest unload start, it is one of the parsed
    start times and none of them is earlier; likewise for the latest close
    time. *)
Lemma min_or_None_least xs m :
  min_or_None xs = Ok (Some m) →
  Some m ∈ xs ∧ ∀ t, Some t ∈ xs → datetime.leb m t = true.
Proof.
  intros Hmin.
  destruct (decide (None ∈ xs)) as [Hnone|Hnone].
  - destruct xs as [|x [|y xs]]; [done| |].
    + injection Hmin as ->. split; [left|].
      intros t Ht. apply list_elem_of_singleton in Ht as [= ->]. apply leb_refl.
    + assert (clash (x :: y :: xs)) as Hclash by (split; [cbn; lia|done]).
      apply min_or_None_raises_iff in Hclash as [e He]. by rewrite He in Hmin.
  - rewrite (all_present xs Hnone) in Hmin |- *.
    destruct (omap (λ t, t) xs) as [|b ts]; [done|].
    cbn in Hmin. rewrite py_min_present_from in Hmin.
    destruct (extremum_from _ b ts) as [m'|] eqn:Hm'; [|done].
    injection Hmin as ->.
    apply (extremum_from_bound datetime.ltb datetime.leb leb_refl leb_trans
             ltb_leb ltb_false_leb) in Hm' as [Hin Hall].
    split; [by apply list_elem_of_fmap_2|].
    intros t (t' & [= ->] & Ht)%list_elem_of_fmap.
    by eapply Forall_forall in Hall.
Qed.

Lemma max_or_None_greatest xs m :
  max_or_None xs = Ok (Some m) →
  Some m ∈ xs ∧ ∀ t, Some t ∈ xs → datetime.leb t m = true.
Proof.
  intros Hmax.
  destruct (decide (None ∈ xs)) as [Hnone|Hnone].
  - destruct xs as [|x [|y xs]]; [done| |].
    + injection Hmax as ->. split; [left|].
      intros t Ht. apply list_elem_of_singleton in Ht as [= ->]. apply leb_refl.
    + assert (clash (x :: y :: xs)) as Hclash by (split; [cbn; lia|done]).
      apply max_or_None_raises_iff in Hclash as [e He]. by rewrite He in Hmax.
  - rewrite (all_present xs Hnone) in Hmax |- *.
    destruct (omap (λ t, t) xs) as [|b ts]; [done|].
    cbn in Hmax. rewrite py_max_present_from in Hmax.
    destruct (extremum_from _ b ts) as [m'|] eqn:Hm'; [|done].
    injection Hmax as ->.
    apply (extremum_from_bound datetime.gtb (λ a b, datetime.leb b a) leb_refl
             (λ a b c Hab Hbc, leb_trans c b a Hbc Hab) gtb_leb gtb_false_leb)
      in Hm' as [Hin Hall].
    split; [by apply list_elem_of_fmap_2|].
    intros t (t' & [= ->] & Ht)%list_elem_of_fmap.
    by eapply Forall_forall in Hall.
Qed.

Section Critical.
Variables (strip lower : string → string) (strptime : string → result datetime.t).

Lemma aggregate_start_clash now (g : group) :
  clash (report_start_times strip strptime g) →
  ∃ msg, aggregate_group strip strptime now g = Raise (TypeError msg).
Proof.
  intros Hclash. unfold aggregate_group, min_or_None.
  destruct (report_start_times strip strptime g) as [|x xs] eqn:Htimes.
  { destruct Hclash as [Hlen _]. cbn in Hlen. lia. }
  destruct (py_min_clash _ Hclash) as [msg ->]. by exists msg.
Qed.

Lemma aggregate_close_clash now (g : group) :
  report_group_status g = closed →
  clash (report_close_times strip strptime g) →
  ∃ msg, aggregate_group strip strptime now g = Raise (TypeError msg).
Proof.
  intros Hst Hclash.
  destruct (min_or_None (report_start_times strip strptime g)) as [es|e] eqn:Hes.
  - unfold aggregate_group. rewrite Hes, Hst. cbn. unfold max_or_None.
    destruct (report_close_times strip strptime g) as [|x xs] eqn:Htimes.
    { destruct Hclash as [Hlen _]. cbn in Hlen. lia. }
    destruct (py_max_clash _ Hclash) as [msg ->]. by exists msg.
  - apply aggregate_start_clash. apply min_or_None_raises_iff. by exists e.
Qed.

(** A group whose report cannot be built ends the loop with its exception
    or with the one of an earlier group. *)
Lemma report_loop_raises pvs today w (g : group) groups :
  g ∈ groups →
  (∀ now, ∃ e, aggregate_group strip strptime now g = Raise e) →
  ∀ idx lines saved,
    ∃ e saved',
      report_loop strip lower strptime pvs today w idx groups lines saved
      = (Raise e, saved').
Proof.
  intros Hin Hraise.
  induction groups as [|g' groups IH]; intros idx lines saved;
    [by apply elem_of_nil in Hin|].
  cbn. destruct (aggregate_group strip strptime (clock w idx) g') as [a|e] eqn:Hagg.
  - apply elem_of_cons in Hin as [->|Hin].
    + destruct (Hraise (clock w idx)) as [e He]. by rewrite He in Hagg.
    + by apply IH.
  - by exists e, saved.
Qed.

(** [save_group_to_db] leaves the timestamps that do not parse out of its
    minimum and maximum: it stores a row, or raises the [ValueError] of an
    empty sequence. *)
Lemma present_extremum_total (better : datetime.t → datetime.t → bool) name xs :
  let r :=
    match xs with
    | [] => Ok None
    | _ => Some <$> extremum (λ a b, Ok (better a b)) name (omap (λ t, t) xs)
    end in
  (∃ m, r = Ok m) ∨ (∃ msg, r = Raise (ValueError msg)).
Proof.
  destruct xs as [|x xs]; [left; by eexists|]. cbv zeta.
  destruct (extremum_total better name (omap (λ t, t) (x :: xs)))
    as [[m ->]|[_ ->]]; [left|right]; by eexists.
Qed.

Lemma save_group_to_db_total now pvs (g : group) idx today cnt secs :
  (∃ row, save_group_to_db strip lower strptime now pvs g idx today cnt secs = Ok row)
  ∨ (∃ msg, save_group_to_db strip lower strptime now pvs g idx today cnt secs
            = Raise (ValueError msg)).
Proof.
  unfold save_group_to_db.
  destruct (extremum_total datetime.ltb "min" (map (λ s : enriched, created_dt s) g))
    as [[created Hc]|[_ Hc]]; unfold min_dt; rewrite Hc; cbn;
    [|right; by eexists].
  destruct (present_extremum_total datetime.ltb "min" (db_start_times strip strptime g))
    as [[started Hs]|[msg Hs]]; unfold min_present, min_dt; cbv zeta in Hs;
    rewrite Hs; cbn; [|right; by eexists].
  destruct (forallb _ _).
  - destruct (present_extremum_total datetime.gtb "max"
                (db_close_times strip strptime g))
      as [[closed_at Hx]|[msg Hx]]; unfold max_present, max_dt; cbv zeta in Hx;
      rewrite Hx; cbn; [left|right]; by eexists.
  - cbn. left. by eexists.
Qed.

Lemma process_pvs_report_raises pvs w all_shipments groups (g : group) :
  login w = Ok None →
  crawl strip lower strptime ("https://example-pvs-" +:+ pvs +:+ ".local")
    (datetime.strftime_Ymd (today w)) 1 (listing w) [] = all_shipments →
  all_shipments ≠ [] →
  enrich (detail_pages w) (finished w)
    (sort_asc created_dt all_shipments) ≫= grouping_engine
  = Ok groups →
  g ∈ groups →
  (∀ now, ∃ e, aggregate_group strip strptime now g = Raise e) →
  ∃ msg saved,
    process_pvs strip lower strptime pvs w
    = (Error ("Critical error: " +:+ msg), saved).
Proof.
  intros Hlogin Hcrawl Hne Hgroups Hin Hraise.
  unfold process_pvs, process_pvs_try. rewrite Hlogin, Hcrawl.
  destruct all_shipments as [|s rest]; [done|].
  rewrite Hgroups.
  destruct (report_loop_raises pvs (datetime.strftime_Ymd (today w)) w g groups
              Hin Hraise 1 ["📍 ПВЗ: " +:+ pvs +:+ nl] [])
    as (e & saved & ->).
  by exists (str_exn e), saved.
Qed.
End Critical.

(** C10 as stated fails at a group of one shipment whose unload-start cell is
    empty: the text is not the placeholder and does not parse, the list
    handed to [min] is [[None]], [min] returns [None] without comparing
    anything, and the source gets its report. *)
Lemma lone_unparseable_start_is_reported :
  let w := quiet_world [lone_row] in
  ∃ (s : enriched) a message saved,
    enrich (detail_pages w) (finished w)
      (sort_asc created_dt
         (crawl ascii_lib.strip ascii_lib.lower ascii_lib.strptime
            "https://example-pvs-site1.local" "2024-03-15" 1 (listing w) []))
      ≫= grouping_engine = Ok [[s]]
    ∧ unload_started_at s ≠ "-"
    ∧ parse_datetime ascii_lib.strip ascii_lib.strptime (unload_started_at s) = None
    ∧ report_start_times ascii_lib.strip ascii_lib.strptime [s] = [None]
    ∧ aggregate_group ascii_lib.strip ascii_lib.strptime (clock w 1) [s] = Ok a
    ∧ earliest_start a = None
    ∧ process_pvs ascii_lib.strip ascii_lib.lower ascii_lib.strptime "site1" w
      = (Report message, saved).
Proof.
  cbv zeta. do 4 eexists.
  split; [vm_compute; reflexivity|].
  split; [vm_compute; congruence|].
  split; [vm_compute; reflexivity|].
  split; [vm_compute; reflexivity|].
  split; [vm_compute; reflexivity|].
  split; vm_compute; reflexivity.
Qed.

(** C10, amended.  When the report loop reaches a group in which [min] has
    to compare a start time that did not parse with another one (the list of
    the unload-start texts other than the placeholder has at least two
    entries and one of them does not parse), or in which, the group being
    closed, [max] has to do so for the close times, the source ends with the
    single outcome ["Critical error: ..."] and no report.  A list of one
    entry is returned as it is.  [save_group_to_db] never raises over such
    entries: it stores a row or raises the [ValueError] of an empty
    sequence. *)
Theorem unparseable_time_among_several_is_critical (strip lower : string → string)
    (strptime : string → result datetime.t) pvs w all_shipments groups (g : group) :
  login w = Ok None →
  crawl strip lower strptime ("https://example-pvs-" +:+ pvs +:+ ".local")
    (datetime.strftime_Ymd (today w)) 1 (listing w) [] = all_shipments →
  all_shipments ≠ [] →
  enrich (detail_pages w) (finished w) (sort_asc created_dt all_shipments)
    ≫= grouping_engine = Ok groups →
  g ∈ groups →
  clash (report_start_times strip strptime g)
  ∨ (report_group_status g = closed ∧ clash (report_close_times strip strptime g)) →
  (∃ msg saved,
     process_pvs strip lower strptime pvs w
     = (Error ("Critical error: " +:+ msg), saved))
  ∧ (∀ t, min_or_None [t] = Ok t ∧ max_or_None [t] = Ok t)
  ∧ (∀ now idx today cnt secs,
       (∃ row, save_group_to_db strip lower strptime now pvs g idx today cnt secs
               = Ok row)
       ∨ (∃ msg, save_group_to_db strip lower strptime now pvs g idx today cnt secs
                 = Raise (ValueError msg))).
Proof.
  intros Hlogin Hcrawl Hne Hgroups Hin Hclash. split; [|split].
  - eapply process_pvs_report_raises; try done.
    intros now. destruct Hclash as [Hstart|[Hst Hclose]].
    + destruct (aggregate_start_clash strip strptime now g Hstart) as [msg ->].
      by eexists.
    + destruct (aggregate_close_clash strip strptime now g Hst Hclose) as [msg ->].
      by eexists.
  - done.
  - intros. apply save_group_to_db_total.
Qed.

(** ** When the row of a group is built *)

Section Store.
Variables (strip lower : string → string) (strptime : string → result datetime.t).

Lemma omap_present_nil (xs : list (option datetime.t)) :
  omap (λ t, t) xs = [] ↔ Forall (λ t, t = None) xs.
Proof.
  induction xs as [|[t|] xs IH]; cbn.
  - split; [constructor|done].
  - split; [done|]. by intros [? _]%Forall_cons.
  - rewrite IH. split; [by constructor|by intros [_ ?]%Forall_cons].
Qed.

Lemma min_present_raises xs :
  (∃ e, min_present xs = Raise e) ↔ none_parsed xs.
Proof.
  unfold none_parsed. rewrite <- omap_present_nil.
  destruct xs as [|x xs]; [split; [by intros [e ?]|by intros [? _]]|].
  unfold min_present.
  destruct (omap (λ t, t) (x :: xs)) as [|b ts].
  - split; [done|]. intros _. by eexists.
  - destruct (extremum_total_from datetime.ltb ts b) as [m Hm].
    unfold min_dt. cbn. rewrite Hm. cbn. split; [by intros [e ?]|by intros [_ ?]].
Qed.

Lemma max_present_raises xs :
  (∃ e, max_present xs = Raise e) ↔ none_parsed xs.
Proof.
  unfold none_parsed. rewrite <- omap_present_nil.
  destruct xs as [|x xs]; [split; [by intros [e ?]|by intros [? _]]|].
  unfold max_present.
  destruct (omap (λ t, t) (x :: xs)) as [|b ts].
  - split; [done|]. intros _. by eexists.
  - destruct (extremum_total_from datetime.gtb ts b) as [m Hm].
    unfold max_dt. cbn. rewrite Hm. cbn. split; [by intros [e ?]|by intros [_ ?]].
Qed.

Lemma min_dt_raises xs : (∃ e, min_dt xs = Raise e) ↔ xs = [].
Proof.
  destruct xs as [|x xs]; [split; [done|by eexists]|].
  destruct (extremum_total_from datetime.ltb xs x) as [m Hm].
  unfold min_dt. cbn. rewrite Hm. split; [by intros [e ?]|done].
Qed.

End Store.

(** The body of [save_group_to_db] raises before it reaches the database
    exactly for a group without members, for a group that has unload-start
    texts other than the placeholder of which none parses, and for a group
    whose members are all closed and that has close texts other than the
    placeholder of which none parses. *)
Lemma save_group_to_db_raises_iff (strip lower : string → string)
    (strptime : string → result datetime.t) now pvs (g : group) idx today cnt secs :
  (∃ e, save_group_to_db strip lower strptime now pvs g idx today cnt secs = Raise e)
  ↔ g = []
    ∨ none_parsed (db_start_times strip strptime g)
    ∨ (Forall (λ s : enriched, lower (status s) = "closed") g
       ∧ none_parsed (db_close_times strip strptime g)).
Proof.
  unfold save_group_to_db.
  assert ((∃ e, min_dt (map (λ s : enriched, created_dt s) g) = Raise e) ↔ g = [])
    as Hcreated.
  { rewrite min_dt_raises. split; [apply map_eq_nil|by intros ->]. }
  pose proof (min_present_raises (db_start_times strip strptime g)) as Hstart.
  pose proof (max_present_raises (db_close_times strip strptime g)) as Hclose.
  assert (forallb (λ s, bool_decide (s = "closed"))
            (map (λ s : enriched, lower (status s)) g) = true
          ↔ Forall (λ s : enriched, lower (status s) = "closed") g) as Hall.
  { rewrite all_equal_Forall. by rewrite Forall_fmap. }
  destruct (min_dt _) as [created|e1].
  - assert (g ≠ []) as Hne.
    { intros ->. destruct (proj2 Hcreated eq_refl). done. }
    clear Hcreated. cbn.
    destruct (min_present _) as [started|e2]; cbn.
    + assert (¬ none_parsed (db_start_times strip strptime g)) as Hs.
      { intros [e He]%Hstart. done. }
      destruct (forallb _ _).
      * destruct (max_present _) as [closed_at|e3]; cbn.
        -- split; [by intros [e ?]|]. intros [?|[?|[_ [e ?]%Hclose]]]; done.
        -- split; [|by eexists]. intros _. right. right.
           split; [by apply Hall|]. apply Hclose. by eexists.
      * cbn. split; [by intros [e ?]|].
        intros [?|[?|[Hc _]]]; [done|done|]. by apply Hall in Hc.
    + split; [|by eexists]. intros _. right. left. apply Hstart. by eexists.
  - cbn. split; [|by eexists]. intros _. left. apply Hcreated. by eexists.
Qed.


(** ** The status and the duration of a group *)

Lemma min_or_None_absent xs :
  min_or_None xs = Ok None → xs = [] ∨ xs = [None].
Proof.
  intros Hmin. destruct xs as [|x [|y xs]]; [by left| |].
  - rewrite min_or_None_single in Hmin. injection Hmin as ->. by right.
  - destruct (decide (None ∈ x :: y :: xs)) as [Hnone|Hnone].
    + assert (clash (x :: y :: xs)) as Hclash by (split; [cbn; lia|done]).
      apply min_or_None_raises_iff in Hclash as [e He]. by rewrite He in Hmin.
    + rewrite (all_present _ Hnone) in Hmin.
      destruct (omap (λ t, t) (x :: y :: xs)) as [|b ts] eqn:Hpresent.
      { apply (f_equal length) in Hpresent.
        pose proof (f_equal length (all_present _ Hnone)) as Hlen.
        rewrite length_fmap, Hpresent in Hlen. done. }
      cbn in Hmin. rewrite py_min_present_from in Hmin.
      by destruct (extremum_from _ b ts).
Qed.

Lemma max_or_None_absent xs :
  max_or_None xs = Ok None → xs = [] ∨ xs = [None].
Proof.
  intros Hmax. destruct xs as [|x [|y xs]]; [by left| |].
  - injection Hmax as ->. by right.
  - destruct (decide (None ∈ x :: y :: xs)) as [Hnone|Hnone].
    + assert (clash (x :: y :: xs)) as Hclash by (split; [cbn; lia|done]).
      apply max_or_None_raises_iff in Hclash as [e He]. by rewrite He in Hmax.
    + rewrite (all_present _ Hnone) in Hmax.
      destruct (omap (λ t, t) (x :: y :: xs)) as [|b ts] eqn:Hpresent.
      { apply (f_equal length) in Hpresent.
        pose proof (f_equal length (all_present _ Hnone)) as Hlen.
        rewrite length_fmap, Hpresent in Hlen. done. }
      cbn in Hmax. rewrite py_max_present_from in Hmax.
      by destruct (extremum_from _ b ts).
Qed.

Section Returns.
Variables (strip lower : string → string) (strptime : string → result datetime.t).

(** The report of a group is built unless the group is empty or [min] or
    [max] has to compare a timestamp that did not parse. *)
Lemma aggregate_group_returns now (g : group) :
  g ≠ [] →
  ¬ clash (report_start_times strip strptime g) →
  ¬ clash (report_close_times strip strptime g) →
  ∃ a, aggregate_group strip strptime now g = Ok a.
Proof.
  intros Hne Hstart Hclose.
  destruct (min_or_None (report_start_times strip strptime g)) as [es|e] eqn:Hes.
  2: { destruct Hstart. apply min_or_None_raises_iff. by exists e. }
  assert (∃ lc, report_latest_close strip strptime g (report_group_status g) = Ok lc)
    as [lc Hlc].
  { unfold report_latest_close. destruct (report_group_status g); try by eexists.
    destruct (max_or_None (report_close_times strip strptime g)) as [lc|e] eqn:Hmax;
      [by eexists|].
    destruct Hclose. apply max_or_None_raises_iff. by exists e. }
  assert (map (λ s : enriched, created_dt s) g ≠ []) as Hcreated
    by (by destruct g).
  destruct (extremum_total datetime.ltb "min" (map (λ s : enriched, created_dt s) g))
    as [[first Hfirst]|[? _]]; [|done].
  destruct (extremum_total datetime.gtb "max" (map (λ s : enriched, created_dt s) g))
    as [[last Hlast]|[? _]]; [|done].
  eexists. by apply (aggregate_group_intro strip strptime now g es lc first last).
Qed.

(** The row of a group is built unless the group is empty or a [min] or
    [max] inside [save_group_to_db] finds no timestamp that parsed. *)
Lemma save_group_to_db_returns now pvs (g : group) idx today cnt secs :
  g ≠ [] →
  ¬ none_parsed (db_start_times strip strptime g) →
  ¬ (Forall (λ s : enriched, lower (status s) = "closed") g
     ∧ none_parsed (db_close_times strip strptime g)) →
  ∃ row, save_group_to_db strip lower strptime now pvs g idx today cnt secs = Ok row.
Proof.
  intros Hne Hstart Hclose.
  destruct (save_group_to_db strip lower strptime now pvs g idx today cnt secs)
    as [row|e] eqn:Hsave; [by eexists|].
  assert (∃ e, save_group_to_db strip lower strptime now pvs g idx today cnt secs
               = Raise e) as Hraise by (by exists e).
  apply save_group_to_db_raises_iff in Hraise as [?|[?|?]]; done.
Qed.

End Returns.

(** C3.  For a group whose member statuses are in lower case, as the crawler
    stores them: if some member is in progress the status of the group is
    [in_progress]; else if all members are pending it is [pending]; else it
    is [closed], which covers a mix of pending and closed members.  The
    status depends only on the multiset of the member statuses.  This is the
    status every report of the group carries and the status of every row
    [save_group_to_db] builds for the group; the report exists unless the
    group is empty or a timestamp that did not parse has to be compared, the
    row unless the group is empty or no timestamp of a kind parsed. *)
Theorem group_status_precedence (strip lower : string → string)
    (strptime : string → result datetime.t) (g : group) :
  Forall (λ s : enriched, lower (status s) = status s) g →
  let st := report_group_status g in
  let some_in_progress := Exists (λ s : enriched, status s = "in_progress") g in
  let all_pending := Forall (λ s : enriched, status s = "pending") g in
  (some_in_progress → st = in_progress)
  ∧ (¬ some_in_progress → all_pending → st = pending)
  ∧ (¬ some_in_progress → ¬ all_pending → st = closed)
  ∧ (∀ g' : group,
       map (λ s : enriched, status s) g' ≡ₚ map (λ s : enriched, status s) g →
       report_group_status g' = st)
  ∧ db_group_status (map (λ s : enriched, lower (status s)) g) = st
  ∧ (∀ now a, aggregate_group strip strptime now g = Ok a → agg_status a = st)
  ∧ (∀ (g' : group) now a',
       map (λ s : enriched, status s) g' ≡ₚ map (λ s : enriched, status s) g →
       aggregate_group strip strptime now g' = Ok a' → agg_status a' = st)
  ∧ (∀ db_now pvs idx today cnt secs row,
       save_group_to_db strip lower strptime db_now pvs g idx today cnt secs = Ok row →
       db_status row = st)
  ∧ (∀ now,
       g ≠ [] →
       ¬ clash (report_start_times strip strptime g) →
       ¬ clash (report_close_times strip strptime g) →
       ∃ a, aggregate_group strip strptime now g = Ok a ∧ agg_status a = st)
  ∧ (∀ db_now pvs idx today cnt secs,
       g ≠ [] →
       ¬ none_parsed (db_start_times strip strptime g) →
       ¬ (Forall (λ s : enriched, lower (status s) = "closed") g
          ∧ none_parsed (db_close_times strip strptime g)) →
       ∃ row,
         save_group_to_db strip lower strptime db_now pvs g idx today cnt secs = Ok row
         ∧ db_status row = st).
Proof.
  intros Hlow st some_in_progress all_pending. subst st.
  assert (db_group_status (map (λ s : enriched, lower (status s)) g)
          = report_group_status g) as Hdb.
  { rewrite <- db_group_status_eq. f_equal. by apply Forall_fmap_ext. }
  assert (∀ (g' : group) now a,
            aggregate_group strip strptime now g' = Ok a →
            agg_status a = report_group_status g') as Hreport.
  { intros g' now a.
    by intros (es & lc & first & last & _ & _ & _ & _ & ->)%aggregate_group_Ok. }
  assert (∀ db_now pvs idx today cnt secs row,
            save_group_to_db strip lower strptime db_now pvs g idx today cnt secs
            = Ok row →
            db_status row = report_group_status g) as Hstored.
  { intros db_now pvs idx today cnt secs row Hsave.
    apply save_group_to_db_Ok in Hsave as (-> & _). exact Hdb. }
  split; [apply report_group_status_in_progress|].
  split; [|split; [|split; [|split; [|split; [|split; [|split; [|split]]]]]]].
  - intros Hno Hall. rewrite report_group_status_not_in_progress by done.
    rewrite (proj2 (all_equal_Forall _ _)); [done|].
    by apply Forall_fmap.
  - intros Hno Hnall. rewrite report_group_status_not_in_progress by done.
    destruct (forallb _ _) eqn:Hall; [|done].
    destruct Hnall. apply all_equal_Forall in Hall.
    by apply Forall_fmap in Hall.
  - intros g'. apply report_group_status_perm.
  - exact Hdb.
  - intros now a. apply Hreport.
  - intros g' now a' Hperm Ha'. rewrite (Hreport g' now a' Ha').
    by apply report_group_status_perm.
  - exact Hstored.
  - intros now Hne Hstart Hclose.
    destruct (aggregate_group_returns strip strptime now g Hne Hstart Hclose)
      as [a Ha].
    exists a. split; [done|]. by eapply Hreport.
  - intros db_now pvs idx today cnt secs Hne Hstart Hclose.
    destruct (save_group_to_db_returns strip lower strptime db_now pvs g idx today
                cnt secs Hne Hstart Hclose) as [row Hrow].
    exists row. split; [done|]. by eapply Hstored.
Qed.

(** C4.  When the report of a group is built, its status is the status
    derived from the members, its earliest unload start is the earliest of
    the members' unload-start times and its latest close time, which only a
    closed group has, the latest of the members' close times.  If the group
    is closed and has both an earliest unload start and a latest close time,
    the duration in seconds is their difference with the fraction of a
    second dropped, and the displayed duration is that difference; otherwise
    the duration in seconds is zero and the displayed duration is the time
    from the earliest unload start to the clock reading, or zero when no
    unload start exists.  The value stored by [save_group_to_db] is the
    duration in seconds, so only a closed group with both timestamps can
    store a nonzero one.  The report is built unless the group is empty or a
    timestamp that did not parse has to be compared. *)
Theorem duration_rule (strip lower : string → string)
    (strptime : string → result datetime.t) now (g : group) a :
  aggregate_group strip strptime now g = Ok a →
  agg_status a = report_group_status g
  ∧ match earliest_start a with
    | Some es =>
        Some es ∈ report_start_times strip strptime g
        ∧ ∀ t, Some t ∈ report_start_times strip strptime g →
               datetime.leb es t = true
    | None =>
        report_start_times strip strptime g = []
        ∨ report_start_times strip strptime g = [None]
    end
  ∧ match latest_close a with
    | Some lc =>
        agg_status a = closed
        ∧ Some lc ∈ report_close_times strip strptime g
        ∧ ∀ t, Some t ∈ report_close_times strip strptime g →
               datetime.leb t lc = true
    | None =>
        agg_status a ≠ closed
        ∨ report_close_times strip strptime g = []
        ∨ report_close_times strip strptime g = [None]
    end
  ∧ match agg_status a, earliest_start a, latest_close a with
    | closed, Some es, Some lc =>
        duration_seconds a = Z.quot (timedelta.sub lc es) 1000000
        ∧ duration_str a = before_dot (timedelta.str (timedelta.sub lc es))
    | _, Some es, _ =>
        duration_seconds a = 0
        ∧ duration_str a = before_dot (timedelta.str (timedelta.sub now es))
    | _, None, _ =>
        duration_seconds a = 0 ∧ duration_str a = "0:00:00"
    end
  ∧ (∀ db_now pvs idx today row,
       save_group_to_db strip lower strptime db_now pvs g idx today
         (count a) (duration_seconds a) = Ok row →
       unload_duration_seconds row = duration_seconds a)
  ∧ (∀ now',
       g ≠ [] →
       ¬ clash (report_start_times strip strptime g) →
       ¬ clash (report_close_times strip strptime g) →
       ∃ a', aggregate_group strip strptime now' g = Ok a').
Proof.
  intros (es & lc & first & last & Hes & Hlc & _ & _ & ->)%aggregate_group_Ok.
  cbn [agg_status earliest_start latest_close duration_seconds duration_str count].
  split; [done|]. split; [|split; [|split; [|split]]].
  - destruct es as [es|].
    + by apply min_or_None_least.
    + by apply min_or_None_absent.
  - unfold report_latest_close in Hlc.
    destruct (report_group_status g) eqn:Hst.
    + injection Hlc as <-. by left.
    + injection Hlc as <-. by left.
    + destruct lc as [lc|].
      * split; [done|]. by apply max_or_None_greatest.
      * right. by apply max_or_None_absent.
  - pose proof (report_duration_cases now (report_group_status g) es lc) as Hcases.
    destruct (report_group_status g), es, lc; by rewrite Hcases.
  - intros db_now pvs idx today row Hsave.
    by apply save_group_to_db_Ok in Hsave as (_ & _ & _ & _ & _ & _ & _ & ->).
  - intros now'. apply aggregate_group_returns.
Qed.

(** ** The theorems at concrete inputs *)

Lemma group_status_precedence_witness :
  Forall (λ s : enriched, ascii_lib.lower (status s) = status s)
    [mixed_pending; mixed_closed]
  ∧ report_group_status [mixed_pending; mixed_closed] = closed
  ∧ (∃ a,
       aggregate_group ascii_lib.strip ascii_lib.strptime (on_day 12 0)
         [mixed_pending; mixed_closed] = Ok a
       ∧ agg_status a = closed)
  ∧ (∃ row,
       save_group_to_db ascii_lib.strip ascii_lib.lower ascii_lib.strptime
         (on_day 12 0) "site1" [mixed_pending; mixed_closed] 1 "2024-03-15" 2 1500
       = Ok row
       ∧ db_status row = closed).
Proof.
  assert (Forall (λ s : enriched, ascii_lib.lower (status s) = status s)
            [mixed_pending; mixed_closed]) as Hlow
    by (repeat constructor).
  split; [exact Hlow|].
  destruct (group_status_precedence ascii_lib.strip ascii_lib.lower ascii_lib.strptime
              [mixed_pending; mixed_closed] Hlow)
    as (_ & _ & Hclosed & _ & _ & _ & _ & _ & Hreport & Hstore).
  assert (report_group_status [mixed_pending; mixed_closed] = closed) as Hst.
  { apply Hclosed.
    - intros Hex. apply Exists_exists in Hex as (s & Hs & Hin_progress).
      apply elem_of_cons in Hs as [->|Hs]; [done|].
      apply list_elem_of_singleton in Hs as ->. done.
    - intros Hall. by apply Forall_cons in Hall as [_ [? _]%Forall_cons]. }
  split; [exact Hst|]. rewrite <- Hst. split.
  - apply (Hreport (on_day 12 0)); [done| |].
    + intros [Hlen _]. vm_compute in Hlen. lia.
    + intros [Hlen _]. vm_compute in Hlen. lia.
  - apply (Hstore (on_day 12 0) "site1" 1 "2024-03-15" 2 1500); [done| |].
    + intros [_ Hnone]. vm_compute in Hnone.
      by apply Forall_cons in Hnone as [? _].
    + intros [Hall _]. by apply Forall_cons in Hall as [? _].
Defined.

Lemma duration_rule_witness :
  aggregate_group ascii_lib.strip ascii_lib.strptime (on_day 12 0) [night_1; night_2]
  = Ok night_report
  ∧ Some (on_day 2 15)
    ∈ report_start_times ascii_lib.strip ascii_lib.strptime [night_1; night_2]
  ∧ Some (on_day 3 0)
    ∈ report_close_times ascii_lib.strip ascii_lib.strptime [night_1; night_2]
  ∧ duration_seconds night_report
    = Z.quot (timedelta.sub (on_day 3 0) (on_day 2 15)) 1000000.
Proof.
  assert (aggregate_group ascii_lib.strip ascii_lib.strptime (on_day 12 0)
            [night_1; night_2] = Ok night_report) as Hagg
    by (vm_compute; reflexivity).
  split; [exact Hagg|].
  destruct (duration_rule ascii_lib.strip ascii_lib.lower ascii_lib.strptime
              (on_day 12 0) [night_1; night_2] night_report Hagg)
    as (_ & [Hstart _] & (_ & Hclose & _) & [Hsecs _] & _).
  split; [exact Hstart|]. split; [exact Hclose|]. exact Hsecs.
Defined.

Lemma aggregation_repeatable_up_to_clock_witness :
  aggregate_group ascii_lib.strip ascii_lib.strptime (on_day 12 0) [night_1; night_2]
  = Ok night_report
  ∧ ∃ a2,
      aggregate_group ascii_lib.strip ascii_lib.strptime (on_day 18 30)
        [night_1; night_2] = Ok a2
      ∧ clock_free a2 = clock_free night_report.
Proof.
  assert (aggregate_group ascii_lib.strip ascii_lib.strptime (on_day 12 0)
            [night_1; night_2] = Ok night_report) as Hagg
    by (vm_compute; reflexivity).
  split; [exact Hagg|].
  destruct (aggregation_repeatable_up_to_clock ascii_lib.strip ascii_lib.strptime
              (on_day 12 0) (on_day 18 30) [night_1; night_2] night_report Hagg)
    as (a2 & Ha2 & Hfree & _).
  by exists a2.
Defined.

Lemma unparseable_time_among_several_is_critical_witness :
  login clash_world = Ok None
  ∧ clash_shipments ≠ []
  ∧ enrich (detail_pages clash_world) (finished clash_world)
      (sort_asc created_dt clash_shipments) ≫= grouping_engine = Ok [clash_group]
  ∧ clash (report_start_times ascii_lib.strip ascii_lib.strptime clash_group)
  ∧ ∃ msg saved,
      process_pvs ascii_lib.strip ascii_lib.lower ascii_lib.strptime "site1" clash_world
      = (Error ("Critical error: " +:+ msg), saved).
Proof.
  assert (login clash_world = Ok None) as Hlogin by reflexivity.
  assert (clash_shipments ≠ []) as Hne by (vm_compute; congruence).
  assert (enrich (detail_pages clash_world) (finished clash_world)
            (sort_asc created_dt clash_shipments) ≫= grouping_engine
          = Ok [clash_group]) as Hgroups by (vm_compute; reflexivity).
  assert (clash (report_start_times ascii_lib.strip ascii_lib.strptime clash_group))
    as Hclash.
  { split; [vm_compute; lia|]. vm_compute. apply list_elem_of_here. }
  repeat (split; [assumption|]).
  apply (unparseable_time_among_several_is_critical
           ascii_lib.strip ascii_lib.lower ascii_lib.strptime
           "site1" clash_world clash_shipments [clash_group] clash_group
           Hlogin eq_refl Hne Hgroups (list_elem_of_here _ _) (or_introl Hclash)).
Defined.

(** ** Formatting and parsing on samples *)

Example str_timedelta_minutes : timedelta.str 2700000000 = "0:45:00".
Proof. vm_compute. reflexivity. Qed.

Example str_timedelta_negative : timedelta.str (-1) = "-1 day, 23:59:59.999999".
Proof. vm_compute. reflexivity. Qed.

Example str_timedelta_before_dot :
  before_dot (timedelta.str 90061000007) = "1 day, 1:01:01".
Proof. vm_compute. reflexivity. Qed.

Example strptime_sample :
  parse_datetime ascii_lib.strip ascii_lib.strptime " 2024-02-29 09:40:05 "
  = Some (datetime.mk 2024 2 29 9 40 5 0).
Proof. vm_compute. reflexivity. Qed.

Example strptime_empty_cell :
  parse_datetime ascii_lib.strip ascii_lib.strptime "" = None.
Proof. vm_compute. reflexivity. Qed.

Example critical_error_text :
  (process_pvs ascii_lib.strip ascii_lib.lower ascii_lib.strptime "site1" clash_world).1
  = Error ("Critical error: '<' not supported between instances of "
           +:+ "'datetime.datetime' and 'NoneType'").
Proof. vm_compute. reflexivity. Qed.

(** A source that cannot be reached and a source that answers: the failed
    run, which finishes first, leaves its error text, and the other run still
    delivers its report. *)
Example main_isolates_failure :
  main ascii_lib.strip ascii_lib.lower ascii_lib.strptime
    [("site1", quiet_world [lone_row]); ("site2", unreachable_world)] [1; 0]%nat
  = ["Ошибка site2: Critical error: Read timed out.";
     unlines
       ["📍 ПВЗ: site1";
        "Group: 1"; "Date: 2024-03-15"; "Arrival window: 09:00 – 09:00";
        "Closed at: -"; "Unload started: -"; "Unload duration: 0:00:00";
        "Status: Pending"; "Boxes: 1"; "Sent: 3"; "Received: 3"; "Excess: 0"]].
Proof. vm_compute. reflexivity. Qed.

(** * Further properties *)

(** ** The paginated listing *)

Section Listing.
Variables (strip lower : string → string) (strptime : string → result datetime.t).
Variables (base_url today_date : string).

Let stored (r : row) : option shipment :=
  appended strip lower strptime base_url today_date r.

Lemma read_rows_prefix rows : ∀ all_shipments found,
  ∃ read,
    read `prefix_of` rows
    ∧ (read_rows strip lower strptime base_url today_date rows all_shipments found).1.1
      = all_shipments ++ omap stored read
    ∧ ((read_rows strip lower strptime base_url today_date rows all_shipments found).2
       = false → read = rows).
Proof.
  induction rows as [|r rows IH]; intros all_shipments found.
  - exists []. by rewrite app_nil_r.
  - cbn. destruct (read_row _ _ _ _ _ r) as [[s|]|e] eqn:Hrow.
    + destruct (IH (all_shipments ++ [s]) true) as (read & Hpre & Heq & Hall).
      exists (r :: read). split; [by apply prefix_cons|].
      split.
      * rewrite Heq. cbn. unfold stored at 2, appended. rewrite Hrow.
        by rewrite <- app_assoc.
      * intros Hraised. by rewrite Hall.
    + destruct (IH all_shipments found) as (read & Hpre & Heq & Hall).
      exists (r :: read). split; [by apply prefix_cons|].
      split.
      * rewrite Heq. cbn. unfold stored at 2, appended. by rewrite Hrow.
      * intros Hraised. by rewrite Hall.
    + exists []. split; [apply prefix_nil|]. by rewrite app_nil_r.
Qed.

Lemma crawl_prefix responses : ∀ page all_shipments,
  ∃ read,
    read `prefix_of` listed_rows responses
    ∧ crawl strip lower strptime base_url today_date page responses all_shipments
      = all_shipments ++ omap stored read.
Proof.
  induction responses as [|response responses IH]; intros page all_shipments.
  - exists []. by rewrite app_nil_r.
  - assert (∀ rows' : list row,
      ∃ read, read `prefix_of` rows' ∧ all_shipments = all_shipments ++ omap stored read)
      as Hstop.
    { intros rows'. exists []. split; [apply prefix_nil|by rewrite app_nil_r]. }
    cbn. destruct response as [[status_code rows]|e]; [|apply Hstop].
    destruct (negb _); [apply Hstop|].
    destruct rows as [|r rows]; [apply Hstop|].
    cbn [listed_rows omap list_omap concat].
    destruct (read_rows_prefix (r :: rows) all_shipments false)
      as (read & Hpre & Heq & Hall).
    destruct (read_rows _ _ _ _ _ (r :: rows) all_shipments false)
      as [[acc found] raised].
    cbn in Heq, Hall. subst acc.
    assert (∃ read', read' `prefix_of` (r :: rows) ++ listed_rows responses
                     ∧ all_shipments ++ omap stored read
                       = all_shipments ++ omap stored read') as Hhere.
    { exists read. split; [by apply prefix_app_r|done]. }
    destruct raised; [apply Hhere|].
    destruct (negb found && _); [apply Hhere|].
    destruct (_ <? 20); [apply Hhere|].
    rewrite (Hall eq_refl).
    destruct (IH (page + 1) (all_shipments ++ omap stored (r :: rows)))
      as (more & Hmore & ->).
    exists ((r :: rows) ++ more). split; [by apply prefix_app|].
    by rewrite omap_app, app_assoc.
Qed.

Lemma read_row_well_listed r s :
  read_row strip lower strptime base_url today_date r = Ok (Some s) →
  well_listed strip lower strptime base_url today_date s.
Proof.
  unfold read_row, well_listed. intros Hrow.
  destruct (cell_createdAt r) as [created_text|]; [|done].
  destruct (String.prefix today_date created_text) eqn:Hday; [|done].
  cbn in Hrow.
  destruct (cell_externalId_a r) as [[text [href|]]|]; try done;
    (destruct (cell_status r) as [st|]; [|done]);
    (destruct (cell_unloadStartedAt r) as [us|]; [|done]);
    cbn in Hrow;
    (destruct (parse_datetime _ _ created_text) as [dt|] eqn:Hparse; [|done]);
    injection Hrow as <-; cbn;
    (split; [done|]); (split; [done|]); (split; [by exists st|]);
    (split; [intros Hst; by rewrite bool_decide_false|]).
  - by exists href.
  - done.
Qed.
End Listing.

(** X1.  The crawler returns what it had collected, followed by the shipments
    that the rows of an initial part of the listing give, in the order of the
    listing: nothing collected is dropped or reordered, and nothing is added
    that is not a row of the listing, whichever page ends the loop. *)
Theorem crawl_collects_listing_prefix (strip lower : string → string)
    (strptime : string → result datetime.t) (base_url today_date : string)
    (page : Z) (responses : list (result (Z * list row)))
    (all_shipments : list shipment) :
  ∃ read,
    read `prefix_of` listed_rows responses
    ∧ crawl strip lower strptime base_url today_date page responses all_shipments
      = all_shipments
        ++ omap (appended strip lower strptime base_url today_date) read.
Proof. apply crawl_prefix. Qed.

(** X2.  Every shipment the crawler stores was created today (its creation
    text starts with today's date), carries the parsed creation text as its
    creation time, has a lower-cased status, has the placeholder as close
    text unless its status is closed, and has either a detail link under the
    base address or no link and the placeholder identifier. *)
Theorem crawl_stores_well_listed (strip lower : string → string)
    (strptime : string → result datetime.t) (base_url today_date : string)
    (page : Z) (responses : list (result (Z * list row))) :
  Forall (well_listed strip lower strptime base_url today_date)
    (crawl strip lower strptime base_url today_date page responses []).
Proof.
  destruct (crawl_prefix strip lower strptime base_url today_date responses page [])
    as (read & _ & ->).
  cbn. apply Forall_forall. intros s (r & Hr & Hs)%list_elem_of_omap.
  apply (read_row_well_listed strip lower strptime base_url today_date r).
  unfold appended in Hs.
  destruct (read_row _ _ _ _ _ r) as [[s'|]|]; by simplify_eq.
Qed.

(** X3.  After a failed request, an answer with a status other than 200 or
    a page of fewer than 20 rows the crawler looks at no further page: what
    the site would answer afterwards does not matter. *)
Theorem crawl_ignores_pages_after_end (strip lower : string → string)
    (strptime : string → result datetime.t) (base_url today_date : string)
    (responses more : list (result (Z * list row)))
    (last_response : result (Z * list row)) :
  ends_listing last_response →
  ∀ page all_shipments,
    crawl strip lower strptime base_url today_date page
      (responses ++ last_response :: more) all_shipments
    = crawl strip lower strptime base_url today_date page
        (responses ++ [last_response]) all_shipments.
Proof.
  intros Hend.
  induction responses as [|response responses IH]; intros page all_shipments.
  - cbn. destruct last_response as [[status_code rows]|e]; [|done].
    cbn in Hend. destruct (negb (status_code =? 200)) eqn:Hcode; [done|].
    destruct Hend as [Hne|Hshort].
    { apply negb_false_iff, Z.eqb_eq in Hcode. done. }
    destruct rows as [|r rows]; [done|].
    destruct (read_rows _ _ _ _ _ (r :: rows) all_shipments false)
      as [[acc found] raised].
    destruct raised; [done|]. destruct (negb found && _); [done|].
    rewrite (proj2 (Z.ltb_lt _ _)); [done|]. lia.
  - cbn. destruct response as [[status_code rows]|e]; [|done].
    destruct (negb _); [done|]. destruct rows as [|r rows]; [done|].
    destruct (read_rows _ _ _ _ _ (r :: rows) all_shipments false)
      as [[acc found] raised].
    destruct raised; [done|]. destruct (negb found && _); [done|].
    destruct (_ <? 20); [done|]. apply IH.
Qed.

Section ListingComplete.
Variables (strip lower : string → string) (strptime : string → result datetime.t).
Variables (base_url today_date : string).

Let stored (r : row) : option shipment :=
  appended strip lower strptime base_url today_date r.

Lemma read_rows_readable rows : ∀ all_shipments found,
  readable strip lower strptime base_url today_date rows →
  read_rows strip lower strptime base_url today_date rows all_shipments found
  = (all_shipments ++ omap stored rows,
     found || match omap stored rows with [] => false | _ => true end,
     false).
Proof.
  induction rows as [|r rows IH]; intros all_shipments found Hread.
  - cbn. by rewrite app_nil_r, orb_false_r.
  - apply Forall_cons in Hread as [[o Hr] Hread].
    assert (stored r = o) as Hstored
      by (unfold stored, appended; rewrite Hr; by destruct o).
    cbn. rewrite Hr, Hstored. destruct o as [s|].
    + rewrite IH by done. rewrite <- app_assoc. cbn. by rewrite orb_true_r.
    + by rewrite IH.
Qed.

End ListingComplete.


(** X18.  A page of at least 20 rows that can all be read and of which none
    is a shipment of today ends the crawl when it is the second page or a
    later one.  As the first page it is passed over: the crawl goes on with
    the second page. *)
Theorem stale_page_ends_crawl_after_first (strip lower : string → string)
    (strptime : string → result datetime.t) (base_url today_date : string)
    (page : Z) (rows : list row) (more : list (result (Z * list row)))
    (all_shipments : list shipment) :
  readable strip lower strptime base_url today_date rows →
  (20 ≤ length rows)%nat →
  omap (appended strip lower strptime base_url today_date) rows = [] →
  crawl strip lower strptime base_url today_date page
    (Ok (200, rows) :: more) all_shipments
  = if 1 <? page then all_shipments
    else crawl strip lower strptime base_url today_date (page + 1) more all_shipments.
Proof.
  intros Hread Hlen Hnone. cbn.
  destruct rows as [|r rows]; [cbn in Hlen; lia|].
  pose proof (read_rows_readable strip lower strptime base_url today_date
                (r :: rows) all_shipments false Hread) as Hpage.
  assert (omap (λ r' : row, appended strip lower strptime base_url today_date r')
            (r :: rows) = []) as Hnone' by exact Hnone.
  rewrite Hnone', app_nil_r in Hpage.
  rewrite Hpage. cbn [orb negb andb].
  destruct (1 <? page); [done|].
  by rewrite (proj2 (Z.ltb_ge _ _)) by lia.
Qed.

(** ** Runs that end and runs that do not *)

Section Loop.
Variables (strip lower : string → string) (strptime : string → result datetime.t).

(** A crawl that ends has asked for the pages [page], [page + 1], ... and
    returns what the crawl of those answers returns. *)
Lemma crawl_loop_finite base_url today_date site fuel :
  ∀ page all_shipments r,
    crawl_loop strip lower strptime base_url today_date fuel site page all_shipments
    = Some r →
    crawl strip lower strptime base_url today_date page
      (map site (pages_from page fuel)) all_shipments = r.
Proof.
  induction fuel as [|fuel IH]; intros page all_shipments r Hloop; [done|].
  cbn in Hloop |- *.
  destruct (site page) as [[status_code rows]|e]; [|by injection Hloop].
  destruct (negb _); [by injection Hloop|].
  destruct rows as [|r0 rows]; [by injection Hloop|].
  destruct (read_rows _ _ _ _ _ (r0 :: rows) all_shipments false)
    as [[acc found] raised].
  destruct raised; [by injection Hloop|].
  destruct (negb found && _); [by injection Hloop|].
  destruct (_ <? 20); [by injection Hloop|].
  by apply IH.
Qed.

(** More requests do not change a crawl that has ended. *)
Lemma crawl_loop_more base_url today_date site fuel :
  ∀ fuel' page all_shipments r,
    (fuel ≤ fuel')%nat →
    crawl_loop strip lower strptime base_url today_date fuel site page all_shipments
    = Some r →
    crawl_loop strip lower strptime base_url today_date fuel' site page all_shipments
    = Some r.
Proof.
  induction fuel as [|fuel IH]; intros fuel' page all_shipments r Hle Hloop; [done|].
  destruct fuel' as [|fuel']; [lia|].
  cbn in Hloop |- *.
  destruct (site page) as [[status_code rows]|e]; [|done].
  destruct (negb _); [done|].
  destruct rows as [|r0 rows]; [done|].
  destruct (read_rows _ _ _ _ _ (r0 :: rows) all_shipments false)
    as [[acc found] raised].
  destruct raised; [done|].
  destruct (negb found && _); [done|].
  destruct (_ <? 20); [done|].
  apply IH; [lia|done].
Qed.

(** Whether the row loop raised, and whether it found a shipment of
    today. *)
Lemma read_rows_flags base_url today_date rows :
  ∀ all_shipments found,
    let '(_, found', raised) :=
      read_rows strip lower strptime base_url today_date rows all_shipments found in
    if raised : bool
    then ¬ readable strip lower strptime base_url today_date rows
    else readable strip lower strptime base_url today_date rows
         ∧ found'
           = found
             || match omap (appended strip lower strptime base_url today_date) rows
                with [] => false | _ => true end.
Proof.
  induction rows as [|r rows IH]; intros all_shipments found.
  - cbn. split; [constructor|by rewrite orb_false_r].
  - cbn [read_rows]. unfold readable, appended. cbn [omap list_omap].
    destruct (read_row strip lower strptime base_url today_date r)
      as [[s|]|e] eqn:Hr.
    + specialize (IH (all_shipments ++ [s]) true).
      destruct (read_rows _ _ _ _ _ rows (all_shipments ++ [s]) true)
        as [[acc found'] raised].
      destruct raised.
      * intros [_ Hrows]%Forall_cons. by apply IH.
      * destruct IH as [Hrows ->]. split; [|by rewrite orb_true_r].
        constructor; [by eexists|done].
    + specialize (IH all_shipments found).
      destruct (read_rows _ _ _ _ _ rows all_shipments found)
        as [[acc found'] raised].
      destruct raised.
      * intros [_ Hrows]%Forall_cons. by apply IH.
      * destruct IH as [Hrows ->]. split; [|done].
        constructor; [by eexists|done].
    + intros [[o Ho] _]%Forall_cons. congruence.
Qed.

(** The crawl ends exactly at the first page whose answer stops it. *)
Lemma crawl_loop_ends_iff base_url today_date site fuel :
  ∀ page all_shipments,
    is_Some (crawl_loop strip lower strptime base_url today_date fuel site page
               all_shipments)
    ↔ ∃ p : nat,
        (p < fuel)%nat
        ∧ stops_crawl strip lower strptime base_url today_date
            (page + Z.of_nat p) (site (page + Z.of_nat p)).
Proof.
  induction fuel as [|fuel IH]; intros page all_shipments.
  { split; [by intros [r ?]|]. intros (p & Hp & _). lia. }
  assert (∀ P : Z → Prop, ¬ P page →
            (∃ p : nat, (p < S fuel)%nat ∧ P (page + Z.of_nat p))
            ↔ (∃ p : nat, (p < fuel)%nat ∧ P (page + 1 + Z.of_nat p))) as Hshift.
  { intros P Hpage. split.
    - intros ([|p] & Hp & HP); [by rewrite Z.add_0_r in HP|].
      exists p. split; [lia|].
      by replace (page + 1 + Z.of_nat p) with (page + Z.of_nat (S p)) by lia.
    - intros (p & Hp & HP). exists (S p). split; [lia|].
      by replace (page + Z.of_nat (S p)) with (page + 1 + Z.of_nat p) by lia. }
  assert (∀ P : Z → Prop, P page →
            ∃ p : nat, (p < S fuel)%nat ∧ P (page + Z.of_nat p)) as Hhere.
  { intros P Hpage. exists 0%nat. split; [lia|]. by rewrite Z.add_0_r. }
  cbn [crawl_loop].
  destruct (site page) as [[status_code rows]|e] eqn:Hpage.
  2: { split; [|by eexists]. intros _.
       apply (Hhere (λ q, stops_crawl _ _ _ _ _ q (site q))). by rewrite Hpage. }
  destruct (negb (status_code =? 200)) eqn:Hcode.
  { split; [|by eexists]. intros _.
    apply (Hhere (λ q, stops_crawl _ _ _ _ _ q (site q))). rewrite Hpage. left.
    by apply negb_true_iff, Z.eqb_neq in Hcode. }
  apply negb_false_iff, Z.eqb_eq in Hcode as ->.
  destruct rows as [|r0 rows].
  { split; [|by eexists]. intros _.
    apply (Hhere (λ q, stops_crawl _ _ _ _ _ q (site q))). rewrite Hpage.
    right. left. cbn. lia. }
  pose proof (read_rows_flags base_url today_date (r0 :: rows) all_shipments false)
    as Hflags.
  destruct (read_rows _ _ _ _ _ (r0 :: rows) all_shipments false)
    as [[acc found] raised].
  destruct raised.
  { split; [|by eexists]. intros _.
    apply (Hhere (λ q, stops_crawl _ _ _ _ _ q (site q))). rewrite Hpage.
    right. right. by left. }
  destruct Hflags as [Hread Hfound]. cbn [orb] in Hfound.
  destruct (negb found && (1 <? page)) eqn:Hstale.
  { split; [|by eexists]. intros _.
    apply (Hhere (λ q, stops_crawl _ _ _ _ _ q (site q))). rewrite Hpage.
    apply andb_true_iff in Hstale as [Hnone Hlater].
    right. right. right. split; [by apply Z.ltb_lt|].
    apply negb_true_iff in Hnone. rewrite Hnone in Hfound.
    by destruct (omap _ (r0 :: rows)). }
  destruct (Z.of_nat (length (r0 :: rows)) <? 20) eqn:Hlen.
  { split; [|by eexists]. intros _.
    apply (Hhere (λ q, stops_crawl _ _ _ _ _ q (site q))). rewrite Hpage.
    right. left. apply Z.ltb_lt in Hlen. lia. }
  rewrite IH. symmetry.
  apply (Hshift (λ q, stops_crawl _ _ _ _ _ q (site q))).
  rewrite Hpage. intros [?|[Hshort|[Hraise|[Hlater Hnone]]]]; [done| |done|].
  - apply Z.ltb_ge in Hlen. lia.
  - apply andb_false_iff in Hstale as [Hsome|Hfirst].
    + apply negb_false_iff in Hsome. rewrite Hsome, Hnone in Hfound. done.
    + apply Z.ltb_ge in Hfirst. lia.
Qed.

Lemma process_pvs_loop_ends_iff fuel src :
  is_Some (process_pvs_loop strip lower strptime fuel (pvs src) (met src) (site src))
  ↔ run_ends strip lower strptime fuel src.
Proof.
  unfold process_pvs_loop, run_ends, listing_ends.
  pose proof (crawl_loop_ends_iff ("https://example-pvs-" +:+ pvs src +:+ ".local")
                (datetime.strftime_Ymd (today (met src))) (site src) fuel 1 [])
    as Hcrawl.
  destruct (login (met src)) as [[out|]|e].
  - split; [done|by eexists].
  - rewrite <- Hcrawl. destruct (crawl_loop _ _ _ _ _ _ _ _ _) as [all_shipments|].
    + split; [by eexists|]. intros _.
      destruct (after_crawl _ _ _ _ _ _ _) as [[out|e] saved]; by eexists.
    + split; [by intros [? ?]|]. intros Hsome. by destruct (Hsome eq_refl).
  - split; [done|by eexists].
Qed.

Lemma run_ends_more n fuel src :
  (n ≤ fuel)%nat →
  run_ends strip lower strptime n src → run_ends strip lower strptime fuel src.
Proof.
  intros Hle Hends Hlogin. destruct (Hends Hlogin) as (p & Hp & Hstop).
  exists p. split; [lia|done].
Qed.

(** The body of the [try] is the login, the crawl and the rest. *)
Lemma process_pvs_try_after_crawl pvs_id w :
  process_pvs_try strip lower strptime pvs_id w
  = match login w with
    | Raise e => (Raise e, [])
    | Ok (Some out) => (Ok out, [])
    | Ok None =>
        after_crawl strip lower strptime pvs_id (datetime.strftime_Ymd (today w)) w
          (crawl strip lower strptime ("https://example-pvs-" +:+ pvs_id +:+ ".local")
             (datetime.strftime_Ymd (today w)) 1 (listing w) [])
    end.
Proof.
  unfold process_pvs_try, after_crawl.
  destruct (login w) as [[out|]|e]; [done| |done].
  by destruct (crawl _ _ _ _ _ _ _ _).
Qed.

Lemma report_loop_with_listing pvs_id today_date w responses groups :
  ∀ idx lines saved,
    report_loop strip lower strptime pvs_id today_date (with_listing w responses)
      idx groups lines saved
    = report_loop strip lower strptime pvs_id today_date w idx groups lines saved.
Proof.
  induction groups as [|g groups IH]; intros idx lines saved; [done|].
  cbn. destruct (aggregate_group _ _ _ g); [apply IH|done].
Qed.

Lemma after_crawl_with_listing pvs_id today_date w responses all_shipments :
  after_crawl strip lower strptime pvs_id today_date (with_listing w responses)
    all_shipments
  = after_crawl strip lower strptime pvs_id today_date w all_shipments.
Proof.
  unfold after_crawl. destruct all_shipments as [|s rest]; [done|].
  cbn [detail_pages finished with_listing].
  destruct (enrich _ _ _ ≫= grouping_engine) as [groups|e]; [|done].
  by rewrite report_loop_with_listing.
Qed.

(** A run that ends returns what [process_pvs] returns on the answers to
    the pages it can have asked for. *)
Lemma process_pvs_loop_finite fuel pvs_id w site run :
  process_pvs_loop strip lower strptime fuel pvs_id w site = Some run →
  process_pvs strip lower strptime pvs_id
    (with_listing w (map site (pages_from 1 fuel))) = run.
Proof.
  unfold process_pvs_loop, process_pvs. rewrite process_pvs_try_after_crawl.
  change (login (with_listing w ?l)) with (login w). cbn [today listing with_listing].
  intros Hrun. destruct (login w) as [[out|]|e]; [by injection Hrun| |by injection Hrun].
  destruct (crawl_loop _ _ _ _ _ _ _ _ _) as [all_shipments|] eqn:Hloop; [|done].
  apply crawl_loop_finite in Hloop. rewrite Hloop.
  rewrite after_crawl_with_listing.
  destruct (after_crawl _ _ _ _ _ _ _) as [[out|e] saved]; by injection Hrun.
Qed.

End Loop.

Section LoopRuns.
Variables (strip lower : string → string) (strptime : string → result datetime.t).

Lemma process_pvs_loop_more fuel fuel' pvs_id w site run :
  (fuel ≤ fuel')%nat →
  process_pvs_loop strip lower strptime fuel pvs_id w site = Some run →
  process_pvs_loop strip lower strptime fuel' pvs_id w site = Some run.
Proof.
  intros Hle. unfold process_pvs_loop.
  destruct (login w) as [[out|]|e]; [done| |done].
  destruct (crawl_loop _ _ _ _ _ fuel _ _ _) as [all_shipments|] eqn:Hloop; [|done].
  by rewrite (crawl_loop_more strip lower strptime _ _ site fuel fuel' 1 []
                all_shipments Hle Hloop).
Qed.

(** What a run that ends returns, by what it met. *)
Lemma process_pvs_loop_outcome fuel pvs_id w site out saved :
  process_pvs_loop strip lower strptime fuel pvs_id w site = Some (out, saved) →
  (∀ e, login w = Raise e → out = Error ("Critical error: " +:+ str_exn e))
  ∧ (∀ early, login w = Ok (Some early) → out = early)
  ∧ (∀ e, login w = Ok None → site 1 = Raise e →
          out = Error "No shipments found for today")
  ∧ (∀ all_shipments,
       login w = Ok None →
       crawl_loop strip lower strptime ("https://example-pvs-" +:+ pvs_id +:+ ".local")
         (datetime.strftime_Ymd (today w)) fuel site 1 [] = Some all_shipments →
       match (after_crawl strip lower strptime pvs_id
                (datetime.strftime_Ymd (today w)) w all_shipments).1 with
       | Ok out' => out = out'
       | Raise e => out = Error ("Critical error: " +:+ str_exn e)
       end).
Proof.
  unfold process_pvs_loop. intros Hrun.
  split; [|split; [|split]].
  - intros e He. rewrite He in Hrun. by injection Hrun as <- _.
  - intros early He. rewrite He in Hrun. by injection Hrun as <- _.
  - intros e Hlogin Hfirst. rewrite Hlogin in Hrun.
    destruct fuel as [|fuel]; [done|]. cbn in Hrun. rewrite Hfirst in Hrun.
    cbn in Hrun. by injection Hrun as <- _.
  - intros all_shipments Hlogin Hloop. rewrite Hlogin, Hloop in Hrun.
    destruct (after_crawl _ _ _ _ _ _ _) as [[out'|e] saved']; cbn;
      by injection Hrun as <- _.
Qed.

Lemma main_loop_single fuel src out saved :
  process_pvs_loop strip lower strptime fuel (pvs src) (met src) (site src)
  = Some (out, saved) →
  main_loop strip lower strptime fuel [src] [0%nat]
  = Some [message_of (pvs src) out].
Proof.
  intros Hrun. unfold main_loop. cbn. rewrite Hrun. cbn. by destruct out.
Qed.

End LoopRuns.

(** C8 as stated fails at a source whose listing does not end: every page
    is answered with twenty rows of today, the crawl loop of that run goes
    on for ever, and the main block, which waits for every run, collects
    the error text of the other source but never gets to sending it. *)
Lemma endless_listing_blocks_run :
  (∀ n, ¬ run_ends ascii_lib.strip ascii_lib.lower ascii_lib.strptime n
            endless_source)
  ∧ ∀ fuel,
      process_pvs_loop ascii_lib.strip ascii_lib.lower ascii_lib.strptime fuel
        (pvs endless_source) (met endless_source) (site endless_source) = None
      ∧ main_loop ascii_lib.strip ascii_lib.lower ascii_lib.strptime fuel
          [endless_source; unreachable_source] [1; 0]%nat = None.
Proof.
  assert (∀ n, ¬ run_ends ascii_lib.strip ascii_lib.lower ascii_lib.strptime n
                   endless_source) as Hnever.
  { intros n Hends. destruct (Hends eq_refl) as (p & _ & Hstop).
    destruct Hstop as [Hcode|[Hlen|[Hraise|[_ Hnone]]]].
    - done.
    - cbn in Hlen. lia.
    - apply Hraise, Forall_forall. intros r ->%elem_of_replicate_inv.
      eexists. vm_compute. reflexivity.
    - vm_compute in Hnone. congruence. }
  split; [exact Hnever|]. intros fuel.
  assert (process_pvs_loop ascii_lib.strip ascii_lib.lower ascii_lib.strptime fuel
            (pvs endless_source) (met endless_source) (site endless_source) = None)
    as Hrun.
  { apply eq_None_not_Some. intros Hsome.
    by apply process_pvs_loop_ends_iff, Hnever in Hsome. }
  split; [exact Hrun|].
  unfold main_loop. cbn [mapM mbind option_bind]. by rewrite Hrun.
Qed.

(** C8.  The main block gets to its end exactly when the run of every
    source ends: for every source whose login goes through, some page of its
    listing stops the crawl.  When that happens within [n] page requests,
    then whatever else each source meets (any answer or exception at the
    login, any pages, any detail pages) and in whatever order the runs
    finish, there is exactly one message per source, and the messages are
    the same for every bound on the number of requests from [n] on.  The
    message at position [k] is the one of the source that finished [k]-th:
    its report, or an error text that names it.  It is the message this
    source gives when it is run alone.  An exception at the login or after
    the crawl gives the text of a critical error, a refused login its error,
    and a first page that cannot be fetched the text that no shipments were
    found. *)
Theorem one_message_per_ending_source (strip lower : string → string)
    (strptime : string → result datetime.t) (n fuel : nat)
    (sources : list source) (order : list nat) :
  order ≡ₚ seq 0 (length sources) →
  (is_Some (main_loop strip lower strptime fuel sources order)
   ↔ Forall (run_ends strip lower strptime fuel) sources)
  ∧ (Forall (run_ends strip lower strptime n) sources →
     (n ≤ fuel)%nat →
     ∃ all_messages,
       main_loop strip lower strptime fuel sources order = Some all_messages
       ∧ (∀ fuel', (n ≤ fuel')%nat →
            main_loop strip lower strptime fuel' sources order = Some all_messages)
       ∧ length all_messages = length sources
       ∧ ∀ k i src,
           order !! k = Some i → sources !! i = Some src →
           ∃ out saved,
             process_pvs_loop strip lower strptime fuel (pvs src) (met src) (site src)
             = Some (out, saved)
             ∧ all_messages !! k = Some (message_of (pvs src) out)
             ∧ main_loop strip lower strptime fuel [src] [0%nat]
               = Some [message_of (pvs src) out]
             ∧ (∀ e, login (met src) = Raise e →
                     out = Error ("Critical error: " +:+ str_exn e))
             ∧ (∀ early, login (met src) = Ok (Some early) → out = early)
             ∧ (∀ e, login (met src) = Ok None → site src 1 = Raise e →
                     out = Error "No shipments found for today")
             ∧ (∀ all_shipments,
                  login (met src) = Ok None →
                  crawl_loop strip lower strptime
                    ("https://example-pvs-" +:+ pvs src +:+ ".local")
                    (datetime.strftime_Ymd (today (met src))) fuel (site src) 1 []
                  = Some all_shipments →
                  match (after_crawl strip lower strptime (pvs src)
                           (datetime.strftime_Ymd (today (met src))) (met src)
                           all_shipments).1 with
                  | Ok out' => out = out'
                  | Raise e => out = Error ("Critical error: " +:+ str_exn e)
                  end)).
Proof.
  intros Hperm.
  set (future := λ (bound : nat) (src : source),
         run ← process_pvs_loop strip lower strptime bound
                 (pvs src) (met src) (site src);
         Some (pvs src, Ok run.1)).
  split.
  { unfold main_loop. change (mapM _ sources) with (mapM (future fuel) sources).
    assert (is_Some (mapM (future fuel) sources)
            ↔ Forall (run_ends strip lower strptime fuel) sources) as <-.
    { rewrite mapM_is_Some. apply Forall_proper; [|done]. intros src.
      rewrite <- process_pvs_loop_ends_iff. unfold future. cbn.
      destruct (process_pvs_loop _ _ _ _ _ _ _) as [run|];
        split; intros [? ?]; try done; by eexists. }
    destruct (mapM (future fuel) sources); split; intros [? ?]; try done; by eexists. }
  intros Hends Hfuel.
  assert (∀ src, src ∈ sources →
            ∃ run, process_pvs_loop strip lower strptime n
                     (pvs src) (met src) (site src) = Some run) as Hruns.
  { intros src Hsrc. apply process_pvs_loop_ends_iff.
    by eapply Forall_forall in Hends. }
  assert (∀ bound, (n ≤ bound)%nat →
            Forall2 (λ src f, future bound src = Some f) sources
              (map (λ src : source,
                      (pvs src,
                       Ok (default (Error "", [])
                             (process_pvs_loop strip lower strptime n
                                (pvs src) (met src) (site src))).1))
                   sources)) as Hfutures.
  { intros bound Hbound. clear Hperm Hends.
    induction sources as [|src sources IH]; [constructor|].
    cbn [map]. constructor; [|apply IH; intros src' Hsrc'; apply Hruns; by right].
    destruct (Hruns src) as [run Hrun]; [left|].
    unfold future.
    rewrite (process_pvs_loop_more strip lower strptime n bound _ _ _ run Hbound Hrun).
    by rewrite Hrun. }
  set (futures := map (λ src : source,
                         (pvs src,
                          Ok (default (Error "", [])
                                (process_pvs_loop strip lower strptime n
                                   (pvs src) (met src) (site src))).1))
                      sources) in *.
  assert (∀ bound, (n ≤ bound)%nat →
            main_loop strip lower strptime bound sources order
            = Some (map (λ f : string * result outcome, collect f.1 f.2)
                        (as_completed order futures))) as Hmain.
  { intros bound Hbound. unfold main_loop.
    change (mapM _ sources) with (mapM (future bound) sources).
    by rewrite (mapM_Some_2 (future bound) sources futures (Hfutures bound Hbound)). }
  assert (length futures = length sources) as Hlen by apply length_map.
  eexists. split; [by apply Hmain|]. split; [exact Hmain|]. split.
  { rewrite length_map. rewrite as_completed_perm by (by rewrite Hlen). done. }
  intros k i src Hk Hi.
  destruct (Hruns src) as [[out saved] Hrun_n]; [by eapply list_elem_of_lookup_2|].
  pose proof (process_pvs_loop_more strip lower strptime n fuel _ _ _ _ Hfuel Hrun_n)
    as Hrun.
  exists out, saved. split; [exact Hrun|]. split.
  { unfold as_completed. rewrite list_lookup_fmap, omap_total_lookup.
    - rewrite Hk. cbn. unfold futures. rewrite list_lookup_fmap, Hi. cbn.
      rewrite Hrun_n. cbn. by destruct out.
    - apply Forall_forall. intros j Hj. rewrite Hperm in Hj.
      apply elem_of_seq in Hj. apply lookup_lt_is_Some. rewrite Hlen. lia. }
  split; [by eapply main_loop_single|].
  by eapply process_pvs_loop_outcome.
Qed.

Lemma one_message_per_ending_source_witness :
  [1; 0]%nat ≡ₚ seq 0 (length [short_source; unreachable_source])
  ∧ Forall (run_ends ascii_lib.strip ascii_lib.lower ascii_lib.strptime 1)
      [short_source; unreachable_source]
  ∧ ∃ all_messages,
      main_loop ascii_lib.strip ascii_lib.lower ascii_lib.strptime 3
        [short_source; unreachable_source] [1; 0]%nat = Some all_messages
      ∧ length all_messages = length [short_source; unreachable_source].
Proof.
  assert ([1; 0]%nat ≡ₚ seq 0 (length [short_source; unreachable_source])) as Horder
    by apply perm_swap.
  assert (Forall (run_ends ascii_lib.strip ascii_lib.lower ascii_lib.strptime 1)
            [short_source; unreachable_source]) as Hends.
  { constructor; [|constructor; [|constructor]].
    - intros _. exists 0%nat. split; [lia|]. right. left. cbn. lia.
    - intros Hlogin. vm_compute in Hlogin. congruence. }
  split; [exact Horder|]. split; [exact Hends|].
  destruct (one_message_per_ending_source ascii_lib.strip ascii_lib.lower
              ascii_lib.strptime 1 3 [short_source; unreachable_source] [1; 0]%nat
              Horder) as [_ Hmessages].
  destruct (Hmessages Hends) as (all_messages & Hmain & _ & Hlen & _); [lia|].
  by exists all_messages.
Defined.

(** A source that cannot be reached and a source whose listing has one
    page: the failed run, which finishes first, leaves its error text, and
    the other run still delivers its report. *)
Example main_loop_isolates_failure :
  main_loop ascii_lib.strip ascii_lib.lower ascii_lib.strptime 3
    [short_source; unreachable_source] [1; 0]%nat
  = Some ["Ошибка site2: Critical error: Read timed out.";
          unlines
            ["📍 ПВЗ: site1";
             "Group: 1"; "Date: 2024-03-15"; "Arrival window: 09:00 – 09:00";
             "Closed at: -"; "Unload started: -"; "Unload duration: 0:00:00";
             "Status: Pending"; "Boxes: 1"; "Sent: 3"; "Received: 3"; "Excess: 0"]].
Proof. vm_compute. reflexivity. Qed.

(** ** The detail fetch with shared identifiers *)

Lemma collect_details_origin (results : list (string * details)) :
  ∀ (m : gmap string details) k d,
    foldl (λ details_map r, <[r.1 := r.2]> details_map) m results !! k = Some d →
    (k, d) ∈ results ∨ m !! k = Some d.
Proof.
  induction results as [|[k' d'] results IH]; intros m k d Hk; [by right|].
  cbn in Hk. apply IH in Hk as [Hin|Hk]; [left; by right|].
  destruct (decide (k' = k)) as [->|Hne].
  - rewrite lookup_insert_eq in Hk. injection Hk as ->. left. left.
  - rewrite lookup_insert_ne in Hk by done. by right.
Qed.

Lemma collect_details_covers (results : list (string * details)) :
  ∀ (m : gmap string details) k,
    k ∈ results.*1 →
    is_Some (foldl (λ details_map r, <[r.1 := r.2]> details_map) m results !! k).
Proof.
  induction results as [|[k' d'] results IH]; intros m k Hk;
    [by apply elem_of_nil in Hk|].
  cbn in *. destruct (decide (k ∈ results.*1)) as [Hin|Hnot]; [by apply IH|].
  apply elem_of_cons in Hk as [->|Hk]; [|done].
  rewrite collect_details_other by done. rewrite lookup_insert_eq. by eexists.
Qed.

Lemma fetch_results_origin (pages : nat → detail_response) (valid : list shipment) k d :
  (k, d) ∈ imap (λ i s, fetch_details (pages i) s) valid →
  ∃ j s', valid !! j = Some s' ∧ id s' = k ∧ fetch_details (pages j) s' = (k, d).
Proof.
  intros (j & Hj)%list_elem_of_lookup.
  rewrite list_lookup_imap in Hj.
  destruct (valid !! j) as [s'|] eqn:Hs'; [|done].
  cbn in Hj. injection Hj as Hj. exists j, s'. split; [done|].
  split; [|done]. by rewrite <- (fetch_details_key (pages j) s'), Hj.
Qed.

(** What [enrich] returns when every detail task finishes: the shipments in
    their order, each updated with the entry found under its identifier. *)
Lemma enrich_finished (pages : nat → detail_response) (finished : list nat)
    (valid : list shipment) :
  finished ≡ₚ seq 0 (length valid) →
  let details_map :=
    collect_details
      (as_completed finished (imap (λ i s, fetch_details (pages i) s) valid)) in
  enrich pages finished valid
  = Ok (map (λ s, update s (default no_details (details_map !! id s))) valid)
  ∧ ∀ s, s ∈ valid →
      ∃ d j s',
        details_map !! id s = Some d
        ∧ valid !! j = Some s' ∧ id s' = id s
        ∧ fetch_details (pages j) s' = (id s, d).
Proof.
  intros Hfin details_map.
  assert (as_completed finished (imap (λ i s, fetch_details (pages i) s) valid)
          ≡ₚ imap (λ i s, fetch_details (pages i) s) valid) as Hperm.
  { apply as_completed_perm. by rewrite length_imap. }
  assert (∀ s, s ∈ valid →
            ∃ d j s', details_map !! id s = Some d
                      ∧ valid !! j = Some s' ∧ id s' = id s
                      ∧ fetch_details (pages j) s' = (id s, d)) as Hfound.
  { intros s Hs.
    destruct (collect_details_covers
                (as_completed finished (imap (λ i s, fetch_details (pages i) s) valid))
                ∅ (id s)) as [d Hd].
    { rewrite Hperm, fetch_results_keys. by apply list_elem_of_fmap_2. }
    exists d. destruct (collect_details_origin _ _ _ _ Hd) as [Hin|Hempty];
      [|by rewrite lookup_empty in Hempty].
    rewrite Hperm in Hin.
    destruct (fetch_results_origin pages valid _ _ Hin) as (j & s' & ? & ? & ?).
    by exists j, s'. }
  split; [|done]. unfold enrich. fold details_map.
  rewrite (update_all_found details_map
             (λ _ s, default no_details (details_map !! id s))).
  - f_equal.
    apply (imap_const (λ s, update s (default no_details (details_map !! id s)))).
  - intros i s Hs. destruct (Hfound s) as (d & _ & _ & -> & _); [|done].
    by eapply list_elem_of_lookup_2.
Qed.

(** X5.  When every detail task finishes, in whatever order, the update
    step succeeds also with identifiers that are shared: it returns the
    shipments unchanged and in their order, and every shipment carries the
    counts that the task of a shipment with the same identifier returned. *)
Theorem enrich_keeps_shipments (pages : nat → detail_response)
    (finished : list nat) (valid_shipments : list shipment) :
  finished ≡ₚ seq 0 (length valid_shipments) →
  ∃ enriched_shipments,
    enrich pages finished valid_shipments = Ok enriched_shipments
    ∧ map base enriched_shipments = valid_shipments
    ∧ Forall (λ e : enriched,
                ∃ j s',
                  valid_shipments !! j = Some s' ∧ id s' = id e
                  ∧ fetch_details (pages j) s' = (id e, counts e))
             enriched_shipments.
Proof.
  intros Hfin.
  destruct (enrich_finished pages finished valid_shipments Hfin) as [Henrich Hfound].
  eexists. split; [exact Henrich|]. split.
  - rewrite map_map. cbn. apply map_id.
  - apply Forall_fmap, Forall_forall. intros s Hs. cbn.
    destruct (Hfound s Hs) as (d & j & s' & -> & Hj & Hid & Hfetch).
    exists j, s'. cbn. by destruct d.
Qed.

(** X6.  When every detail task finishes and, for every shipment that
    carries the identifier of a shipment [s], the detail link is absent or
    the detail page could not be read, [s] is updated with the counts 0, 0, 0
    and stays at its place in the list. *)
Theorem unread_identifier_counts_zero (pages : nat → detail_response)
    (finished : list nat) (valid_shipments : list shipment) (i : nat) (s : shipment) :
  finished ≡ₚ seq 0 (length valid_shipments) →
  valid_shipments !! i = Some s →
  (∀ j s', valid_shipments !! j = Some s' → id s' = id s →
           detail_url s' = None ∨ get_details_from_detail_page (pages j) = None) →
  ∃ enriched_shipments,
    enrich pages finished valid_shipments = Ok enriched_shipments
    ∧ length enriched_shipments = length valid_shipments
    ∧ enriched_shipments !! i = Some (update s no_details).
Proof.
  intros Hfin Hs Hunread.
  destruct (enrich_finished pages finished valid_shipments Hfin) as [Henrich Hfound].
  eexists. split; [exact Henrich|]. split; [by rewrite length_map|].
  rewrite list_lookup_fmap, Hs. cbn. do 2 f_equal.
  destruct (Hfound s) as (d & j & s' & -> & Hj & Hid & Hfetch);
    [by eapply list_elem_of_lookup_2|].
  cbn. unfold fetch_details in Hfetch.
  destruct (Hunread j s' Hj Hid) as [Hurl|Hpage].
  - rewrite Hurl in Hfetch. by injection Hfetch as _ <-.
  - rewrite Hpage in Hfetch. destruct (detail_url s'); by injection Hfetch as _ <-.
Qed.

(** ** What [save_group_to_db] stores *)

(** X7.  [save_group_to_db] stores nothing, whatever the database does, for
    a group without members, for a group that has unload-start texts other
    than the placeholder of which none parses, and for a group whose members
    are all closed and that has close texts other than the placeholder of
    which none parses: the body raises before it connects.  For every other
    group it builds the row, and the row is stored exactly when the
    connection, the insertion and the commit go through; an exception of
    the database is caught like the others and leaves nothing stored. *)
Theorem store_skips_group_iff (strip lower : string → string)
    (strptime : string → result datetime.t) now pvs (g : group) idx today cnt secs :
  (not_storable strip lower strptime g →
   ∀ database,
     save_group_to_db_commit strip lower strptime database now pvs g idx today
       cnt secs = None)
  ∧ (¬ not_storable strip lower strptime g →
     ∃ row,
       save_group_to_db strip lower strptime now pvs g idx today cnt secs = Ok row
       ∧ ∀ database,
           save_group_to_db_commit strip lower strptime database now pvs g idx
             today cnt secs
           = match database row with Ok _ => Some row | Raise _ => None end)
  ∧ ∀ database,
      save_group_to_db_commit strip lower strptime database now pvs g idx today
        cnt secs = None
      ↔ not_storable strip lower strptime g
        ∨ ∃ row e,
            save_group_to_db strip lower strptime now pvs g idx today cnt secs
            = Ok row
            ∧ database row = Raise e.
Proof.
  pose proof (save_group_to_db_raises_iff strip lower strptime now pvs g idx today
                cnt secs) as Hraises.
  fold (not_storable strip lower strptime g) in Hraises.
  unfold save_group_to_db_commit.
  destruct (save_group_to_db strip lower strptime now pvs g idx today cnt secs)
    as [row|e].
  - assert (¬ not_storable strip lower strptime g) as Hstorable.
    { intros [e He]%Hraises. done. }
    split; [done|]. split; [by exists row|].
    intros database. destruct (database row) as [[]|e] eqn:Hdb; split; try done.
    + intros [?|(row' & e & [= <-] & ?)]; [done|]. congruence.
    + intros _. right. by exists row, e.
  - assert (not_storable strip lower strptime g) as Hskip.
    { apply Hraises. by exists e. }
    split; [done|]. split; [done|]. intros database. split; [by left|done].
Qed.

(** *** The stored row and the report of the same group *)

Section StoreAndReport.
Variables (strip lower : string → string) (strptime : string → result datetime.t).

Lemma db_times_eq (g : group) :
  db_start_times strip strptime g = report_start_times strip strptime g
  ∧ db_close_times strip strptime g = report_close_times strip strptime g.
Proof. done. Qed.

Lemma omap_present_fmap (ts : list datetime.t) : omap (λ t, t) (Some <$> ts) = ts.
Proof. induction ts as [|t ts IH]; cbn; [done|]. by rewrite IH. Qed.

(** On the same timestamps the minimum of the report and the minimum over the
    parsed entries of the store agree whenever both are obtained. *)
Lemma min_agree xs r r' :
  min_or_None xs = Ok r → min_present xs = Ok r' → r' = r.
Proof.
  intros Hreport Hstore.
  destruct (decide (None ∈ xs)) as [Hnone|Hnone].
  - destruct xs as [|x [|y xs]]; [by apply elem_of_nil in Hnone| |].
    + injection Hreport as ->. destruct r as [t|]; [|done].
      cbn in Hstore. by injection Hstore as <-.
    + assert (clash (x :: y :: xs)) as Hclash by (split; [cbn; lia|done]).
      apply min_or_None_raises_iff in Hclash as [e He]. by rewrite He in Hreport.
  - rewrite (all_present xs Hnone) in Hreport, Hstore.
    destruct (omap (λ t, t) xs) as [|b ts] eqn:Hts.
    + cbn in *. by simplify_eq.
    + unfold min_present in Hstore. rewrite omap_present_fmap in Hstore.
      cbn in Hreport, Hstore. rewrite py_min_present_from in Hreport.
      unfold min_dt in Hstore. cbn in Hstore.
      destruct (extremum_from _ b ts); cbn in *; by simplify_eq.
Qed.

Lemma max_agree xs r r' :
  max_or_None xs = Ok r → max_present xs = Ok r' → r' = r.
Proof.
  intros Hreport Hstore.
  destruct (decide (None ∈ xs)) as [Hnone|Hnone].
  - destruct xs as [|x [|y xs]]; [by apply elem_of_nil in Hnone| |].
    + injection Hreport as ->. destruct r as [t|]; [|done].
      cbn in Hstore. by injection Hstore as <-.
    + assert (clash (x :: y :: xs)) as Hclash by (split; [cbn; lia|done]).
      apply max_or_None_raises_iff in Hclash as [e He]. by rewrite He in Hreport.
  - rewrite (all_present xs Hnone) in Hreport, Hstore.
    destruct (omap (λ t, t) xs) as [|b ts] eqn:Hts.
    + cbn in *. by simplify_eq.
    + unfold max_present in Hstore. rewrite omap_present_fmap in Hstore.
      cbn in Hreport, Hstore. rewrite py_max_present_from in Hreport.
      unfold max_dt in Hstore. cbn in Hstore.
      destruct (extremum_from _ b ts); cbn in *; by simplify_eq.
Qed.
End StoreAndReport.

(** X8.  When the report of a group is built and the group is stored (with
    the count and the duration of the report, as the report loop calls it),
    and the member statuses are in lower case, the stored row agrees with the
    report in the status, the earliest unload start, the earliest creation
    time, the three totals, the number of boxes and the duration; the stored
    close time is the latest close time of the report if all members are
    closed and absent otherwise. *)
Theorem stored_row_agrees_with_report (strip lower : string → string)
    (strptime : string → result datetime.t) now db_now pvs (g : group) idx today a row :
  Forall (λ s : enriched, lower (status s) = status s) g →
  aggregate_group strip strptime now g = Ok a →
  save_group_to_db strip lower strptime db_now pvs g idx today
    (count a) (duration_seconds a) = Ok row →
  db_status row = agg_status a
  ∧ db_unload_started_at row = earliest_start a
  ∧ datetime.strftime_HM (db_created_at row) = first_created a
  ∧ db_sent row = total_sent a
  ∧ db_received row = total_received a
  ∧ db_excess row = total_excess a
  ∧ boxes_count row = count a
  ∧ unload_duration_seconds row = duration_seconds a
  ∧ db_closed_at row
    = if bool_decide (Forall (λ s : enriched, status s = "closed") g)
      then latest_close a else None.
Proof.
  intros Hlow
    (es & lc & first & last & Hes & Hlc & Hfirst & Hlast & ->)%aggregate_group_Ok
    Hsave.
  pose proof Hsave as (Hst & Hstarted & Hclosed & Hsent & Hrec & Hexc & Hcnt & Hsecs)
    %save_group_to_db_Ok.
  assert (map (λ s : enriched, lower (status s)) g = map (λ s : enriched, status s) g)
    as Hstatuses by (by apply Forall_fmap_ext).
  rewrite Hstatuses in Hst, Hclosed.
  cbn [earliest_start first_created total_sent total_received total_excess count
       duration_seconds latest_close agg_status] in *.
  split; [by rewrite Hst, db_group_status_eq|].
  split; [eapply min_agree; [exact Hes|exact Hstarted]|].
  split.
  { unfold save_group_to_db in Hsave. rewrite Hfirst in Hsave. cbn in Hsave.
    destruct (min_present _); [|done]. cbn in Hsave.
    destruct (if forallb _ _ then _ else _); [|done]. cbn in Hsave.
    by injection Hsave as <-. }
  repeat (split; [done|]).
  destruct (forallb _ _) eqn:Hall.
  - apply all_equal_Forall, Forall_fmap in Hall.
    rewrite bool_decide_true by done.
    assert (report_group_status g = closed) as Hclosed_status.
    { destruct g as [|s g]; [done|].
      apply Forall_cons in Hall as [Hs Hall].
      unfold report_group_status. cbn. rewrite Hs.
      rewrite bool_decide_false; [done|].
      intros [?|(s' & Hs' & Hin)%list_elem_of_fmap]%elem_of_cons; [done|].
      eapply Forall_forall in Hall; [|exact Hin]. cbn in Hall. congruence. }
    rewrite Hclosed_status in Hlc. cbn in Hlc.
    eapply max_agree; [exact Hlc|exact Hclosed].
  - rewrite bool_decide_false; [by injection Hclosed|].
    intros Hall'.
    apply (Forall_fmap (λ s : enriched, status s) (λ s, s = "closed")) in Hall'.
    apply all_equal_Forall in Hall'.
    apply not_true_iff_false in Hall. apply Hall. exact Hall'.
Qed.

Lemma min_present_least xs r :
  min_present xs = Ok r →
  match r with
  | Some m => Some m ∈ xs ∧ ∀ t, Some t ∈ xs → datetime.leb m t = true
  | None => xs = []
  end.
Proof.
  destruct xs as [|x xs]; [by intros [= <-]|].
  unfold min_present. intros Hmin.
  destruct (min_dt (omap (λ t, t) (x :: xs))) as [m|] eqn:Hm; [|done].
  injection Hmin as <-. apply min_dt_least in Hm as [Hin Hall].
  split.
  - apply list_elem_of_omap in Hin as (o & Ho & ->). done.
  - intros t Ht. eapply Forall_forall in Hall; [exact Hall|].
    apply list_elem_of_omap. by exists (Some t).
Qed.

Lemma max_present_greatest xs r :
  max_present xs = Ok r →
  match r with
  | Some m => Some m ∈ xs ∧ ∀ t, Some t ∈ xs → datetime.leb t m = true
  | None => xs = []
  end.
Proof.
  destruct xs as [|x xs]; [by intros [= <-]|].
  unfold max_present. intros Hmax.
  destruct (max_dt (omap (λ t, t) (x :: xs))) as [m|] eqn:Hm; [|done].
  injection Hmax as <-. apply max_dt_greatest in Hm as [Hin Hall].
  split.
  - apply list_elem_of_omap in Hin as (o & Ho & ->). done.
  - intros t Ht. eapply Forall_forall in Hall; [exact Hall|].
    apply list_elem_of_omap. by exists (Some t).
Qed.

(** X9.  In a stored row the creation time is the earliest creation time of
    the members.  The unload start is the earliest of the unload-start times
    that parse, texts that do not parse being left out; it is absent only
    when no member has an unload-start text other than the placeholder.  A
    stored close time is the latest of the close times that parse, and it is
    stored only when every member is closed. *)
Theorem stored_times_are_extremal (strip lower : string → string)
    (strptime : string → result datetime.t) now pvs (g : group) idx today cnt secs row :
  save_group_to_db strip lower strptime now pvs g idx today cnt secs = Ok row →
  (db_created_at row ∈ map (λ s : enriched, created_dt s) g
   ∧ Forall (λ t, datetime.leb (db_created_at row) t = true)
       (map (λ s : enriched, created_dt s) g))
  ∧ match db_unload_started_at row with
    | Some m =>
        Some m ∈ db_start_times strip strptime g
        ∧ ∀ t, Some t ∈ db_start_times strip strptime g → datetime.leb m t = true
    | None => db_start_times strip strptime g = []
    end
  ∧ match db_closed_at row with
    | Some m =>
        Forall (λ s : enriched, lower (status s) = "closed") g
        ∧ Some m ∈ db_close_times strip strptime g
        ∧ ∀ t, Some t ∈ db_close_times strip strptime g → datetime.leb t m = true
    | None =>
        ¬ Forall (λ s : enriched, lower (status s) = "closed") g
        ∨ db_close_times strip strptime g = []
    end.
Proof.
  intros Hsave.
  pose proof Hsave as (_ & Hstarted & Hclosed & _)%save_group_to_db_Ok.
  split; [|split].
  - unfold save_group_to_db in Hsave.
    destruct (min_dt _) as [created|] eqn:Hcreated; [|done]. cbn in Hsave.
    destruct (min_present _); [|done]. cbn in Hsave.
    destruct (if forallb _ _ then _ else _); [|done]. cbn in Hsave.
    injection Hsave as <-. cbn. by apply min_dt_least.
  - by apply min_present_least in Hstarted.
  - destruct (forallb _ _) eqn:Hall.
    + apply all_equal_Forall in Hall.
      apply (Forall_fmap (λ s : enriched, lower (status s))) in Hall.
      apply max_present_greatest in Hclosed.
      destruct (db_closed_at row); [by split|by right].
    + injection Hclosed as <-. left. intros Hall'.
      apply (Forall_fmap (λ s : enriched, lower (status s)) (λ s, s = "closed")) in Hall'.
      apply all_equal_Forall in Hall'.
      apply not_true_iff_false in Hall. apply Hall. exact Hall'.
Qed.

(** ** The report loop *)

(** X10.  The report loop handles the groups in order.  For every group it
    gets through it builds the report with the clock reading of that round
    and hands the group to [save_group_to_db] with its running index, the
    count and the duration of that report.  It either gets through all
    groups and adds one text block per group, or stops at the first group
    whose report raises; the groups before that one have then already been
    handed to the store, and the calls made earlier are kept. *)
Theorem report_loop_progress (strip lower : string → string)
    (strptime : string → result datetime.t) (pvs today : string) (w : world)
    (groups : list group) :
  ∀ (idx : Z) (lines : list string) (saved : list (result db_row)),
    ∃ new : list (result db_row),
      (report_loop strip lower strptime pvs today w idx groups lines saved).2
      = saved ++ new
      ∧ (∀ (k : nat) (g : group),
           (k < length new)%nat → groups !! k = Some g →
           ∃ a,
             aggregate_group strip strptime (clock w (idx + Z.of_nat k)) g = Ok a
             ∧ new !! k
               = Some (save_group_to_db strip lower strptime (db_clock w (idx + Z.of_nat k))
                         pvs g (idx + Z.of_nat k) today (count a) (duration_seconds a)))
      ∧ match (report_loop strip lower strptime pvs today w idx groups lines saved).1
        with
        | Ok lines' =>
            length new = length groups
            ∧ length lines' = (length lines + length groups)%nat
        | Raise e =>
            ∃ g,
              groups !! length new = Some g
              ∧ aggregate_group strip strptime (clock w (idx + Z.of_nat (length new))) g
                = Raise e
        end.
Proof.
  induction groups as [|g groups IH]; intros idx lines saved.
  - exists []. cbn. rewrite app_nil_r. split; [done|]. split; [|lia].
    intros k g' Hk. lia.
  - cbn. destruct (aggregate_group strip strptime (clock w idx) g) as [a|e] eqn:Hagg.
    + destruct (IH (idx + 1)
                  (lines ++ [render idx today a])
                  (saved ++ [save_group_to_db strip lower strptime (db_clock w idx)
                               pvs g idx today (count a) (duration_seconds a)]))
        as (new & Hsaved & Hcalls & Hend).
      exists (save_group_to_db strip lower strptime (db_clock w idx)
                pvs g idx today (count a) (duration_seconds a) :: new).
      split; [by rewrite Hsaved, <- app_assoc|]. split.
      * intros [|k] g' Hk Hg'; cbn in *.
        -- injection Hg' as <-. exists a. by rewrite Z.add_0_r.
        -- destruct (Hcalls k g') as (a' & Ha' & Hnew); [lia|done|].
           exists a'.
           by replace (idx + Z.of_nat (S k)) with (idx + 1 + Z.of_nat k) by lia.
      * destruct (report_loop _ _ _ _ _ _ _ _ _ _).1 as [lines'|e'].
        -- destruct Hend as [Hlen Hlines]. cbn. rewrite Hlen.
           split; [done|]. rewrite Hlines, length_app. cbn. lia.
        -- destruct Hend as (g' & Hg' & Hraise). exists g'. cbn.
           split; [done|].
           by replace (idx + Z.of_nat (S (length new)))
             with (idx + 1 + Z.of_nat (length new)) by lia.
    + exists []. cbn. rewrite app_nil_r. split; [done|]. split.
      * intros k g' Hk. lia.
      * exists g. by rewrite Z.add_0_r.
Qed.

(** ** Totals over all groups *)

Lemma sum_from (xs : list Z) : ∀ a, foldl Z.add a xs = a + sum xs.
Proof.
  unfold sum. induction xs as [|x xs IH]; intros a; cbn; [lia|].
  rewrite (IH (a + x)), (IH (0 + x)). lia.
Qed.

Lemma sum_cons x xs : sum (x :: xs) = x + sum xs.
Proof. unfold sum at 1. cbn. apply sum_from. Qed.

Lemma sum_app xs ys : sum (xs ++ ys) = sum xs + sum ys.
Proof.
  induction xs as [|x xs IH]; [done|].
  rewrite <- app_comm_cons, !sum_cons, IH. lia.
Qed.

Lemma sum_perm xs ys : xs ≡ₚ ys → sum xs = sum ys.
Proof.
  induction 1 as [|x xs ys _ IH|x y xs|xs ys zs _ IH1 _ IH2];
    rewrite ?sum_cons; [done|by rewrite IH|lia|congruence].
Qed.

Lemma sum_concat {A} (f : A → Z) (groups : list (list A)) :
  sum (map f (concat groups)) = sum (map (λ g, sum (map f g)) groups).
Proof.
  induction groups as [|g groups IH]; [done|].
  cbn [concat map]. by rewrite map_app, sum_app, sum_cons, IH.
Qed.

(** X11.  When the reports of all groups of a source are built, the boxes of
    the groups add up to the number of shipments that were grouped, and the
    sent, received and excess totals of the groups add up to the sums over
    all shipments: no shipment is counted twice or left out. *)
Theorem group_totals_add_up (strip : string → string)
    (strptime : string → result datetime.t)
    (valid_shipments : list enriched) (groups : list group) (reports : list aggregate) :
  grouping_engine valid_shipments = Ok groups →
  Forall2 (λ (g : group) a, ∃ now, aggregate_group strip strptime now g = Ok a)
    groups reports →
  sum (map count reports) = Z.of_nat (length valid_shipments)
  ∧ sum (map total_sent reports) = sum (map sent valid_shipments)
  ∧ sum (map total_received reports) = sum (map received valid_shipments)
  ∧ sum (map total_excess reports) = sum (map excess valid_shipments).
Proof.
  intros Hgroups Hreports.
  destruct (grouping_engine_perm valid_shipments) as (gs & Hgs & _ & Hperm).
  rewrite Hgs in Hgroups. injection Hgroups as ->.
  assert (map count reports = map (λ g : list enriched, sum (map (λ _, 1) g)) groups
          ∧ map total_sent reports = map (λ g : list enriched, sum (map sent g)) groups
          ∧ map total_received reports = map (λ g : list enriched, sum (map received g)) groups
          ∧ map total_excess reports = map (λ g : list enriched, sum (map excess g)) groups)
    as (Hcount & Hsent & Hreceived & Hexcess).
  { clear Hperm Hgs. induction Hreports as [|g a groups reports [now Ha] _ IH];
      [done|].
    destruct IH as (IH1 & IH2 & IH3 & IH4).
    apply aggregate_totals in Ha as (Hs & Hr & He & Hc).
    cbn [map]. rewrite IH1, IH2, IH3, IH4, Hs, Hr, He, Hc.
    repeat split. f_equal.
    clear. induction g as [|s g IH]; [done|].
    cbn [length map]. rewrite sum_cons, <- IH. lia. }
  rewrite Hcount, Hsent, Hreceived, Hexcess.
  rewrite <- (sum_concat (λ _ : enriched, 1) groups), <- (sum_concat sent groups),
    <- (sum_concat received groups), <- (sum_concat excess groups).
  rewrite <- (Permutation_length Hperm).
  repeat split; try (apply sum_perm; by rewrite Hperm).
  generalize (concat groups). clear.
  induction l as [|s l IH]; [done|]. cbn [length map]. rewrite sum_cons, IH. lia.
Qed.

(** ** The order inside the groups *)

Lemma lex_eq xs : ∀ ys, datetime.lex xs ys = Eq → xs = ys.
Proof.
  induction xs as [|x xs IH]; intros [|y ys]; cbn; try done.
  destruct (x ?= y) eqn:Hxy; try done.
  apply Z.compare_eq_iff in Hxy as ->. intros Heq. f_equal. by apply IH.
Qed.

Lemma leb_antisym a b :
  datetime.leb a b = true → datetime.leb b a = true → a = b.
Proof.
  unfold datetime.leb, datetime.cmp.
  rewrite (lex_antisym (datetime.fields a) (datetime.fields b)).
  destruct (datetime.lex _ _) eqn:Hlex; try done.
  intros _ _. apply lex_eq in Hlex. destruct a, b. cbn in Hlex. by simplify_eq.
Qed.

Lemma StronglySorted_filter {A} (R : relation A) (P : A → Prop)
    `{∀ x, Decision (P x)} (l : list A) :
  StronglySorted R l → StronglySorted R (filter P l).
Proof.
  induction 1 as [|x l Hl IH Hall]; [constructor|].
  rewrite filter_cons. destruct (decide (P x)); [|done].
  constructor; [done|].
  apply Forall_forall. intros y [_ Hy]%list_elem_of_filter.
  by eapply Forall_forall in Hall.
Qed.

Lemma StronglySorted_concat {A} (R : relation A) (runs : list (list A)) :
  StronglySorted R (concat runs) → Forall (StronglySorted R) runs.
Proof.
  induction runs as [|r runs IH]; [constructor|].
  cbn. intros Hsorted. constructor.
  - by eapply StronglySorted_app_1_l.
  - eapply IH, StronglySorted_app_1_r. exact Hsorted.
Qed.

Lemma Sorted_fmap_inv {A B} (f : A → B) (R : relation B) (l : list A) :
  Sorted R (f <$> l) → Sorted (λ x y, R (f x) (f y)) l.
Proof.
  induction l as [|x l IH]; [constructor|].
  cbn. intros Hsorted. inversion Hsorted as [|? ? Hl Hhd]; subst.
  constructor; [by apply IH|].
  destruct l; [constructor|]. cbn in Hhd. inversion Hhd; subst. by constructor.
Qed.

Lemma ascending_strongly (g : list enriched) :
  ascending g
  ↔ StronglySorted
      (λ a b : enriched, datetime.leb (created_dt a) (created_dt b) = true) g.
Proof.
  split; [|apply StronglySorted_Sorted].
  apply Sorted_StronglySorted. intros a b c. apply leb_trans.
Qed.

(** Groups formed from shipments in ascending order are in ascending
    order. *)
Lemma grouping_engine_ascending (valid_shipments : list enriched) groups :
  ascending valid_shipments →
  grouping_engine valid_shipments = Ok groups →
  Forall ascending groups.
Proof.
  intros Hasc. unfold grouping_engine. rewrite form_groups_eq. cbn.
  intros Hsort.
  assert (Forall (λ g : group, g ≠ [])
            (night_groups valid_shipments ++ day_runs valid_shipments)) as Hne.
  { apply Forall_app. split; [apply night_groups_nonempty|apply day_runs_nonempty]. }
  destruct (sort_groups_perm _ Hne) as (sorted & Hsorted & Hperm).
  rewrite Hsorted in Hsort. injection Hsort as ->.
  rewrite Hperm. apply Forall_app. split.
  - unfold night_groups. destruct (night_bucket valid_shipments); [constructor|].
    constructor; [|constructor].
    apply (sort_asc_sorted (λ x : enriched, created_dt x)).
  - pose proof (day_runs_concat valid_shipments) as Hconcat.
    apply ascending_strongly in Hasc.
    apply (StronglySorted_filter _
             (λ s : enriched, 8 ≤ datetime.hour (created_dt s))) in Hasc.
    fold (day_bucket valid_shipments) in Hasc. rewrite <- Hconcat in Hasc.
    apply StronglySorted_concat in Hasc.
    eapply Forall_impl; [exact Hasc|]. intros g. apply ascending_strongly.
Qed.

(** X12.  In the pipeline, where the shipments are sorted by creation time
    before they are updated and grouped, the members of every group are in
    ascending order of creation time. *)
Theorem pipeline_groups_ascending (pages : nat → detail_response)
    (finished : list nat) (all_shipments : list shipment) (groups : list group) :
  enrich pages finished (sort_asc created_dt all_shipments) ≫= grouping_engine
  = Ok groups →
  Forall ascending groups.
Proof.
  intros Hgroups.
  destruct (enrich _ _ _) as [enriched_shipments|] eqn:Henrich; [|done].
  cbn in Hgroups.
  apply (grouping_engine_ascending enriched_shipments); [|done].
  apply update_all_base in Henrich.
  pose proof (sort_asc_sorted created_dt all_shipments) as Hsorted.
  rewrite <- Henrich in Hsorted.
  apply Sorted_fmap_inv in Hsorted. exact Hsorted.
Qed.

Lemma StronglySorted_head_least {A} (R : relation A) (l : list A) x :
  (∀ a, R a a) → StronglySorted R l → head l = Some x → Forall (R x) l.
Proof.
  intros Hrefl Hsorted Hhead. destruct Hsorted as [|y l _ Hall]; [done|].
  injection Hhead as ->. by constructor.
Qed.

Lemma StronglySorted_last_greatest {A} (R : relation A) (l : list A) x :
  (∀ a, R a a) → StronglySorted R l → last l = Some x → Forall (λ y, R y x) l.
Proof.
  intros Hrefl. induction 1 as [|y l Hl IH Hall]; [done|].
  intros Hlast. destruct l as [|z l].
  - injection Hlast as ->. by repeat constructor.
  - change (last (z :: l) = Some x) in Hlast. constructor; [|by apply IH].
    apply last_Some in Hlast as [l' Hl'].
    eapply Forall_forall in Hall; [exact Hall|].
    rewrite Hl'. apply elem_of_app. right. left.
Qed.

(** X13.  For a group in ascending order of creation time the arrival
    window of the report opens at the creation time of the first member and
    closes at the creation time of the last member, and no member was
    created after the last one: the key by which the groups are sorted is
    the latest creation time of the group. *)
Theorem arrival_window_of_ascending_group (strip : string → string)
    (strptime : string → result datetime.t) (now : datetime.t) (g : group)
    (a : aggregate) :
  ascending g →
  aggregate_group strip strptime now g = Ok a →
  ∃ first_s last_s : enriched,
    head g = Some first_s ∧ last g = Some last_s
    ∧ first_created a = datetime.strftime_HM (created_dt first_s)
    ∧ last_created a = datetime.strftime_HM (created_dt last_s)
    ∧ Forall (λ s : enriched,
                datetime.leb (created_dt first_s) (created_dt s) = true
                ∧ datetime.leb (created_dt s) (created_dt last_s) = true) g.
Proof.
  intros Hasc Hagg. apply ascending_strongly in Hasc.
  apply aggregate_group_Ok in Hagg as (es & lc & f & l & _ & _ & Hf & Hl & ->).
  apply min_dt_least in Hf as [Hfin Hfall].
  apply max_dt_greatest in Hl as [Hlin Hlall].
  apply list_elem_of_fmap in Hfin as (sf & -> & Hsf).
  apply list_elem_of_fmap in Hlin as (sl & -> & Hsl).
  destruct (head g) as [first_s|] eqn:Hhead;
    [|apply head_None in Hhead; subst; by apply elem_of_nil in Hsf].
  destruct (last g) as [last_s|] eqn:Hlast;
    [|apply last_None in Hlast; subst; by apply elem_of_nil in Hsf].
  exists first_s, last_s. cbn.
  pose proof (StronglySorted_head_least _ g first_s
                (λ s, leb_refl (created_dt s)) Hasc Hhead) as Hleast.
  pose proof (StronglySorted_last_greatest _ g last_s
                (λ s, leb_refl (created_dt s)) Hasc Hlast) as Hgreatest.
  assert (first_s ∈ g) as Hfirst_in.
  { destruct g; [done|]. injection Hhead as ->. left. }
  assert (last_s ∈ g) as Hlast_in.
  { apply last_Some in Hlast as [l' ->]. apply elem_of_app. right. left. }
  assert (created_dt sf = created_dt first_s) as ->.
  { apply leb_antisym.
    - eapply Forall_forall in Hfall; [exact Hfall|].
      apply list_elem_of_fmap. by exists first_s.
    - by eapply Forall_forall in Hleast. }
  assert (created_dt sl = created_dt last_s) as ->.
  { apply leb_antisym.
    - by eapply Forall_forall in Hgreatest.
    - eapply Forall_forall in Hlall; [exact Hlall|].
      apply list_elem_of_fmap. by exists last_s. }
  do 4 (split; [done|]).
  apply Forall_forall. intros s Hs. split.
  - by eapply Forall_forall in Hleast.
  - by eapply Forall_forall in Hgreatest.
Qed.

(** ** What a run stores *)

Lemma report_loop_saved_length (strip lower : string → string)
    (strptime : string → result datetime.t) (pvs today : string) (w : world)
    (groups : list group) :
  ∀ (idx : Z) (lines : list string) (saved : list (result db_row)),
    let run := report_loop strip lower strptime pvs today w idx groups lines saved in
    (length run.2 ≤ length saved + length groups)%nat
    ∧ (∀ lines', run.1 = Ok lines' →
         length run.2 = (length saved + length groups)%nat
         ∧ ∃ blocks, lines' = lines ++ blocks ∧ length blocks = length groups).
Proof.
  induction groups as [|g groups IH]; intros idx lines saved; cbn.
  - split; [lia|]. intros lines' [= <-]. split; [lia|].
    exists []. by rewrite app_nil_r.
  - destruct (aggregate_group strip strptime (clock w idx) g) as [a|e]; cbn.
    + destruct (IH (idx + 1)
                  (lines ++ [render idx today a])
                  (saved ++ [save_group_to_db strip lower strptime (db_clock w idx)
                               pvs g idx today (count a) (duration_seconds a)]))
        as [Hle Hok].
      cbn in Hle, Hok. rewrite length_app in Hle, Hok. cbn in Hle, Hok.
      split; [lia|]. intros lines' Hlines'.
      destruct (Hok lines' Hlines') as (Hlen & blocks & -> & Hblocks).
      split; [lia|]. exists (render idx today a :: blocks).
      rewrite <- app_assoc. split; [done|]. cbn. lia.
    + split; [lia|]. done.
Qed.

(** X14.  A run stores something, or returns a report, only after the
    login went through, the listing gave at least one shipment of today and
    the grouping succeeded.  It then hands at most one group after the other
    to the store; a returned report means that every group was handed to
    the store, and its text is the header line of the source followed by one
    block per group. *)
Theorem run_stores_only_groups (strip lower : string → string)
    (strptime : string → result datetime.t) (pvs_id : string) (w : world)
    (out : outcome) (saved : list (result db_row)) :
  process_pvs strip lower strptime pvs_id w = (out, saved) →
  saved ≠ [] ∨ (∃ message, out = Report message) →
  ∃ (all_shipments : list shipment) (groups : list group),
    login w = Ok None
    ∧ crawl strip lower strptime ("https://example-pvs-" +:+ pvs_id +:+ ".local")
        (datetime.strftime_Ymd (today w)) 1 (listing w) [] = all_shipments
    ∧ all_shipments ≠ []
    ∧ enrich (detail_pages w) (finished w) (sort_asc created_dt all_shipments)
        ≫= grouping_engine = Ok groups
    ∧ map base (concat groups) ≡ₚ all_shipments
    ∧ (length saved ≤ length groups)%nat
    ∧ ∀ message, out = Report message →
        length saved = length groups
        ∧ ∃ blocks,
            message = String.concat "" (("📍 ПВЗ: " +:+ pvs_id +:+ nl) :: blocks)
            ∧ length blocks = length groups.
Proof.
  unfold process_pvs, process_pvs_try. intros Hrun Hsome.
  destruct (login w) as [[early|]|e] eqn:Hlogin.
  - injection Hrun as <- <-. destruct Hsome as [?|[m Hm]]; [done|].
    exfalso. revert Hlogin Hm. unfold login.
    destruct (login_page w) as [code|]; [|done]. cbn.
    destruct (negb _); [by intros [= <-]|].
    destruct (redirect_input w) as [[v|]|]; cbn; try done;
      (destruct (login_response w _) as [[]|]; cbn; [by intros [= <-]|done|done]).
  - remember (crawl strip lower strptime
                ("https://example-pvs-" +:+ pvs_id +:+ ".local")
                (datetime.strftime_Ymd (today w)) 1 (listing w) [])
      as all_shipments eqn:Hall.
    destruct all_shipments as [|s rest].
    { injection Hrun as <- <-. by destruct Hsome as [?|[m Hm]]. }
    cbv zeta iota in Hrun.
    destruct (enrich _ _ _ ≫= grouping_engine) as [groups|e] eqn:Hgroups.
    2: { injection Hrun as <- <-. by destruct Hsome as [?|[m Hm]]. }
    exists (s :: rest), groups.
    do 4 (split; [done|]). split.
    { destruct (enrich _ _ _) as [enriched_shipments|] eqn:Henrich; [|done].
      cbn in Hgroups.
      destruct (grouping_engine_perm enriched_shipments) as (gs & Hgs & _ & Hperm).
      rewrite Hgs in Hgroups. injection Hgroups as ->.
      apply update_all_base in Henrich.
      rewrite Hperm, Henrich. apply sort_asc_perm. }
    pose proof (report_loop_saved_length strip lower strptime pvs_id
                  (datetime.strftime_Ymd (today w)) w groups 1
                  ["📍 ПВЗ: " +:+ pvs_id +:+ nl] []) as [Hle Hok].
    cbv zeta in Hle, Hok.
    destruct (report_loop _ _ _ _ _ _ _ _ _ _) as [[lines|e] saved'];
      cbn in Hle, Hok; injection Hrun as <- <-.
    + split; [done|]. intros message [= <-].
      destruct (Hok lines eq_refl) as (Hlen & blocks & -> & Hblocks).
      split; [done|]. by exists blocks.
    + split; [done|]. done.
  - injection Hrun as <- <-. by destruct Hsome as [?|[m Hm]].
Qed.

(** ** Sending the reports *)

Lemma split_on_nonempty sep s : split_on sep s ≠ [].
Proof.
  destruct s as [|c rest]; cbn; [done|].
  destruct (Ascii.eqb c sep); [done|]. by destruct (split_on sep rest).
Qed.

Lemma split_on_length sep s :
  length (split_on sep s) = S (occurrences sep s).
Proof.
  induction s as [|c rest IH]; cbn; [done|].
  destruct (Ascii.eqb c sep); cbn; [by rewrite IH|].
  pose proof (split_on_nonempty sep rest).
  destruct (split_on sep rest); [done|]. cbn in *. lia.
Qed.

Lemma split_on_first_empty sep s :
  head (split_on sep s) = Some EmptyString
  ↔ s = EmptyString ∨ ∃ rest, s = String sep rest.
Proof.
  destruct s as [|c rest]; cbn.
  - split; [by left|done].
  - destruct (Ascii.eqb c sep) eqn:Hc.
    + apply Ascii.eqb_eq in Hc as ->. split; [|done]. right. by exists rest.
    + split.
      * by destruct (split_on sep rest).
      * intros [?|[rest' [= -> ->]]]; [done|]. by rewrite Ascii.eqb_refl in Hc.
Qed.

Lemma send_loop_requests strip post message chat_ids : ∀ k,
  (send_loop strip post message k chat_ids).1
  = map (λ id, {| chat_id := strip id; text := message;
                  disable_web_page_preview := true |}) chat_ids
  ∧ (length (send_loop strip post message k chat_ids).2 ≤ length chat_ids)%nat.
Proof.
  induction chat_ids as [|id chat_ids IH]; intros k; cbn; [done|].
  destruct (IH (S k)) as [Hrequests Hlines].
  destruct (send_loop strip post message (S k) chat_ids) as [requests lines].
  cbn in *. split; [by rewrite Hrequests|].
  rewrite length_app.
  destruct (post k) as [code|e]; [destruct (negb _)|]; cbn; lia.
Qed.

(** X15.  With the chat ids read from the environment, sending a message
    never raises.  Nothing is posted exactly when the token is unset or
    empty, or the list of chat ids is unset, empty or opens with a comma;
    the only line printed is then the notice of the skip.  A list that
    opens with a comma silences all the chat ids after it as well. *)
Theorem send_skipped_iff (strip : string → string) (TELEGRAM_TOKEN : option string)
    (value : option string) (post : nat → result Z) (message : string) :
  ∃ requests lines,
    send_telegram_message strip TELEGRAM_TOKEN (getenv_list "" value) post message
    = Ok (requests, lines)
    ∧ (requests = [] ↔ no_token TELEGRAM_TOKEN ∨ no_first_chat_id value)
    ∧ (requests = [] → lines = ["Чат айди не найден, пропуск отсылки отчета"]).
Proof.
  unfold send_telegram_message, nothing_to_send, getenv_list, no_token,
    no_first_chat_id.
  set (env := match value with Some v => v | None => EmptyString end).
  pose proof (split_on_nonempty ","%char env) as Hne.
  pose proof (split_on_first_empty ","%char env) as Hfirst.
  assert (env = EmptyString ∨ (∃ rest, env = String ","%char rest)
          ↔ value = None ∨ value = Some EmptyString
            ∨ ∃ rest, value = Some (String ","%char rest)) as Henv.
  { unfold env. destruct value as [v|].
    - split.
      + intros [->|[rest ->]]; [by right; left|]. right. right. by exists rest.
      + intros [?|[[= ->]|[rest [= ->]]]]; [done|by left|]. right. by exists rest.
    - split; [by left|by left]. }
  destruct (split_on ","%char env) as [|first chat_ids] eqn:Hsplit; [done|].
  cbn in Hfirst.
  destruct TELEGRAM_TOKEN as [[|c token]|]; cbn.
  - eexists _, _. split; [done|]. split; [|done]. split; [|done]. left. by right.
  - destruct (bool_decide (first = EmptyString)) eqn:Hskip; cbn.
    + apply bool_decide_eq_true in Hskip as ->.
      eexists _, _. split; [done|]. split; [|done]. split; [|done].
      right. apply Henv, Hfirst. done.
    + apply bool_decide_eq_false in Hskip.
      pose proof (send_loop_requests strip post message chat_ids 1) as [Hreq _].
      destruct (send_loop strip post message 1 chat_ids) as [requests lines].
      eexists _, _. split; [done|]. split; [|done]. split; [done|].
      intros [[?|?]|Hno]; [done|done|].
      apply Henv, Hfirst in Hno. by injection Hno.
  - eexists _, _. split; [done|]. split; [|done]. split; [|done]. left. by left.
Qed.

Lemma send_telegram_message_requests (strip : string → string) (token : string)
    (value : string) (post : nat → result Z) (message : string) :
  token ≠ EmptyString →
  ¬ no_first_chat_id (Some value) →
  ∃ requests lines,
    send_telegram_message strip (Some token) (getenv_list "" (Some value))
      post message = Ok (requests, lines)
    ∧ requests
      = map (λ id, {| chat_id := strip id; text := message;
                      disable_web_page_preview := true |})
            (split_on ","%char value)
    ∧ (length lines ≤ length requests)%nat.
Proof.
  intros Htoken Hvalue.
  unfold send_telegram_message, nothing_to_send, getenv_list.
  pose proof (split_on_first_empty ","%char value) as Hfirst.
  pose proof (send_loop_requests strip post message (split_on ","%char value) 0)
    as [Hreq Hlines].
  destruct token as [|c token]; [done|].
  destruct (split_on ","%char value) as [|first chat_ids] eqn:Hsplit;
    [by apply split_on_nonempty in Hsplit|].
  cbn -[send_loop].
  destruct (bool_decide (first = EmptyString)) eqn:Hskip.
  { apply bool_decide_eq_true in Hskip as ->. exfalso. apply Hvalue.
    unfold no_first_chat_id.
    destruct (proj1 Hfirst eq_refl) as [->|[rest ->]];
      [by right; left|right; right; by exists rest]. }
  cbn -[send_loop].
  destruct (send_loop strip post message 0 (first :: chat_ids))
    as [requests lines].
  cbn [fst snd] in Hreq, Hlines. exists requests, lines.
  split; [done|]. split; [done|].
  rewrite Hreq, length_map. exact Hlines.
Qed.

(** X16.  With a token and a list of chat ids that does not open with a
    comma, a message is posted once to every entry of the list, in the
    order of the list and with the surrounding white space of the entry
    removed, whatever the earlier requests meet: a failed request is
    printed and the loop goes on.  There is one request more than the list
    has commas, and at most one printed line per request. *)
Theorem send_posts_to_every_chat_id (strip : string → string) (token : string)
    (value : string) (post : nat → result Z) (message : string) :
  token ≠ EmptyString →
  ¬ no_first_chat_id (Some value) →
  ∃ requests lines,
    send_telegram_message strip (Some token) (getenv_list "" (Some value))
      post message = Ok (requests, lines)
    ∧ requests
      = map (λ id, {| chat_id := strip id; text := message;
                      disable_web_page_preview := true |})
            (split_on ","%char value)
    ∧ length requests = S (occurrences ","%char value)
    ∧ (length lines ≤ length requests)%nat.
Proof.
  intros Htoken Hvalue.
  destruct (send_telegram_message_requests strip token value post message
              Htoken Hvalue) as (requests & lines & Hsend & Hreq & Hlines).
  exists requests, lines. do 2 (split; [done|]). split; [|done].
  rewrite Hreq, length_map. apply split_on_length.
Qed.

(** X17.  The closing loop of the main block sends the collected messages
    one after the other.  With a token and a list of chat ids that does not
    open with a comma it never raises, and every message is posted to every
    chat id: message by message in the order collected, and for each
    message chat id by chat id in the order configured. *)
Theorem every_report_reaches_every_chat_id (strip : string → string)
    (token value : string) (post : nat → nat → result Z)
    (all_messages : list string) :
  token ≠ EmptyString →
  ¬ no_first_chat_id (Some value) →
  ∃ sent,
    send_reports strip (Some token) (getenv_list "" (Some value)) post all_messages
    = Ok sent
    ∧ map fst sent
      = map (λ message,
               map (λ id, {| chat_id := strip id; text := message;
                             disable_web_page_preview := true |})
                   (split_on ","%char value))
            all_messages.
Proof.
  intros Htoken Hvalue. unfold send_reports.
  assert (∀ indexed : list (nat * string),
    ∃ sent,
      mapM (M := result) (λ im : nat * string,
        send_telegram_message strip (Some token) (getenv_list "" (Some value))
          (post im.1) im.2) indexed = Ok sent
      ∧ map fst sent
        = map (λ im : nat * string,
                 map (λ id, {| chat_id := strip id; text := im.2;
                               disable_web_page_preview := true |})
                     (split_on ","%char value))
              indexed) as Hall.
  { induction indexed as [|[i message] indexed (sent & IH & Hsent)].
    - by exists [].
    - destruct (send_telegram_message_requests strip token value (post i) message
                  Htoken Hvalue) as (requests & lines & Hsend & Hreq & _).
      exists ((requests, lines) :: sent). cbn in *.
      rewrite Hsend. cbn. rewrite IH. cbn. split; [done|]. by rewrite Hreq, Hsent. }
  destruct (Hall (imap (λ i msg, (i, msg)) all_messages)) as (sent & Hsent & Hmap).
  exists sent. split; [done|]. rewrite Hmap.
  change (map ?f (imap ?g ?l)) with (f <$> imap g l). rewrite fmap_imap.
  apply (imap_const (λ message : string,
           map (λ id, {| chat_id := strip id; text := message;
                         disable_web_page_preview := true |})
               (split_on ","%char value))).
Qed.

(** ** The further properties at concrete inputs *)

Lemma crawl_ignores_pages_after_end_witness :
  ends_listing (Ok (200, [lone_row]))
  ∧ crawl ascii_lib.strip ascii_lib.lower ascii_lib.strptime
      "https://example-pvs-site1.local" "2024-03-15" 1
      ([] ++ Ok (200, [lone_row]) :: [Ok (200, [started_row])]) []
    = crawl ascii_lib.strip ascii_lib.lower ascii_lib.strptime
        "https://example-pvs-site1.local" "2024-03-15" 1
        ([] ++ [Ok (200, [lone_row])]) [].
Proof.
  assert (ends_listing (Ok (200, [lone_row]))) as Hend by (right; cbn; lia).
  split; [exact Hend|].
  apply (crawl_ignores_pages_after_end ascii_lib.strip ascii_lib.lower
           ascii_lib.strptime "https://example-pvs-site1.local" "2024-03-15"
           [] [Ok (200, [started_row])] (Ok (200, [lone_row])) Hend).
Defined.


Lemma enrich_keeps_shipments_witness :
  [1; 0]%nat ≡ₚ seq 0 (length [twin_read; twin_failed])
  ∧ ∃ enriched_shipments,
      enrich twin_pages [1; 0]%nat [twin_read; twin_failed] = Ok enriched_shipments
      ∧ map base enriched_shipments = [twin_read; twin_failed]
      ∧ Forall (λ e : enriched,
                  ∃ j s',
                    [twin_read; twin_failed] !! j = Some s' ∧ id s' = id e
                    ∧ fetch_details (twin_pages j) s' = (id e, counts e))
               enriched_shipments.
Proof.
  assert ([1; 0]%nat ≡ₚ seq 0 (length [twin_read; twin_failed])) as Horder
    by apply perm_swap.
  split; [exact Horder|].
  apply (enrich_keeps_shipments twin_pages [1; 0]%nat [twin_read; twin_failed] Horder).
Defined.

Lemma unread_identifier_counts_zero_witness :
  [1; 0]%nat ≡ₚ seq 0 (length [twin_read; twin_failed])
  ∧ [twin_read; twin_failed] !! 0%nat = Some twin_read
  ∧ (∀ j s', [twin_read; twin_failed] !! j = Some s' → id s' = id twin_read →
             detail_url s' = None
             ∨ get_details_from_detail_page (broken_pages j) = None)
  ∧ ∃ enriched_shipments,
      enrich broken_pages [1; 0]%nat [twin_read; twin_failed] = Ok enriched_shipments
      ∧ length enriched_shipments = length [twin_read; twin_failed]
      ∧ enriched_shipments !! 0%nat = Some (update twin_read no_details).
Proof.
  assert ([1; 0]%nat ≡ₚ seq 0 (length [twin_read; twin_failed])) as Horder
    by apply perm_swap.
  assert (∀ j s', [twin_read; twin_failed] !! j = Some s' → id s' = id twin_read →
                  detail_url s' = None
                  ∨ get_details_from_detail_page (broken_pages j) = None) as Hunread
    by (intros j s' _ _; right; reflexivity).
  split; [exact Horder|]. split; [reflexivity|]. split; [exact Hunread|].
  apply (unread_identifier_counts_zero broken_pages [1; 0]%nat
           [twin_read; twin_failed] 0 twin_read Horder eq_refl Hunread).
Defined.

Lemma stored_row_agrees_with_report_witness :
  Forall (λ s : enriched, ascii_lib.lower (status s) = status s) [night_1; night_2]
  ∧ aggregate_group ascii_lib.strip ascii_lib.strptime (on_day 12 0) [night_1; night_2]
    = Ok night_report
  ∧ save_group_to_db ascii_lib.strip ascii_lib.lower ascii_lib.strptime (on_day 12 0)
      "site1" [night_1; night_2] 1 "2024-03-15"
      (count night_report) (duration_seconds night_report) = Ok night_row
  ∧ db_status night_row = agg_status night_report
  ∧ db_unload_started_at night_row = earliest_start night_report
  ∧ datetime.strftime_HM (db_created_at night_row) = first_created night_report
  ∧ db_sent night_row = total_sent night_report
  ∧ db_received night_row = total_received night_report
  ∧ db_excess night_row = total_excess night_report
  ∧ boxes_count night_row = count night_report
  ∧ unload_duration_seconds night_row = duration_seconds night_report
  ∧ db_closed_at night_row
    = if bool_decide (Forall (λ s : enriched, status s = "closed") [night_1; night_2])
      then latest_close night_report else None.
Proof.
  assert (Forall (λ s : enriched, ascii_lib.lower (status s) = status s)
            [night_1; night_2]) as Hlow by (repeat constructor).
  assert (aggregate_group ascii_lib.strip ascii_lib.strptime (on_day 12 0)
            [night_1; night_2] = Ok night_report) as Hagg
    by (vm_compute; reflexivity).
  assert (save_group_to_db ascii_lib.strip ascii_lib.lower ascii_lib.strptime
            (on_day 12 0) "site1" [night_1; night_2] 1 "2024-03-15"
            (count night_report) (duration_seconds night_report) = Ok night_row)
    as Hsave by (vm_compute; reflexivity).
  split; [exact Hlow|]. split; [exact Hagg|]. split; [exact Hsave|].
  apply (stored_row_agrees_with_report ascii_lib.strip ascii_lib.lower
           ascii_lib.strptime (on_day 12 0) (on_day 12 0) "site1"
           [night_1; night_2] 1 "2024-03-15" night_report night_row
           Hlow Hagg Hsave).
Defined.

Lemma stored_times_are_extremal_witness :
  save_group_to_db ascii_lib.strip ascii_lib.lower ascii_lib.strptime (on_day 12 0)
    "site1" [night_1; night_2] 1 "2024-03-15" 2 2700 = Ok night_row
  ∧ db_created_at night_row ∈ map (λ s : enriched, created_dt s) [night_1; night_2]
  ∧ Forall (λ t, datetime.leb (db_created_at night_row) t = true)
      (map (λ s : enriched, created_dt s) [night_1; night_2]).
Proof.
  assert (save_group_to_db ascii_lib.strip ascii_lib.lower ascii_lib.strptime
            (on_day 12 0) "site1" [night_1; night_2] 1 "2024-03-15" 2 2700
          = Ok night_row) as Hsave by (vm_compute; reflexivity).
  split; [exact Hsave|].
  apply (stored_times_are_extremal ascii_lib.strip ascii_lib.lower ascii_lib.strptime
           (on_day 12 0) "site1" [night_1; night_2] 1 "2024-03-15" 2 2700
           night_row Hsave).
Defined.

Lemma group_totals_add_up_witness :
  grouping_engine [night_1; night_2] = Ok [[night_1; night_2]]
  ∧ Forall2 (λ (g : group) a,
               ∃ now, aggregate_group ascii_lib.strip ascii_lib.strptime now g = Ok a)
      [[night_1; night_2]] [night_report]
  ∧ sum (map count [night_report]) = Z.of_nat (length [night_1; night_2]).
Proof.
  assert (grouping_engine [night_1; night_2] = Ok [[night_1; night_2]]) as Hgroups
    by (vm_compute; reflexivity).
  assert (Forall2 (λ (g : group) a,
                     ∃ now, aggregate_group ascii_lib.strip ascii_lib.strptime now g
                            = Ok a)
            [[night_1; night_2]] [night_report]) as Hreports.
  { constructor; [|constructor]. exists (on_day 12 0). vm_compute. reflexivity. }
  split; [exact Hgroups|]. split; [exact Hreports|].
  apply (group_totals_add_up ascii_lib.strip ascii_lib.strptime
           [night_1; night_2] [[night_1; night_2]] [night_report] Hgroups Hreports).
Defined.

Lemma pipeline_groups_ascending_witness :
  enrich (detail_pages clash_world) (finished clash_world)
    (sort_asc created_dt clash_shipments) ≫= grouping_engine = Ok [clash_group]
  ∧ Forall ascending [clash_group].
Proof.
  assert (enrich (detail_pages clash_world) (finished clash_world)
            (sort_asc created_dt clash_shipments) ≫= grouping_engine
          = Ok [clash_group]) as Hgroups by (vm_compute; reflexivity).
  split; [exact Hgroups|].
  apply (pipeline_groups_ascending (detail_pages clash_world) (finished clash_world)
           clash_shipments [clash_group] Hgroups).
Defined.

Lemma arrival_window_of_ascending_group_witness :
  ascending [night_1; night_2]
  ∧ aggregate_group ascii_lib.strip ascii_lib.strptime (on_day 12 0) [night_1; night_2]
    = Ok night_report
  ∧ ∃ first_s last_s : enriched,
      head [night_1; night_2] = Some first_s ∧ last [night_1; night_2] = Some last_s
      ∧ first_created night_report = datetime.strftime_HM (created_dt first_s)
      ∧ last_created night_report = datetime.strftime_HM (created_dt last_s)
      ∧ Forall (λ s : enriched,
                  datetime.leb (created_dt first_s) (created_dt s) = true
                  ∧ datetime.leb (created_dt s) (created_dt last_s) = true)
          [night_1; night_2].
Proof.
  assert (ascending [night_1; night_2]) as Hasc
    by (repeat constructor).
  assert (aggregate_group ascii_lib.strip ascii_lib.strptime (on_day 12 0)
            [night_1; night_2] = Ok night_report) as Hagg
    by (vm_compute; reflexivity).
  split; [exact Hasc|]. split; [exact Hagg|].
  apply (arrival_window_of_ascending_group ascii_lib.strip ascii_lib.strptime
           (on_day 12 0) [night_1; night_2] night_report Hasc Hagg).
Defined.

Lemma run_stores_only_groups_witness :
  let run :=
    process_pvs ascii_lib.strip ascii_lib.lower ascii_lib.strptime "site1"
      (quiet_world [lone_row]) in
  (∃ message, run.1 = Report message)
  ∧ ∃ (all_shipments : list shipment) (groups : list group),
      login (quiet_world [lone_row]) = Ok None
      ∧ all_shipments ≠ []
      ∧ length run.2 = length groups.
Proof.
  cbv zeta.
  set (run := process_pvs ascii_lib.strip ascii_lib.lower ascii_lib.strptime "site1"
                (quiet_world [lone_row])).
  assert (run = (run.1, run.2)) as Hrun by apply surjective_pairing.
  assert (∃ message, run.1 = Report message) as [message Hreport]
    by (eexists; vm_compute; reflexivity).
  split; [by exists message|].
  destruct (run_stores_only_groups ascii_lib.strip ascii_lib.lower ascii_lib.strptime
              "site1" (quiet_world [lone_row]) run.1 run.2
              Hrun (or_intror (ex_intro _ message Hreport)))
    as (all_shipments & groups & Hlogin & _ & Hne & _ & _ & _ & Hall).
  exists all_shipments, groups. split; [done|]. split; [done|].
  by destruct (Hall message Hreport).
Defined.

Lemma send_posts_to_every_chat_id_witness :
  "123:abc" ≠ EmptyString
  ∧ ¬ no_first_chat_id (Some " 11, 22")
  ∧ ∃ requests lines,
      send_telegram_message ascii_lib.strip (Some "123:abc")
        (getenv_list "" (Some " 11, 22")) (λ _, Ok 500) "report"
      = Ok (requests, lines)
      ∧ length requests = S (occurrences ","%char " 11, 22").
Proof.
  assert ("123:abc" ≠ EmptyString) as Htoken by congruence.
  assert (¬ no_first_chat_id (Some " 11, 22")) as Hvalue.
  { intros [Hno|[Hno|[rest Hno]]]; congruence. }
  split; [exact Htoken|]. split; [exact Hvalue|].
  destruct (send_posts_to_every_chat_id ascii_lib.strip "123:abc" " 11, 22"
              (λ _, Ok 500) "report" Htoken Hvalue)
    as (requests & lines & Hsend & _ & Hlen & _).
  by exists requests, lines.
Defined.

Lemma every_report_reaches_every_chat_id_witness :
  "123:abc" ≠ EmptyString
  ∧ ¬ no_first_chat_id (Some " 11, 22")
  ∧ ∃ sent,
      send_reports ascii_lib.strip (Some "123:abc") (getenv_list "" (Some " 11, 22"))
        (λ _ _, Raise (RequestException "Read timed out.")) ["first"; "second"]
      = Ok sent
      ∧ map fst sent
        = map (λ message,
                 map (λ id, {| chat_id := ascii_lib.strip id; text := message;
                               disable_web_page_preview := true |})
                     (split_on ","%char " 11, 22"))
              ["first"; "second"].
Proof.
  assert ("123:abc" ≠ EmptyString) as Htoken by congruence.
  assert (¬ no_first_chat_id (Some " 11, 22")) as Hvalue.
  { intros [Hno|[Hno|[rest Hno]]]; congruence. }
  split; [exact Htoken|]. split; [exact Hvalue|].
  apply (every_report_reaches_every_chat_id ascii_lib.strip "123:abc" " 11, 22"
           (λ _ _, Raise (RequestException "Read timed out."))
           ["first"; "second"] Htoken Hvalue).
Defined.

Lemma stale_page_ends_crawl_after_first_witness :
  readable ascii_lib.strip ascii_lib.lower ascii_lib.strptime
    "https://example-pvs-site1.local" "2024-03-15" (replicate 20 old_row)
  ∧ (20 ≤ length (replicate 20 old_row))%nat
  ∧ omap (appended ascii_lib.strip ascii_lib.lower ascii_lib.strptime
            "https://example-pvs-site1.local" "2024-03-15") (replicate 20 old_row)
    = []
  ∧ crawl ascii_lib.strip ascii_lib.lower ascii_lib.strptime
      "https://example-pvs-site1.local" "2024-03-15" 1
      [Ok (200, replicate 20 old_row); Ok (200, [lone_row])] []
    = crawl ascii_lib.strip ascii_lib.lower ascii_lib.strptime
        "https://example-pvs-site1.local" "2024-03-15" 2 [Ok (200, [lone_row])] [].
Proof.
  assert (readable ascii_lib.strip ascii_lib.lower ascii_lib.strptime
            "https://example-pvs-site1.local" "2024-03-15" (replicate 20 old_row))
    as Hread.
  { apply Forall_forall. intros r ->%elem_of_replicate_inv.
    eexists. vm_compute. reflexivity. }
  assert (20 ≤ length (replicate 20 old_row))%nat as Hlen by (cbn; lia).
  assert (omap (appended ascii_lib.strip ascii_lib.lower ascii_lib.strptime
                  "https://example-pvs-site1.local" "2024-03-15")
            (replicate 20 old_row) = []) as Hnone by (vm_compute; reflexivity).
  split; [exact Hread|]. split; [exact Hlen|]. split; [exact Hnone|].
  apply (stale_page_ends_crawl_after_first ascii_lib.strip ascii_lib.lower
           ascii_lib.strptime "https://example-pvs-site1.local" "2024-03-15"
           1 (replicate 20 old_row) [Ok (200, [lone_row])] [] Hread Hlen Hnone).
Defined.
